(** * Content-safety gate and guard-token protocol of carplay-backend

    Shallow embedding of the TypeScript handlers under [src/]:
    - the classifier [isBlockedHealthRequest] and its three pattern lists
      (src/netlify/functions/realtime-guard.ts, src/api/realtime/session.ts,
      src/api/realtime/guard.ts, src/unnamed/part_000, part_003, part_004);
    - the token codec [signGuardToken] / [isValidGuardToken] together with
      the Node primitives they call (UTF-8 [Buffer] conversions, base64,
      [JSON.stringify], [JSON.parse]);
    - the Guard, Session, Offer and Voice-Chat handlers (also
      src/api/realtime/offer.ts, src/unnamed/part_001, part_002, part_005),
      written in a small state-and-exception monad that records every
      outbound collaborator call.

    JavaScript strings are lists of UTF-16 code units ([list Z]); byte
    buffers are lists of [Z] in [0, 256). *)

From Stdlib Require Import String Ascii List ZArith Bool Lia.
From Stdlib Require Import DecimalN Strings.Byte.
Set Warnings "-register-all".

Import ListNotations.
Open Scope Z_scope.

(** ** Strings and bytes *)

Definition jsstr := list Z.

(** The bytes of a Rocq string literal (literals of this file are UTF-8). *)
Definition bytes_of_string (s : string) : list Z :=
  List.map (fun c => Z.of_nat (nat_of_ascii c)) (list_ascii_of_string s).

Definition is_cont (b : Z) : bool := (0x80 <=? b) && (b <? 0xC0).

(** [Buffer.prototype.toString('utf8')]: UTF-8 bytes to UTF-16 code units.
    Every ill-formed byte becomes one U+FFFD and decoding resumes at the
    next byte. *)
Fixpoint utf8_decode (l : list Z) : jsstr :=
  match l with
  | [] => []
  | b :: r =>
    if b <? 0x80 then b :: utf8_decode r
    else if (0xC2 <=? b) && (b <=? 0xDF) then
      match r with
      | c :: r' =>
        if is_cont c
        then Z.lor (Z.shiftl (Z.land b 0x1F) 6) (Z.land c 0x3F) :: utf8_decode r'
        else 0xFFFD :: utf8_decode r
      | [] => [0xFFFD]
      end
    else if (0xE0 <=? b) && (b <=? 0xEF) then
      match r with
      | c1 :: c2 :: r' =>
        let cp := Z.lor (Z.shiftl (Z.land b 0x0F) 12)
                    (Z.lor (Z.shiftl (Z.land c1 0x3F) 6) (Z.land c2 0x3F)) in
        if is_cont c1 && is_cont c2 && (0x800 <=? cp)
           && negb ((0xD800 <=? cp) && (cp <=? 0xDFFF))
        then cp :: utf8_decode r'
        else 0xFFFD :: utf8_decode r
      | _ => 0xFFFD :: utf8_decode r
      end
    else if (0xF0 <=? b) && (b <=? 0xF4) then
      match r with
      | c1 :: c2 :: c3 :: r' =>
        let cp := Z.lor (Z.shiftl (Z.land b 0x07) 18)
                    (Z.lor (Z.shiftl (Z.land c1 0x3F) 12)
                      (Z.lor (Z.shiftl (Z.land c2 0x3F) 6) (Z.land c3 0x3F))) in
        if is_cont c1 && is_cont c2 && is_cont c3
           && (0x10000 <=? cp) && (cp <=? 0x10FFFF)
        then (0xD800 + Z.shiftr (cp - 0x10000) 10)
               :: (0xDC00 + Z.land (cp - 0x10000) 0x3FF) :: utf8_decode r'
        else 0xFFFD :: utf8_decode r
      | _ => 0xFFFD :: utf8_decode r
      end
    else 0xFFFD :: utf8_decode r
  end.

(** String literals of the source, as JavaScript strings. *)
Definition js (s : string) : jsstr := utf8_decode (bytes_of_string s).

(** [Buffer.from(string)]: UTF-16 code units to UTF-8 bytes; a lone
    surrogate is encoded as U+FFFD. *)
Fixpoint utf8_encode (s : jsstr) : list Z :=
  match s with
  | [] => []
  | c :: r =>
    if c <? 0x80 then c :: utf8_encode r
    else if c <? 0x800 then
      [Z.lor 0xC0 (Z.shiftr c 6); Z.lor 0x80 (Z.land c 0x3F)] ++ utf8_encode r
    else if (0xD800 <=? c) && (c <=? 0xDBFF) then
      match r with
      | d :: r' =>
        if (0xDC00 <=? d) && (d <=? 0xDFFF) then
          let cp := 0x10000 + Z.shiftl (c - 0xD800) 10 + (d - 0xDC00) in
          [Z.lor 0xF0 (Z.shiftr cp 18); Z.lor 0x80 (Z.land (Z.shiftr cp 12) 0x3F);
           Z.lor 0x80 (Z.land (Z.shiftr cp 6) 0x3F); Z.lor 0x80 (Z.land cp 0x3F)]
            ++ utf8_encode r'
        else [0xEF; 0xBF; 0xBD] ++ utf8_encode r
      | [] => [0xEF; 0xBF; 0xBD]
      end
    else if (0xDC00 <=? c) && (c <=? 0xDFFF) then [0xEF; 0xBF; 0xBD] ++ utf8_encode r
    else [Z.lor 0xE0 (Z.shiftr c 12); Z.lor 0x80 (Z.land (Z.shiftr c 6) 0x3F);
          Z.lor 0x80 (Z.land c 0x3F)] ++ utf8_encode r
  end.

Fixpoint jsstr_eqb (a b : jsstr) : bool :=
  match a, b with
  | [], [] => true
  | x :: a', y :: b' => (x =? y) && jsstr_eqb a' b'
  | _, _ => false
  end.

(** [s.replace(/x/g, y)] for a one-character pattern. *)
Definition replace_char (x y : Z) (s : jsstr) : jsstr :=
  List.map (fun c => if c =? x then y else c) s.

Fixpoint drop_while (p : Z -> bool) (s : jsstr) : jsstr :=
  match s with
  | c :: r => if p c then drop_while p r else s
  | [] => []
  end.

(** [s.replace(/=+$/g, '')]: remove the maximal trailing run of [x]. *)
Definition strip_trailing (x : Z) (s : jsstr) : jsstr :=
  rev (drop_while (Z.eqb x) (rev s)).

(** ** Base64 (Node's [Buffer] codec) *)

Definition b64_char (n : Z) : Z :=
  if n <? 26 then 65 + n
  else if n <? 52 then 97 + (n - 26)
  else if n <? 62 then 48 + (n - 52)
  else if n =? 62 then 43 else 47.

(** [buf.toString('base64')], with '=' padding. *)
Fixpoint base64_encode (bs : list Z) : jsstr :=
  match bs with
  | a :: b :: c :: r =>
    b64_char (Z.shiftr a 2)
      :: b64_char (Z.lor (Z.shiftl (Z.land a 3) 4) (Z.shiftr b 4))
      :: b64_char (Z.lor (Z.shiftl (Z.land b 15) 2) (Z.shiftr c 6))
      :: b64_char (Z.land c 63) :: base64_encode r
  | [a; b] =>
    [b64_char (Z.shiftr a 2); b64_char (Z.lor (Z.shiftl (Z.land a 3) 4) (Z.shiftr b 4));
     b64_char (Z.shiftl (Z.land b 15) 2); 61]
  | [a] => [b64_char (Z.shiftr a 2); b64_char (Z.shiftl (Z.land a 3) 4); 61; 61]
  | [] => []
  end.

Definition unbase64 (c : Z) : option Z :=
  if (65 <=? c) && (c <=? 90) then Some (c - 65)
  else if (97 <=? c) && (c <=? 122) then Some (c - 71)
  else if (48 <=? c) && (c <=? 57) then Some (c + 4)
  else if c =? 43 then Some 62
  else if c =? 47 then Some 63
  else None.

(** Node's lenient decoder: characters outside the alphabet are skipped,
    decoding stops at the first '='. *)
Fixpoint b64_sextets (s : jsstr) : list Z :=
  match s with
  | [] => []
  | c :: r =>
    if c =? 61 then []
    else match unbase64 c with
         | Some v => v :: b64_sextets r
         | None => b64_sextets r
         end
  end.

Fixpoint sextets_to_bytes (l : list Z) : list Z :=
  match l with
  | a :: b :: c :: d :: r =>
    Z.lor (Z.shiftl a 2) (Z.shiftr b 4)
      :: Z.lor (Z.shiftl (Z.land b 15) 4) (Z.shiftr c 2)
      :: Z.lor (Z.shiftl (Z.land c 3) 6) d :: sextets_to_bytes r
  | [a; b; c] =>
    [Z.lor (Z.shiftl a 2) (Z.shiftr b 4); Z.lor (Z.shiftl (Z.land b 15) 4) (Z.shiftr c 2)]
  | [a; b] => [Z.lor (Z.shiftl a 2) (Z.shiftr b 4)]
  | _ => []
  end.

(** [Buffer.from(s, 'base64')]. *)
Definition buffer_from_base64 (s : jsstr) : list Z := sextets_to_bytes (b64_sextets s).

(** The chain [.replace(/\+/g, '-').replace(/\//g, '_').replace(/=+$/g, '')]
    applied to a base64 string, in src/netlify/functions/realtime-guard.ts
    and src/api/realtime/session.ts. *)
Definition url_safe (b64 : jsstr) : jsstr :=
  strip_trailing 61 (replace_char 47 95 (replace_char 43 45 b64)).

(** [base64UrlEncode(input)] (realtime-guard.ts, guard.ts). *)
Definition base64UrlEncode (input : jsstr) : jsstr :=
  url_safe (base64_encode (utf8_encode input)).

(** [base64UrlDecode(input)] (session.ts, part_003). *)
Definition base64UrlDecode (input : jsstr) : jsstr :=
  let padded := replace_char 95 47 (replace_char 45 43 input) in
  let padLength := Z.to_nat ((4 - (Z.of_nat (length padded) mod 4)) mod 4) in
  let normalized := padded ++ repeat 61 padLength in
  utf8_decode (buffer_from_base64 normalized).


(** ** JSON values, [JSON.parse] and [JSON.stringify] *)

(** A JSON number is kept exactly as [JNum m e], the decimal [m * 10^e]
    (an idealisation of IEEE doubles, exact on the integers the code
    produces). *)
Inductive json : Type :=
| JNull
| JBool (b : bool)
| JNum (m e : Z)
| JStr (s : jsstr)
| JArr (l : list json)
| JObj (l : list (jsstr * json)).

Definition is_json_ws (c : Z) : bool := (c =? 32) || (c =? 9) || (c =? 10) || (c =? 13).
Definition is_digit (c : Z) : bool := (48 <=? c) && (c <=? 57).

Fixpoint skip_ws (l : list Z) : list Z :=
  match l with
  | c :: r => if is_json_ws c then skip_ws r else l
  | [] => []
  end.

Definition uint_cons (d : Z) (u : Decimal.uint) : Decimal.uint :=
  if d =? 0 then Decimal.D0 u else if d =? 1 then Decimal.D1 u
  else if d =? 2 then Decimal.D2 u else if d =? 3 then Decimal.D3 u
  else if d =? 4 then Decimal.D4 u else if d =? 5 then Decimal.D5 u
  else if d =? 6 then Decimal.D6 u else if d =? 7 then Decimal.D7 u
  else if d =? 8 then Decimal.D8 u else Decimal.D9 u.

(** The maximal run of decimal digits at the head of [l]. *)
Fixpoint lex_digits (l : list Z) : Decimal.uint * list Z :=
  match l with
  | c :: r =>
    if is_digit c then let (u, rest) := lex_digits r in (uint_cons (c - 48) u, rest)
    else (Decimal.Nil, l)
  | [] => (Decimal.Nil, [])
  end.

Fixpoint print_uint (u : Decimal.uint) : jsstr :=
  match u with
  | Decimal.Nil => []
  | Decimal.D0 u => 48 :: print_uint u | Decimal.D1 u => 49 :: print_uint u
  | Decimal.D2 u => 50 :: print_uint u | Decimal.D3 u => 51 :: print_uint u
  | Decimal.D4 u => 52 :: print_uint u | Decimal.D5 u => 53 :: print_uint u
  | Decimal.D6 u => 54 :: print_uint u | Decimal.D7 u => 55 :: print_uint u
  | Decimal.D8 u => 56 :: print_uint u | Decimal.D9 u => 57 :: print_uint u
  end.

Definition uint_val (u : Decimal.uint) : Z := Z.of_N (N.of_uint u).

(** Decimal rendering of an integer, as [Number.prototype.toString]. *)
Definition print_Z (z : Z) : jsstr :=
  if z <? 0 then 45 :: print_uint (N.to_uint (Z.to_N (- z)))
  else print_uint (N.to_uint (Z.to_N z)).

Definition is_empty_uint (u : Decimal.uint) : bool :=
  match u with Decimal.Nil => true | _ => false end.

(** JSON forbids leading zeros: "0" is fine, "01" is not. *)
Definition leading_zero (u : Decimal.uint) : bool :=
  match u with Decimal.D0 Decimal.Nil => false | Decimal.D0 _ => true | _ => false end.

(** number = '-'? int ('.' digits)? (('e'|'E') ('+'|'-')? digits)? *)
Definition parse_number (l : list Z) : option (json * list Z) :=
  let '(neg, l1) := match l with
                    | c :: r => if c =? 45 then (true, r) else (false, l)
                    | [] => (false, l)
                    end in
  let '(iu, l2) := lex_digits l1 in
  if is_empty_uint iu || leading_zero iu then None else
  let frac := match l2 with
              | c :: r =>
                if c =? 46 then
                  let '(fu, l3) := lex_digits r in
                  if is_empty_uint fu then None else Some (fu, l3)
                else Some (Decimal.Nil, l2)
              | [] => Some (Decimal.Nil, l2)
              end in
  match frac with
  | None => None
  | Some (fu, l3) =>
    let expo := match l3 with
                | c :: r =>
                  if (c =? 101) || (c =? 69) then
                    let '(eneg, r1) := match r with
                                       | d :: r' => if d =? 45 then (true, r')
                                                    else if d =? 43 then (false, r')
                                                    else (false, r)
                                       | [] => (false, r)
                                       end in
                    let '(eu, l4) := lex_digits r1 in
                    if is_empty_uint eu then None
                    else Some (if eneg then - uint_val eu else uint_val eu, l4)
                  else Some (0, l3)
                | [] => Some (0, l3)
                end in
    match expo with
    | None => None
    | Some (ev, l4) =>
      let nf := Z.of_nat (Decimal.nb_digits fu) in
      let m := uint_val iu * 10 ^ nf + uint_val fu in
      Some (JNum (if neg then - m else m) (ev - nf), l4)
    end
  end.

Definition hex_val (c : Z) : option Z :=
  if is_digit c then Some (c - 48)
  else if (97 <=? c) && (c <=? 102) then Some (c - 87)
  else if (65 <=? c) && (c <=? 70) then Some (c - 55)
  else None.

Definition cons_str (c : Z) (o : option (jsstr * list Z)) : option (jsstr * list Z) :=
  match o with Some (s, rest) => Some (c :: s, rest) | None => None end.

(** The body of a string literal, after its opening quote. *)
Fixpoint parse_str (l : list Z) : option (jsstr * list Z) :=
  match l with
  | [] => None
  | c :: r =>
    if c =? 34 then Some ([], r)
    else if c =? 92 then
      match r with
      | e :: r' =>
        if e =? 34 then cons_str 34 (parse_str r')
        else if e =? 92 then cons_str 92 (parse_str r')
        else if e =? 47 then cons_str 47 (parse_str r')
        else if e =? 98 then cons_str 8 (parse_str r')
        else if e =? 102 then cons_str 12 (parse_str r')
        else if e =? 110 then cons_str 10 (parse_str r')
        else if e =? 114 then cons_str 13 (parse_str r')
        else if e =? 116 then cons_str 9 (parse_str r')
        else if e =? 117 then
          match r' with
          | h1 :: h2 :: h3 :: h4 :: r'' =>
            match hex_val h1, hex_val h2, hex_val h3, hex_val h4 with
            | Some a, Some b, Some c', Some d =>
              cons_str (a * 4096 + b * 256 + c' * 16 + d) (parse_str r'')
            | _, _, _, _ => None
            end
          | _ => None
          end
        else None
      | [] => None
      end
    else if c <? 32 then None
    else cons_str c (parse_str r)
  end.

Definition starts_with (w l : list Z) : bool := jsstr_eqb w (firstn (length w) l).

(** One JSON value after optional whitespace; [fuel] bounds the nesting and
    the number of members (the input length is always enough, as every
    step consumes a character). *)
Fixpoint parse_value (fuel : nat) (l : list Z) {struct fuel} : option (json * list Z) :=
  match fuel with
  | O => None
  | S f =>
    match skip_ws l with
    | [] => None
    | c :: r =>
      if c =? 123 then
        match skip_ws r with
        | d :: r' => if d =? 125 then Some (JObj [], r') else parse_members f [] r
        | [] => None
        end
      else if c =? 91 then
        match skip_ws r with
        | d :: r' => if d =? 93 then Some (JArr [], r') else parse_elems f [] r
        | [] => None
        end
      else if c =? 34 then
        match parse_str r with Some (s, r') => Some (JStr s, r') | None => None end
      else if starts_with (js "null") (c :: r) then Some (JNull, skipn 4 (c :: r))
      else if starts_with (js "true") (c :: r) then Some (JBool true, skipn 4 (c :: r))
      else if starts_with (js "false") (c :: r) then Some (JBool false, skipn 5 (c :: r))
      else if (c =? 45) || is_digit c then parse_number (c :: r)
      else None
    end
  end
with parse_members (fuel : nat) (acc : list (jsstr * json)) (l : list Z) {struct fuel}
  : option (json * list Z) :=
  match fuel with
  | O => None
  | S f =>
    match skip_ws l with
    | c :: r =>
      if c =? 34 then
        match parse_str r with
        | Some (k, r1) =>
          match skip_ws r1 with
          | d :: r2 =>
            if d =? 58 then
              match parse_value f r2 with
              | Some (v, r3) =>
                match skip_ws r3 with
                | e :: r4 =>
                  if e =? 44 then parse_members f (acc ++ [(k, v)]) r4
                  else if e =? 125 then Some (JObj (acc ++ [(k, v)]), r4)
                  else None
                | [] => None
                end
              | None => None
              end
            else None
          | [] => None
          end
        | None => None
        end
      else None
    | [] => None
    end
  end
with parse_elems (fuel : nat) (acc : list json) (l : list Z) {struct fuel}
  : option (json * list Z) :=
  match fuel with
  | O => None
  | S f =>
    match parse_value f l with
    | Some (v, r3) =>
      match skip_ws r3 with
      | e :: r4 =>
        if e =? 44 then parse_elems f (acc ++ [v]) r4
        else if e =? 93 then Some (JArr (acc ++ [v]), r4)
        else None
      | [] => None
      end
    | None => None
    end
  end.

(** [JSON.parse(s)]: [None] when it throws a [SyntaxError]. *)
Definition JSON_parse (s : jsstr) : option json :=
  match parse_value (S (length s)) s with
  | Some (v, rest) => match skip_ws rest with [] => Some v | _ => None end
  | None => None
  end.

Fixpoint quote_chars (s : jsstr) : jsstr :=
  match s with
  | [] => []
  | c :: r =>
    (if c =? 34 then [92; 34] else if c =? 92 then [92; 92]
     else if c =? 8 then [92; 98] else if c =? 12 then [92; 102]
     else if c =? 10 then [92; 110] else if c =? 13 then [92; 114]
     else if c =? 9 then [92; 116]
     else if c <? 32 then [92; 117; 48; 48; 48 + Z.shiftr c 4;
                           if Z.land c 15 <? 10 then 48 + Z.land c 15 else 87 + Z.land c 15]
     else [c]) ++ quote_chars r
  end.

(** Rendering of a number: integers in plain decimal, as JavaScript does
    below 1e21; a non-integral [m * 10^e] is rendered as "m" "e" "e", a
    valid JSON spelling of the same number. *)
Definition number_to_string (m e : Z) : jsstr :=
  if 0 <=? e then print_Z (m * 10 ^ e)
  else if m mod 10 ^ (- e) =? 0 then print_Z (m / 10 ^ (- e))
  else print_Z m ++ [101] ++ print_Z e.

Fixpoint join_with (sep : jsstr) (l : list jsstr) : jsstr :=
  match l with
  | [] => []
  | [x] => x
  | x :: r => x ++ sep ++ join_with sep r
  end.

(** [JSON.stringify(v)]; a lone surrogate is emitted as it is. *)
Fixpoint JSON_stringify (v : json) : jsstr :=
  match v with
  | JNull => js "null"
  | JBool true => js "true"
  | JBool false => js "false"
  | JNum m e => number_to_string m e
  | JStr s => [34] ++ quote_chars s ++ [34]
  | JArr l => [91] ++ join_with [44] (List.map JSON_stringify l) ++ [93]
  | JObj l =>
    [123] ++ join_with [44] (List.map (fun kv => [34] ++ quote_chars (fst kv) ++ [34; 58]
                                                ++ JSON_stringify (snd kv)) l) ++ [125]
  end.

(** ** JavaScript values *)

(** A value read from parsed JSON, with [None] for [undefined]. *)
Definition jsval := option json.

(** [JSON.parse] keeps the last of duplicated keys. *)
Fixpoint assoc_last (k : jsstr) (l : list (jsstr * json)) : jsval :=
  match l with
  | [] => None
  | (k', v) :: r =>
    match assoc_last k r with
    | Some w => Some w
    | None => if jsstr_eqb k k' then Some v else None
    end
  end.

(** Property read [v.k]; [None] when it throws a [TypeError] (on [null]).
    None of the property names the code reads is inherited by strings,
    numbers, booleans, arrays or plain objects. *)
Definition js_get (v : json) (k : jsstr) : option jsval :=
  match v with
  | JNull => None
  | JObj l => Some (assoc_last k l)
  | _ => Some None
  end.

(** Optional chaining [v?.k] on a possibly undefined value. *)
Definition js_get_opt (v : jsval) (k : jsstr) : jsval :=
  match v with
  | None | Some JNull => None
  | Some (JObj l) => assoc_last k l
  | Some _ => None
  end.

(** [a ?? b]. *)
Definition nullish_or (a b : jsval) : jsval :=
  match a with None | Some JNull => b | _ => a end.

Definition truthy (v : jsval) : bool :=
  match v with
  | None | Some JNull => false
  | Some (JBool b) => b
  | Some (JNum m _) => negb (m =? 0)
  | Some (JStr s) => match s with [] => false | _ => true end
  | Some (JArr _) | Some (JObj _) => true
  end.

(** [a || b]. *)
Definition js_or (a b : jsval) : jsval := if truthy a then a else b.

(** The value is a string, so converting it to a string cannot throw. *)
Definition string_valued (v : jsval) : Prop :=
  match v with Some (JStr _) => True | _ => False end.

(** WhiteSpace and LineTerminator code units: the regular-expression class
    [\s] and the characters removed by [String.prototype.trim]. *)
Definition is_js_space (c : Z) : bool :=
  ((9 <=? c) && (c <=? 13)) || (c =? 32) || (c =? 0xA0) || (c =? 0x1680)
  || ((0x2000 <=? c) && (c <=? 0x200A)) || (c =? 0x2028) || (c =? 0x2029)
  || (c =? 0x202F) || (c =? 0x205F) || (c =? 0x3000) || (c =? 0xFEFF).

(** [s.trim()]. *)
Definition js_trim (s : jsstr) : jsstr :=
  rev (drop_while is_js_space (rev (drop_while is_js_space s))).

(** [ToNumber] as [>=] applies it; [None] is NaN.  Strings are read as
    decimal literals after trimming (the empty string is 0); the other
    spellings StringToNumber accepts (hexadecimal, "Infinity", a leading
    "+") and the conversion of arrays through their string form are not
    modelled and read as NaN. *)
Definition to_number (v : jsval) : option (Z * Z) :=
  match v with
  | None => None
  | Some JNull => Some (0, 0)
  | Some (JBool b) => Some (if b then 1 else 0, 0)
  | Some (JNum m e) => Some (m, e)
  | Some (JStr s) =>
    match js_trim s with
    | [] => Some (0, 0)
    | t => match parse_number t with
           | Some (JNum m e, []) => Some (m, e)
           | _ => None
           end
    end
  | Some (JArr _) | Some (JObj _) => None
  end.

(** [x >= n] for a number [n]. *)
Definition js_ge (x : jsval) (n : Z) : bool :=
  match to_number x with
  | Some (m, e) => if 0 <=? e then n <=? m * 10 ^ e else n * 10 ^ (- e) <=? m
  | None => false
  end.

(** [s.split(sep)] for a one-character separator. *)
Fixpoint split_on (sep : Z) (s : jsstr) : list jsstr :=
  match s with
  | [] => [[]]
  | c :: r =>
    if c =? sep then [] :: split_on sep r
    else match split_on sep r with
         | x :: xs => (c :: x) :: xs
         | [] => [[c]]
         end
  end.

(** ** Token codec *)

Definition byte_value (b : Byte.byte) : Z := Z.of_N (Byte.to_N b).

Section TokenCodec.

(** [crypto.createHmac('sha256', secret).update(data).digest()]: the
    HMAC-SHA256 digest of the data under the secret, as a buffer. *)
Variable hmac_sha256 : jsstr -> jsstr -> list Byte.byte.

(** [crypto.createHmac('sha256', secret).update(data).digest('base64')
      .replace(/\+/g, '-').replace(/\//g, '_').replace(/=+$/g, '')]. *)
Definition hmac_b64url (secret data : jsstr) : jsstr :=
  url_safe (base64_encode (List.map byte_value (hmac_sha256 secret data))).

(** The token payload [{ exp: expiresAt, allowed: true }]. *)
Definition guard_claim (expiresAt : Z) : json :=
  JObj [(js "exp", JNum expiresAt 0); (js "allowed", JBool true)].

(** [signGuardToken(secret, expiresAt)] (realtime-guard.ts, guard.ts). *)
Definition signGuardToken (secret : jsstr) (expiresAt : Z) : jsstr :=
  let payload := JSON_stringify (guard_claim expiresAt) in
  let payloadB64 := base64UrlEncode payload in
  let signature := hmac_b64url secret payloadB64 in
  let signatureB64 := signature in
  payloadB64 ++ [46] ++ signatureB64.

(** The [try] block of [isValidGuardToken]; [None] when it throws (and the
    [catch] returns false).  [now] is [Math.floor(Date.now() / 1000)]. *)
Definition check_payload (payloadB64 : jsstr) (now : Z) : option bool :=
  match JSON_parse (base64UrlDecode payloadB64) with
  | None => None
  | Some payload =>
    match js_get payload (js "allowed") with
    | None => None
    | Some allowed =>
      if negb (truthy allowed) then Some false
      else match js_get payload (js "exp") with
           | None => None
           | Some exp => if negb (truthy exp) then Some false else Some (js_ge exp now)
           end
    end
  end.

(** [isValidGuardToken(token, secret)] (session.ts, part_003). *)
Definition isValidGuardToken (token secret : jsstr) (now : Z) : bool :=
  let parts := split_on 46 token in
  match parts with
  | [payloadB64; signatureB64] =>
    let expectedSig := hmac_b64url secret payloadB64 in
    if negb (jsstr_eqb signatureB64 expectedSig) then false
    else match check_payload payloadB64 now with
         | Some b => b
         | None => false
         end
  | _ => false
  end.

End TokenCodec.

(** ** Regular expressions of the blocklists *)

(** The fragment of JavaScript regular expressions the blocklists use:
    literal runs, character classes (with [\s]), [\b], concatenation,
    alternation (top level and inside a group) and the [?] quantifier.
    Groups only matter for [test] through what they match. *)
Inductive cls : Type :=
| CChar (c : Z)
| CSpace.

Inductive regex : Type :=
| REps
| RStr (w : jsstr)
| RClass (l : list cls)
| RWordB
| RCat (a b : regex)
| RAlt (a b : regex)
| ROpt (a : regex).

(** A sequence of terms. *)
Definition cat (l : list regex) : regex := fold_right RCat REps l.

(** [\w]: ASCII letters, digits and [_] (no [u] or [i] flag). *)
Definition is_word (c : Z) : bool :=
  ((97 <=? c) && (c <=? 122)) || ((65 <=? c) && (c <=? 90)) || is_digit c || (c =? 95).

Definition word_at (s : jsstr) (k : nat) : bool :=
  match nth_error s k with Some c => is_word c | None => false end.

(** [\b] at position [i]: the characters before and after differ in being
    word characters, the outside of the string counting as non-word. *)
Definition word_boundary (s : jsstr) (i : nat) : bool :=
  let before := match i with O => false | S k => word_at s k end in
  xorb before (word_at s i).

Definition cls_mem (c : Z) (k : cls) : bool :=
  match k with CChar d => c =? d | CSpace => is_js_space c end.

(** [ends r s i]: every position [j] such that [r] matches [s] from [i] to
    [j].  The matcher of JavaScript backtracks through the alternatives in
    order and [test] only asks whether some match exists, so the set of
    ends decides it. *)
Fixpoint ends (r : regex) (s : jsstr) (i : nat) : list nat :=
  match r with
  | REps => [i]
  | RStr w => if jsstr_eqb w (firstn (length w) (skipn i s)) then [(i + length w)%nat] else []
  | RClass l =>
    match nth_error s i with
    | Some c => if existsb (cls_mem c) l then [S i] else []
    | None => []
    end
  | RWordB => if word_boundary s i then [i] else []
  | RCat a b => flat_map (fun j => ends b s j) (ends a s i)
  | RAlt a b => ends a s i ++ ends b s i
  | ROpt a => ends a s i ++ [i]
  end.

(** [pattern.test(s)] for a pattern without flags: a match starting at some
    position [0 .. length s]. *)
Definition regex_test (r : regex) (s : jsstr) : bool :=
  existsb (fun i => match ends r s i with [] => false | _ => true end) (seq 0 (S (length s))).

(** [String.prototype.toLowerCase] on the code units it maps one to one to
    a different unit in the ranges the blocklists and their tests use:
    ASCII [A-Z], Latin-1 [À-Þ] (but [×]), Cyrillic [Ѐ-Џ] and [А-Я].  Other
    units are kept, which differs from JavaScript for other cased scripts
    and for the few units whose lower case is longer. *)
Definition lower_char (c : Z) : Z :=
  if (65 <=? c) && (c <=? 90) then c + 32
  else if (0xC0 <=? c) && (c <=? 0xDE) && negb (c =? 0xD7) then c + 32
  else if (0x400 <=? c) && (c <=? 0x40F) then c + 80
  else if (0x410 <=? c) && (c <=? 0x42F) then c + 32
  else c.

Definition toLowerCase (s : jsstr) : jsstr := List.map lower_char s.

(** [blockedHealthPatterns.some((pattern) => pattern.test(lower(text)))],
    for any list of patterns and any lower-casing. *)
Definition classify (lower : jsstr -> jsstr) (pats : list regex) (text : jsstr) : bool :=
  let normalized := lower text in
  existsb (fun pattern => regex_test pattern normalized) pats.

(** [isBlockedHealthRequest(text)] of a module whose list is [pats]. *)
Definition isBlockedHealthRequest (pats : list regex) (text : jsstr) : bool :=
  classify toLowerCase pats text.

(** [blockedHealthPatterns] of realtime-guard.ts, of the third handler of session.ts and of the first of guard.ts (the three lists are the same). *)
Definition broad_tier : list regex := [
  (* /\bhealth\b/ *) cat [RWordB; RStr (js "health"); RWordB];
  (* /\bmedical\b/ *) cat [RWordB; RStr (js "medical"); RWordB];
  (* /\bmedicine\b/ *) cat [RWordB; RStr (js "medicine"); RWordB];
  (* /\bmedication\b/ *) cat [RWordB; RStr (js "medication"); RWordB];
  (* /\bdrug(s)?\b/ *) cat [RWordB; RStr (js "drug"); ROpt (RStr (js "s")); RWordB];
  (* /\bpharmacy\b/ *) cat [RWordB; RStr (js "pharmacy"); RWordB];
  (* /\bpharmac(y|ist)\b/ *) cat [RWordB; RStr (js "pharmac"); RAlt (RStr (js "y")) (RStr (js "ist")); RWordB];
  (* /\bprescription(s)?\b/ *) cat [RWordB; RStr (js "prescription"); ROpt (RStr (js "s")); RWordB];
  (* /\bprescribe(d|s)?\b/ *) cat [RWordB; RStr (js "prescribe"); ROpt (RAlt (RStr (js "d")) (RStr (js "s"))); RWordB];
  (* /\bdiagnos(e|is|ed|ing)\b/ *) cat [RWordB; RStr (js "diagnos"); RAlt (RStr (js "e")) (RAlt (RStr (js "is")) (RAlt (RStr (js "ed")) (RStr (js "ing")))); RWordB];
  (* /\bsymptom(s)?\b/ *) cat [RWordB; RStr (js "symptom"); ROpt (RStr (js "s")); RWordB];
  (* /\btreatment(s)?\b/ *) cat [RWordB; RStr (js "treatment"); ROpt (RStr (js "s")); RWordB];
  (* /\btherapy\b/ *) cat [RWordB; RStr (js "therapy"); RWordB];
  (* /\bside effect(s)?\b/ *) cat [RWordB; RStr (js "side effect"); ROpt (RStr (js "s")); RWordB];
  (* /\bcontraindication(s)?\b/ *) cat [RWordB; RStr (js "contraindication"); ROpt (RStr (js "s")); RWordB];
  (* /\ballergy|allergic\b/ *) RAlt (cat [RWordB; RStr (js "allergy")]) (cat [RStr (js "allergic"); RWordB]);
  (* /\binfection(s)?\b/ *) cat [RWordB; RStr (js "infection"); ROpt (RStr (js "s")); RWordB];
  (* /\bfever\b/ *) cat [RWordB; RStr (js "fever"); RWordB];
  (* /\bheadache\b/ *) cat [RWordB; RStr (js "headache"); RWordB];
  (* /\bpain\b/ *) cat [RWordB; RStr (js "pain"); RWordB];
  (* /\bchest pain\b/ *) cat [RWordB; RStr (js "chest pain"); RWordB];
  (* /\bblood pressure\b/ *) cat [RWordB; RStr (js "blood pressure"); RWordB];
  (* /\bhypertension\b/ *) cat [RWordB; RStr (js "hypertension"); RWordB];
  (* /\bhypotension\b/ *) cat [RWordB; RStr (js "hypotension"); RWordB];
  (* /\bheart rate\b/ *) cat [RWordB; RStr (js "heart rate"); RWordB];
  (* /\bpulse\b/ *) cat [RWordB; RStr (js "pulse"); RWordB];
  (* /\bglucose\b/ *) cat [RWordB; RStr (js "glucose"); RWordB];
  (* /\bdiabet(es|ic)\b/ *) cat [RWordB; RStr (js "diabet"); RAlt (RStr (js "es")) (RStr (js "ic")); RWordB];
  (* /\binsulin\b/ *) cat [RWordB; RStr (js "insulin"); RWordB];
  (* /\bcholesterol\b/ *) cat [RWordB; RStr (js "cholesterol"); RWordB];
  (* /\bcondition(s)?\b/ *) cat [RWordB; RStr (js "condition"); ROpt (RStr (js "s")); RWordB];
  (* /\bmental health\b/ *) cat [RWordB; RStr (js "mental health"); RWordB];
  (* /\bdepression\b/ *) cat [RWordB; RStr (js "depression"); RWordB];
  (* /\banxiety\b/ *) cat [RWordB; RStr (js "anxiety"); RWordB];
  (* /\btherapist\b/ *) cat [RWordB; RStr (js "therapist"); RWordB];
  (* /\bcounseling\b/ *) cat [RWordB; RStr (js "counseling"); RWordB];
  (* /\bdoctor\b/ *) cat [RWordB; RStr (js "doctor"); RWordB];
  (* /\bphysician\b/ *) cat [RWordB; RStr (js "physician"); RWordB];
  (* /\bclinic\b/ *) cat [RWordB; RStr (js "clinic"); RWordB];
  (* /\bhospital\b/ *) cat [RWordB; RStr (js "hospital"); RWordB];
  (* /\bambulance\b/ *) cat [RWordB; RStr (js "ambulance"); RWordB];
  (* /\ber\b/ *) cat [RWordB; RStr (js "er"); RWordB];
  (* /\bemergency\b/ *) cat [RWordB; RStr (js "emergency"); RWordB];
  (* /\bdiet\b/ *) cat [RWordB; RStr (js "diet"); RWordB];
  (* /\bcalories?\b/ *) cat [RWordB; RStr (js "calorie"); ROpt (RStr (js "s")); RWordB];
  (* /\bcaloric\b/ *) cat [RWordB; RStr (js "caloric"); RWordB];
  (* /\bmacro(s)?\b/ *) cat [RWordB; RStr (js "macro"); ROpt (RStr (js "s")); RWordB];
  (* /\bnutrition\b/ *) cat [RWordB; RStr (js "nutrition"); RWordB];
  (* /\bmeal(s)?\b/ *) cat [RWordB; RStr (js "meal"); ROpt (RStr (js "s")); RWordB];
  (* /\bmeal plan\b/ *) cat [RWordB; RStr (js "meal plan"); RWordB];
  (* /\bmeal planning\b/ *) cat [RWordB; RStr (js "meal planning"); RWordB];
  (* /\bprotein\b/ *) cat [RWordB; RStr (js "protein"); RWordB];
  (* /\bcarb(s)?\b/ *) cat [RWordB; RStr (js "carb"); ROpt (RStr (js "s")); RWordB];
  (* /\bfat\b/ *) cat [RWordB; RStr (js "fat"); RWordB];
  (* /\bweight loss\b/ *) cat [RWordB; RStr (js "weight loss"); RWordB];
  (* /\blose weight\b/ *) cat [RWordB; RStr (js "lose weight"); RWordB];
  (* /\bgain muscle\b/ *) cat [RWordB; RStr (js "gain muscle"); RWordB];
  (* /\bbmi\b/ *) cat [RWordB; RStr (js "bmi"); RWordB];
  (* /\bbody fat\b/ *) cat [RWordB; RStr (js "body fat"); RWordB];
  (* /\bkcal\b/ *) cat [RWordB; RStr (js "kcal"); RWordB];
  (* /\bkilocalorie(s)?\b/ *) cat [RWordB; RStr (js "kilocalorie"); ROpt (RStr (js "s")); RWordB];
  (* /\bmetabolism\b/ *) cat [RWordB; RStr (js "metabolism"); RWordB];
  (* /\bmetabolic\b/ *) cat [RWordB; RStr (js "metabolic"); RWordB];
  (* /\bbulking\b/ *) cat [RWordB; RStr (js "bulking"); RWordB];
  (* /\bcutting\b/ *) cat [RWordB; RStr (js "cutting"); RWordB];
  (* /\bintermittent fasting\b/ *) cat [RWordB; RStr (js "intermittent fasting"); RWordB];
  (* /\bfasting\b/ *) cat [RWordB; RStr (js "fasting"); RWordB];
  (* /\bsupplement(s)?\b/ *) cat [RWordB; RStr (js "supplement"); ROpt (RStr (js "s")); RWordB];
  (* /\bprotein powder\b/ *) cat [RWordB; RStr (js "protein powder"); RWordB];
  (* /\bcreatine\b/ *) cat [RWordB; RStr (js "creatine"); RWordB];
  (* /\bpre[-\s]?workout\b/ *) cat [RWordB; RStr (js "pre"); ROpt (RClass [CChar 45; CSpace]); RStr (js "workout"); RWordB];
  (* /\bpost[-\s]?workout\b/ *) cat [RWordB; RStr (js "post"); ROpt (RClass [CChar 45; CSpace]); RStr (js "workout"); RWordB];
  (* /\bvitamin(s)?\b/ *) cat [RWordB; RStr (js "vitamin"); ROpt (RStr (js "s")); RWordB];
  (* /\bmineral(s)?\b/ *) cat [RWordB; RStr (js "mineral"); ROpt (RStr (js "s")); RWordB];
  (* /\bomega[-\s]?3\b/ *) cat [RWordB; RStr (js "omega"); ROpt (RClass [CChar 45; CSpace]); RStr (js "3"); RWordB];
  (* /\bprobiotic(s)?\b/ *) cat [RWordB; RStr (js "probiotic"); ROpt (RStr (js "s")); RWordB];
  (* /\bdeficiency\b/ *) cat [RWordB; RStr (js "deficiency"); RWordB];
  (* /\bdeficient\b/ *) cat [RWordB; RStr (js "deficient"); RWordB];
  (* /диет/ *) RStr (js "диет");
  (* /диета/ *) RStr (js "диета");
  (* /калор/ *) RStr (js "калор");
  (* /калори/ *) RStr (js "калори");
  (* /макрос/ *) RStr (js "макрос");
  (* /питан/ *) RStr (js "питан");
  (* /план питания/ *) RStr (js "план питания");
  (* /белок/ *) RStr (js "белок");
  (* /углевод/ *) RStr (js "углевод");
  (* /жир/ *) RStr (js "жир");
  (* /похуд/ *) RStr (js "похуд");
  (* /похудеть/ *) RStr (js "похудеть");
  (* /снижен(ие|ия) веса/ *) cat [RStr (js "снижен"); RAlt (RStr (js "ие")) (RStr (js "ия")); RStr (js " веса")];
  (* /сбросить вес/ *) RStr (js "сбросить вес");
  (* /набрать масс/ *) RStr (js "набрать масс");
  (* /набор масс/ *) RStr (js "набор масс");
  (* /имт/ *) RStr (js "имт");
  (* /индекс массы тела/ *) RStr (js "индекс массы тела");
  (* /ккал/ *) RStr (js "ккал");
  (* /килокал/ *) RStr (js "килокал");
  (* /калори(я|и)/ *) cat [RStr (js "калори"); RAlt (RStr (js "я")) (RStr (js "и"))];
  (* /метабол/ *) RStr (js "метабол");
  (* /добавк/ *) RStr (js "добавк");
  (* /витамин/ *) RStr (js "витамин");
  (* /минерал/ *) RStr (js "минерал");
  (* /лекарств/ *) RStr (js "лекарств");
  (* /медицин/ *) RStr (js "медицин");
  (* /медикамент/ *) RStr (js "медикамент");
  (* /симптом/ *) RStr (js "симптом");
  (* /диагноз/ *) RStr (js "диагноз");
  (* /лечение/ *) RStr (js "лечение");
  (* /терапи/ *) RStr (js "терапи");
  (* /побочн/ *) RStr (js "побочн");
  (* /противопоказ/ *) RStr (js "противопоказ");
  (* /давление/ *) RStr (js "давление");
  (* /температур/ *) RStr (js "температур");
  (* /жар/ *) RStr (js "жар");
  (* /боль/ *) RStr (js "боль");
  (* /грудн/ *) RStr (js "грудн");
  (* /сердц/ *) RStr (js "сердц");
  (* /пульс/ *) RStr (js "пульс");
  (* /инсулин/ *) RStr (js "инсулин");
  (* /диабет/ *) RStr (js "диабет");
  (* /холестерин/ *) RStr (js "холестерин");
  (* /врач/ *) RStr (js "врач");
  (* /клиник/ *) RStr (js "клиник");
  (* /больниц/ *) RStr (js "больниц");
  (* /скорая/ *) RStr (js "скорая");
  (* /экстренн/ *) RStr (js "экстренн")
].

(** [blockedHealthPatterns] of part_003, part_004 and of the second and third handlers of guard.ts (the same list). *)
Definition narrow_tier : list regex := [
  (* /\bdiet\b/ *) cat [RWordB; RStr (js "diet"); RWordB];
  (* /\bcalories?\b/ *) cat [RWordB; RStr (js "calorie"); ROpt (RStr (js "s")); RWordB];
  (* /\bcaloric\b/ *) cat [RWordB; RStr (js "caloric"); RWordB];
  (* /\bmacro(s)?\b/ *) cat [RWordB; RStr (js "macro"); ROpt (RStr (js "s")); RWordB];
  (* /\bnutrition\b/ *) cat [RWordB; RStr (js "nutrition"); RWordB];
  (* /\bmeal plan\b/ *) cat [RWordB; RStr (js "meal plan"); RWordB];
  (* /\bprotein\b/ *) cat [RWordB; RStr (js "protein"); RWordB];
  (* /\bcarb(s)?\b/ *) cat [RWordB; RStr (js "carb"); ROpt (RStr (js "s")); RWordB];
  (* /\bfat\b/ *) cat [RWordB; RStr (js "fat"); RWordB];
  (* /\bweight loss\b/ *) cat [RWordB; RStr (js "weight loss"); RWordB];
  (* /\blose weight\b/ *) cat [RWordB; RStr (js "lose weight"); RWordB];
  (* /\bgain muscle\b/ *) cat [RWordB; RStr (js "gain muscle"); RWordB];
  (* /\bbmi\b/ *) cat [RWordB; RStr (js "bmi"); RWordB];
  (* /\bbody fat\b/ *) cat [RWordB; RStr (js "body fat"); RWordB];
  (* /\bkcal\b/ *) cat [RWordB; RStr (js "kcal"); RWordB];
  (* /\bsupplement(s)?\b/ *) cat [RWordB; RStr (js "supplement"); ROpt (RStr (js "s")); RWordB];
  (* /\bvitamin(s)?\b/ *) cat [RWordB; RStr (js "vitamin"); ROpt (RStr (js "s")); RWordB];
  (* /диет/ *) RStr (js "диет");
  (* /калор/ *) RStr (js "калор");
  (* /макрос/ *) RStr (js "макрос");
  (* /питан/ *) RStr (js "питан");
  (* /план питания/ *) RStr (js "план питания");
  (* /белок/ *) RStr (js "белок");
  (* /углевод/ *) RStr (js "углевод");
  (* /жир/ *) RStr (js "жир");
  (* /похуд/ *) RStr (js "похуд");
  (* /сбросить вес/ *) RStr (js "сбросить вес");
  (* /набрать масс/ *) RStr (js "набрать масс");
  (* /имт/ *) RStr (js "имт");
  (* /индекс массы тела/ *) RStr (js "индекс массы тела");
  (* /ккал/ *) RStr (js "ккал");
  (* /добавк/ *) RStr (js "добавк");
  (* /витамин/ *) RStr (js "витамин")
].

(** [blockedHealthPatterns] of the Voice-Chat handler (part_000). *)
Definition voice_tier : list regex := [
  (* /\bhealth\b/ *) cat [RWordB; RStr (js "health"); RWordB];
  (* /\bmedical\b/ *) cat [RWordB; RStr (js "medical"); RWordB];
  (* /\bmedicine\b/ *) cat [RWordB; RStr (js "medicine"); RWordB];
  (* /\bmedication\b/ *) cat [RWordB; RStr (js "medication"); RWordB];
  (* /\bdrug(s)?\b/ *) cat [RWordB; RStr (js "drug"); ROpt (RStr (js "s")); RWordB];
  (* /\bpharmacy\b/ *) cat [RWordB; RStr (js "pharmacy"); RWordB];
  (* /\bpharmac(y|ist)\b/ *) cat [RWordB; RStr (js "pharmac"); RAlt (RStr (js "y")) (RStr (js "ist")); RWordB];
  (* /\bprescription(s)?\b/ *) cat [RWordB; RStr (js "prescription"); ROpt (RStr (js "s")); RWordB];
  (* /\bprescribe(d|s)?\b/ *) cat [RWordB; RStr (js "prescribe"); ROpt (RAlt (RStr (js "d")) (RStr (js "s"))); RWordB];
  (* /\bdiagnos(e|is|ed|ing)\b/ *) cat [RWordB; RStr (js "diagnos"); RAlt (RStr (js "e")) (RAlt (RStr (js "is")) (RAlt (RStr (js "ed")) (RStr (js "ing")))); RWordB];
  (* /\bsymptom(s)?\b/ *) cat [RWordB; RStr (js "symptom"); ROpt (RStr (js "s")); RWordB];
  (* /\btreatment(s)?\b/ *) cat [RWordB; RStr (js "treatment"); ROpt (RStr (js "s")); RWordB];
  (* /\btherapy\b/ *) cat [RWordB; RStr (js "therapy"); RWordB];
  (* /\bside effect(s)?\b/ *) cat [RWordB; RStr (js "side effect"); ROpt (RStr (js "s")); RWordB];
  (* /\bcontraindication(s)?\b/ *) cat [RWordB; RStr (js "contraindication"); ROpt (RStr (js "s")); RWordB];
  (* /\ballergy|allergic\b/ *) RAlt (cat [RWordB; RStr (js "allergy")]) (cat [RStr (js "allergic"); RWordB]);
  (* /\binfection(s)?\b/ *) cat [RWordB; RStr (js "infection"); ROpt (RStr (js "s")); RWordB];
  (* /\bfever\b/ *) cat [RWordB; RStr (js "fever"); RWordB];
  (* /\bdizziness\b/ *) cat [RWordB; RStr (js "dizziness"); RWordB];
  (* /\bnausea\b/ *) cat [RWordB; RStr (js "nausea"); RWordB];
  (* /\bfatigue\b/ *) cat [RWordB; RStr (js "fatigue"); RWordB];
  (* /\bstress\b/ *) cat [RWordB; RStr (js "stress"); RWordB];
  (* /\bheadache\b/ *) cat [RWordB; RStr (js "headache"); RWordB];
  (* /\bpain\b/ *) cat [RWordB; RStr (js "pain"); RWordB];
  (* /\bback pain\b/ *) cat [RWordB; RStr (js "back pain"); RWordB];
  (* /\bchest pain\b/ *) cat [RWordB; RStr (js "chest pain"); RWordB];
  (* /\bblood pressure\b/ *) cat [RWordB; RStr (js "blood pressure"); RWordB];
  (* /\bhypertension\b/ *) cat [RWordB; RStr (js "hypertension"); RWordB];
  (* /\bhypotension\b/ *) cat [RWordB; RStr (js "hypotension"); RWordB];
  (* /\bheart rate\b/ *) cat [RWordB; RStr (js "heart rate"); RWordB];
  (* /\bpulse\b/ *) cat [RWordB; RStr (js "pulse"); RWordB];
  (* /\bglucose\b/ *) cat [RWordB; RStr (js "glucose"); RWordB];
  (* /\bdiabet(es|ic)\b/ *) cat [RWordB; RStr (js "diabet"); RAlt (RStr (js "es")) (RStr (js "ic")); RWordB];
  (* /\binsulin\b/ *) cat [RWordB; RStr (js "insulin"); RWordB];
  (* /\bcholesterol\b/ *) cat [RWordB; RStr (js "cholesterol"); RWordB];
  (* /\bcondition(s)?\b/ *) cat [RWordB; RStr (js "condition"); ROpt (RStr (js "s")); RWordB];
  (* /\bmental health\b/ *) cat [RWordB; RStr (js "mental health"); RWordB];
  (* /\bdepression\b/ *) cat [RWordB; RStr (js "depression"); RWordB];
  (* /\banxiety\b/ *) cat [RWordB; RStr (js "anxiety"); RWordB];
  (* /\btherapist\b/ *) cat [RWordB; RStr (js "therapist"); RWordB];
  (* /\bcounseling\b/ *) cat [RWordB; RStr (js "counseling"); RWordB];
  (* /\bdoctor\b/ *) cat [RWordB; RStr (js "doctor"); RWordB];
  (* /\bphysician\b/ *) cat [RWordB; RStr (js "physician"); RWordB];
  (* /\bclinic\b/ *) cat [RWordB; RStr (js "clinic"); RWordB];
  (* /\bhospital\b/ *) cat [RWordB; RStr (js "hospital"); RWordB];
  (* /\bambulance\b/ *) cat [RWordB; RStr (js "ambulance"); RWordB];
  (* /\ber\b/ *) cat [RWordB; RStr (js "er"); RWordB];
  (* /\bemergency\b/ *) cat [RWordB; RStr (js "emergency"); RWordB];
  (* /\bdiet\b/ *) cat [RWordB; RStr (js "diet"); RWordB];
  (* /\bcalories?\b/ *) cat [RWordB; RStr (js "calorie"); ROpt (RStr (js "s")); RWordB];
  (* /\bcaloric\b/ *) cat [RWordB; RStr (js "caloric"); RWordB];
  (* /\bmacro(s)?\b/ *) cat [RWordB; RStr (js "macro"); ROpt (RStr (js "s")); RWordB];
  (* /\bnutrition\b/ *) cat [RWordB; RStr (js "nutrition"); RWordB];
  (* /\bmeal(s)?\b/ *) cat [RWordB; RStr (js "meal"); ROpt (RStr (js "s")); RWordB];
  (* /\bmeal plan\b/ *) cat [RWordB; RStr (js "meal plan"); RWordB];
  (* /\bmeal planning\b/ *) cat [RWordB; RStr (js "meal planning"); RWordB];
  (* /\bprotein\b/ *) cat [RWordB; RStr (js "protein"); RWordB];
  (* /\bcarb(s)?\b/ *) cat [RWordB; RStr (js "carb"); ROpt (RStr (js "s")); RWordB];
  (* /\bfat\b/ *) cat [RWordB; RStr (js "fat"); RWordB];
  (* /\bweight loss\b/ *) cat [RWordB; RStr (js "weight loss"); RWordB];
  (* /\blose weight\b/ *) cat [RWordB; RStr (js "lose weight"); RWordB];
  (* /\bgain muscle\b/ *) cat [RWordB; RStr (js "gain muscle"); RWordB];
  (* /\bbmi\b/ *) cat [RWordB; RStr (js "bmi"); RWordB];
  (* /\bbody fat\b/ *) cat [RWordB; RStr (js "body fat"); RWordB];
  (* /\bkcal\b/ *) cat [RWordB; RStr (js "kcal"); RWordB];
  (* /\bkilocalorie(s)?\b/ *) cat [RWordB; RStr (js "kilocalorie"); ROpt (RStr (js "s")); RWordB];
  (* /\bmetabolism\b/ *) cat [RWordB; RStr (js "metabolism"); RWordB];
  (* /\bmetabolic\b/ *) cat [RWordB; RStr (js "metabolic"); RWordB];
  (* /\bbulking\b/ *) cat [RWordB; RStr (js "bulking"); RWordB];
  (* /\bcutting\b/ *) cat [RWordB; RStr (js "cutting"); RWordB];
  (* /\bintermittent fasting\b/ *) cat [RWordB; RStr (js "intermittent fasting"); RWordB];
  (* /\bfasting\b/ *) cat [RWordB; RStr (js "fasting"); RWordB];
  (* /\bsupplement(s)?\b/ *) cat [RWordB; RStr (js "supplement"); ROpt (RStr (js "s")); RWordB];
  (* /\bprotein powder\b/ *) cat [RWordB; RStr (js "protein powder"); RWordB];
  (* /\bcreatine\b/ *) cat [RWordB; RStr (js "creatine"); RWordB];
  (* /\bpre[-\s]?workout\b/ *) cat [RWordB; RStr (js "pre"); ROpt (RClass [CChar 45; CSpace]); RStr (js "workout"); RWordB];
  (* /\bpost[-\s]?workout\b/ *) cat [RWordB; RStr (js "post"); ROpt (RClass [CChar 45; CSpace]); RStr (js "workout"); RWordB];
  (* /\bvitamin(s)?\b/ *) cat [RWordB; RStr (js "vitamin"); ROpt (RStr (js "s")); RWordB];
  (* /\bmineral(s)?\b/ *) cat [RWordB; RStr (js "mineral"); ROpt (RStr (js "s")); RWordB];
  (* /\bomega[-\s]?3\b/ *) cat [RWordB; RStr (js "omega"); ROpt (RClass [CChar 45; CSpace]); RStr (js "3"); RWordB];
  (* /\bprobiotic(s)?\b/ *) cat [RWordB; RStr (js "probiotic"); ROpt (RStr (js "s")); RWordB];
  (* /\bdeficiency\b/ *) cat [RWordB; RStr (js "deficiency"); RWordB];
  (* /\bdeficient\b/ *) cat [RWordB; RStr (js "deficient"); RWordB];
  (* /\bexercise\b/ *) cat [RWordB; RStr (js "exercise"); RWordB];
  (* /\bworkout\b/ *) cat [RWordB; RStr (js "workout"); RWordB];
  (* /\bstretch(ing)?\b/ *) cat [RWordB; RStr (js "stretch"); ROpt (RStr (js "ing")); RWordB];
  (* /\bposture\b/ *) cat [RWordB; RStr (js "posture"); RWordB];
  (* /\brecovery\b/ *) cat [RWordB; RStr (js "recovery"); RWordB];
  (* /\bsleep\b/ *) cat [RWordB; RStr (js "sleep"); RWordB];
  (* /\bhydration\b/ *) cat [RWordB; RStr (js "hydration"); RWordB];
  (* /\bwellness\b/ *) cat [RWordB; RStr (js "wellness"); RWordB];
  (* /диет/ *) RStr (js "диет");
  (* /диета/ *) RStr (js "диета");
  (* /калор/ *) RStr (js "калор");
  (* /калори/ *) RStr (js "калори");
  (* /макрос/ *) RStr (js "макрос");
  (* /питан/ *) RStr (js "питан");
  (* /план питания/ *) RStr (js "план питания");
  (* /белок/ *) RStr (js "белок");
  (* /углевод/ *) RStr (js "углевод");
  (* /жир/ *) RStr (js "жир");
  (* /похуд/ *) RStr (js "похуд");
  (* /похудеть/ *) RStr (js "похудеть");
  (* /снижен(ие|ия) веса/ *) cat [RStr (js "снижен"); RAlt (RStr (js "ие")) (RStr (js "ия")); RStr (js " веса")];
  (* /сбросить вес/ *) RStr (js "сбросить вес");
  (* /набрать масс/ *) RStr (js "набрать масс");
  (* /набор масс/ *) RStr (js "набор масс");
  (* /имт/ *) RStr (js "имт");
  (* /индекс массы тела/ *) RStr (js "индекс массы тела");
  (* /ккал/ *) RStr (js "ккал");
  (* /килокал/ *) RStr (js "килокал");
  (* /калори(я|и)/ *) cat [RStr (js "калори"); RAlt (RStr (js "я")) (RStr (js "и"))];
  (* /метабол/ *) RStr (js "метабол");
  (* /добавк/ *) RStr (js "добавк");
  (* /витамин/ *) RStr (js "витамин");
  (* /минерал/ *) RStr (js "минерал");
  (* /лекарств/ *) RStr (js "лекарств");
  (* /медицин/ *) RStr (js "медицин");
  (* /медикамент/ *) RStr (js "медикамент");
  (* /симптом/ *) RStr (js "симптом");
  (* /диагноз/ *) RStr (js "диагноз");
  (* /лечение/ *) RStr (js "лечение");
  (* /терапи/ *) RStr (js "терапи");
  (* /побочн/ *) RStr (js "побочн");
  (* /противопоказ/ *) RStr (js "противопоказ");
  (* /давление/ *) RStr (js "давление");
  (* /температур/ *) RStr (js "температур");
  (* /головокруж/ *) RStr (js "головокруж");
  (* /тошнот/ *) RStr (js "тошнот");
  (* /усталост/ *) RStr (js "усталост");
  (* /стресс/ *) RStr (js "стресс");
  (* /жар/ *) RStr (js "жар");
  (* /боль/ *) RStr (js "боль");
  (* /спин/ *) RStr (js "спин");
  (* /грудн/ *) RStr (js "грудн");
  (* /сердц/ *) RStr (js "сердц");
  (* /пульс/ *) RStr (js "пульс");
  (* /инсулин/ *) RStr (js "инсулин");
  (* /диабет/ *) RStr (js "диабет");
  (* /холестерин/ *) RStr (js "холестерин");
  (* /врач/ *) RStr (js "врач");
  (* /клиник/ *) RStr (js "клиник");
  (* /больниц/ *) RStr (js "больниц");
  (* /скорая/ *) RStr (js "скорая");
  (* /экстренн/ *) RStr (js "экстренн");
  (* /сон/ *) RStr (js "сон");
  (* /гидратац/ *) RStr (js "гидратац");
  (* /вода/ *) RStr (js "вода");
  (* /упражнен/ *) RStr (js "упражнен");
  (* /растяж/ *) RStr (js "растяж");
  (* /поза/ *) RStr (js "поза");
  (* /восстановлен/ *) RStr (js "восстановлен");
  (* /фитнес/ *) RStr (js "фитнес")
].

(** Syntactic equality of patterns, to compare the lists. *)
Definition cls_eqb (a b : cls) : bool :=
  match a, b with
  | CChar c, CChar d => c =? d
  | CSpace, CSpace => true
  | _, _ => false
  end.

Fixpoint regex_eqb (a b : regex) : bool :=
  match a, b with
  | REps, REps => true
  | RStr w, RStr w' => jsstr_eqb w w'
  | RClass l, RClass l' =>
    (length l =? length l')%nat && forallb (fun p => cls_eqb (fst p) (snd p)) (combine l l')
  | RWordB, RWordB => true
  | RCat a1 a2, RCat b1 b2 => regex_eqb a1 b1 && regex_eqb a2 b2
  | RAlt a1 a2, RAlt b1 b2 => regex_eqb a1 b1 && regex_eqb a2 b2
  | ROpt a1, ROpt b1 => regex_eqb a1 b1
  | _, _ => false
  end.

(** Every pattern of [l1] occurs in [l2]. *)
Definition patterns_incl (l1 l2 : list regex) : bool :=
  forallb (fun p => existsb (regex_eqb p) l2) l1.

(** The question of the spec's scenario. *)
Definition headache_question : jsstr := js "What medication should I take for a headache?".

(** ** Handlers *)

(** A call to a collaborator, with the parts of its request the model
    keeps (the [Authorization] header, the system prompt and the constant
    fields are left out).  [CSessionBasic] is the request
    [{ model, voice: 'alloy', modalities: ['audio'] }] to
    /v1/realtime/sessions; [COffer] posts an SDP offer to /v1/realtime,
    with the value of the [model] query parameter when there is one and
    the value given as the body. *)
Inductive call : Type :=
| CTranscribe (audio : list Z) (mimeType model : jsval)
| CRealtime (model : jsval) (input_audio_transcription : bool)
| CChat (model : jsval) (transcript : jsstr)
| CSpeech (model voice : jsval) (input : jsstr)
| CSessionBasic (model : jsval)
| COffer (model : option jsval) (sdp : jsval).

(** What [fetch] gives: a response with its status and body bytes, or a
    rejection with the message of its error (an aborted request, after the
    timeout of 15 s, rejects with "This operation was aborted"). *)
Inductive fetch_result : Type :=
| FResponse (status : Z) (bytes : list Z)
| FError (message : jsstr).

(** The outside world: the clock in milliseconds, the collaborators, and the
    message of the [SyntaxError] that [JSON.parse] raises on a text. *)
Record world : Type := {
  now_ms : Z;
  respond : call -> fetch_result;
  json_error : jsstr -> jsstr }.

Record env : Type := {
  OPENAI_API_KEY : option jsstr;
  GUARD_TOKEN_SECRET : option jsstr;
  REALTIME_MODEL : option jsstr;
  CHAT_MODEL : option jsstr;
  TTS_MODEL : option jsstr;
  TTS_VOICE : option jsstr }.

(** A response: its status and body; headers are left out. *)
Record response : Type := { statusCode : Z; resp_body : jsstr }.

(** Handlers run in a monad of exceptions (carrying the error's message)
    over the trace of collaborator calls, oldest first. *)
Definition M (A : Type) : Type := list call -> (jsstr + A) * list call.

Definition ret {A} (a : A) : M A := fun tr => (inr a, tr).

Definition bind {A B} (m : M A) (f : A -> M B) : M B :=
  fun tr => match m tr with
            | (inl e, tr') => (inl e, tr')
            | (inr a, tr') => f a tr'
            end.

Notation "x <- m ;; k" := (bind m (fun x => k)) (at level 61, m at next level, right associativity).

Definition throw {A} (message : jsstr) : M A := fun tr => (inl message, tr).

Definition try_catch {A} (m : M A) (h : jsstr -> M A) : M A :=
  fun tr => match m tr with
            | (inl e, tr') => h e tr'
            | r => r
            end.

(** A [TypeError]; its message never contains "aborted". *)
Definition type_error : jsstr := js "TypeError".

Definition lift {A} (o : option A) : M A :=
  match o with Some a => ret a | None => throw type_error end.

Definition fetch (w : world) (c : call) : M (Z * list Z) :=
  fun tr => match respond w c with
            | FResponse status bytes => (inr (status, bytes), tr ++ [c])
            | FError message => (inl message, tr ++ [c])
            end.

(** [response.ok]. *)
Definition response_ok (status : Z) : bool := (200 <=? status) && (status <=? 299).

(** [JSON.parse(text)], as [response.json()] and [request.json()] do it. *)
Definition parse_json (w : world) (text : jsstr) : M json :=
  match JSON_parse text with Some v => ret v | None => throw (json_error w text) end.

(** [parseBody(body)]: undefined for a missing or empty body. *)
Definition parseBody (w : world) (body : option jsstr) : M jsval :=
  match body with
  | None | Some [] => ret None
  | Some s => v <- parse_json w s ;; ret (Some v)
  end.

(** [v.k] on a value that may throw. *)
Definition get_prop (v : jsval) (k : jsstr) : M jsval :=
  match v with Some x => lift (js_get x k) | None => throw type_error end.

(** [v.trim()]. *)
Definition trim_value (v : jsval) : M jsstr :=
  match v with Some (JStr s) => ret (js_trim s) | _ => throw type_error end.

(** [Buffer.from(v, 'base64')]; a value that is not a string is taken to
    throw (Node accepts arrays and array-like objects, which the model does
    not cover). *)
Definition buffer_from (v : jsval) : M (list Z) :=
  match v with Some (JStr s) => ret (buffer_from_base64 s) | _ => throw type_error end.

(** [data.text?.trim() || '']. *)
Definition transcript_of_data (data : json) : M jsstr :=
  t <- lift (js_get data (js "text")) ;;
  match t with
  | None | Some JNull => ret []
  | Some (JStr s) => ret (js_trim s)
  | Some _ => throw type_error
  end.

(** An object literal: [JSON.stringify] leaves out undefined properties. *)
Definition js_object (l : list (jsstr * jsval)) : json :=
  JObj (flat_map (fun kv => match snd kv with Some v => [(fst kv, v)] | None => [] end) l).

(** [s.includes(sub)]. *)
Fixpoint js_includes (s sub : jsstr) : bool :=
  starts_with sub s || match s with [] => false | _ :: r => js_includes r sub end.

(** The string of a configured variable, when it is set and not empty. *)
Definition nonempty (o : option jsstr) : option jsstr :=
  match o with Some (c :: s) => Some (c :: s) | _ => None end.

Definition resp (status : Z) (body : jsstr) : response := {| statusCode := status; resp_body := body |}.

Definition error_body (message : jsstr) : jsstr := JSON_stringify (JObj [(js "error", JStr message)]).

(** The [catch] around the upstream requests. *)
Definition upstream_failure (message : jsstr) : response :=
  resp (if js_includes message (js "aborted") then 504 else 502)
    (JSON_stringify (JObj [(js "error", JStr (js "Upstream request failed"));
                           (js "details", JStr message)])).

(** A Netlify event. *)
Record event : Type := { httpMethod : jsstr; event_body : option jsstr }.

Definition content_violation_body : jsstr :=
  JSON_stringify (JObj [(js "error", JStr (js "Health-related requests are not supported."));
                        (js "blocked", JBool true)]).

Definition guard_failed_body : jsstr :=
  JSON_stringify (JObj [(js "error", JStr (js "Guard verification failed."));
                        (js "blocked", JBool true)]).

Section Handlers.

Variable hmac_sha256 : jsstr -> jsstr -> list Byte.byte.

Definition method_not_allowed : response := resp 405 (error_body (js "Method Not Allowed")).

(** The [handler] of session.ts (third module), with [pats] its
    [blockedHealthPatterns].  The same handler in part_003 is
    [session_handler] with the narrow list and without the
    [input_audio_transcription] field ([transcription = false]). *)
Definition session_handler (pats : list regex) (transcription : bool)
    (w : world) (en : env) (ev : event) : M response :=
  if jsstr_eqb (httpMethod ev) (js "OPTIONS") then ret (resp 200 [])
  else if negb (jsstr_eqb (httpMethod ev) (js "POST")) then ret method_not_allowed
  else
  match nonempty (OPENAI_API_KEY en) with
  | None => ret (resp 500 (error_body (js "OPENAI_API_KEY is missing")))
  | Some apiKey =>
  match nonempty (GUARD_TOKEN_SECRET en) with
  | None => ret (resp 500 (error_body (js "GUARD_TOKEN_SECRET is missing")))
  | Some guardSecret =>
  parsed <- parseBody w (event_body ev) ;;
  let payload := js_or parsed (Some (JObj [])) in
  user_text <- get_prop payload (js "user_text") ;;
  text <- get_prop payload (js "text") ;;
  prompt <- get_prop payload (js "prompt") ;;
  query <- get_prop payload (js "query") ;;
  transcript <- get_prop payload (js "transcript") ;;
  let userText := nullish_or (nullish_or (nullish_or (nullish_or user_text text) prompt) query)
                    transcript in
  blocked <- (if truthy userText then
                match userText with
                | Some (JStr s) => ret (isBlockedHealthRequest pats s)
                | _ => throw type_error
                end
              else ret false) ;;
  if blocked then ret (resp 403 content_violation_body)
  else
  guard_token <- get_prop payload (js "guard_token") ;;
  valid <- (if negb (truthy guard_token) then ret false
            else match guard_token with
                 | Some (JStr token) =>
                   ret (isValidGuardToken hmac_sha256 token guardSecret (now_ms w / 1000))
                 | _ => throw type_error
                 end) ;;
  if negb valid then ret (resp 403 guard_failed_body)
  else
  model_field <- get_prop payload (js "model") ;;
  let model := js_or (js_or model_field (option_map JStr (REALTIME_MODEL en)))
                 (Some (JStr (js "gpt-4o-realtime-preview"))) in
  try_catch
    (res <- fetch w (CRealtime model transcription) ;;
     let '(status, bytes) := res in
     if negb (response_ok status) then ret (resp status (utf8_decode bytes))
     else
     data <- parse_json w (utf8_decode bytes) ;;
     client_secret <- lift (js_get data (js "client_secret")) ;;
     expires_at <- lift (js_get data (js "expires_at")) ;;
     ret (resp 200 (JSON_stringify (js_object [(js "client_secret", js_get_opt client_secret (js "value"));
                                              (js "expires_at", expires_at)]))))
    (fun message => ret (upstream_failure message))
  end
  end.

(** The end of the guard handlers: the verdict on the transcript, then a
    token that expires two minutes later. *)
Definition guard_finish (pats : list regex) (w : world) (guardSecret transcript : jsstr) : M response :=
  let blocked := match transcript with [] => false | _ => isBlockedHealthRequest pats transcript end in
  if blocked then
    ret (resp 403 (JSON_stringify (JObj [(js "error", JStr (js "Health-related requests are not supported."));
                                         (js "blocked", JBool true);
                                         (js "transcript", JStr transcript)])))
  else
    let expiresAt := now_ms w / 1000 + 120 in
    let token := signGuardToken hmac_sha256 guardSecret expiresAt in
    ret (resp 200 (JSON_stringify (JObj [(js "allowed", JBool true);
                                         (js "transcript", JStr transcript);
                                         (js "guard_token", JStr token);
                                         (js "expires_at", JNum expiresAt 0)]))).

(** The [handler] of realtime-guard.ts; part_004 has the same handler with
    the narrow list.
    The [TypeError] that [new Blob] or [form.append] throw before the
    transcription request when the MIME type or the model is an object
    whose [toString] is not callable is not modelled: the call is recorded
    for every MIME type and model. *)
Definition guard_handler (pats : list regex) (w : world) (en : env) (ev : event) : M response :=
  if jsstr_eqb (httpMethod ev) (js "OPTIONS") then ret (resp 200 [])
  else if negb (jsstr_eqb (httpMethod ev) (js "POST")) then ret method_not_allowed
  else
  match nonempty (OPENAI_API_KEY en) with
  | None => ret (resp 500 (error_body (js "OPENAI_API_KEY is missing")))
  | Some apiKey =>
  match nonempty (GUARD_TOKEN_SECRET en) with
  | None => ret (resp 500 (error_body (js "GUARD_TOKEN_SECRET is missing")))
  | Some guardSecret =>
  parsed <- try_catch (p <- parseBody w (event_body ev) ;; ret (inr p))
                      (fun message => ret (inl message)) ;;
  match parsed with
  | inl message =>
    ret (resp 400 (JSON_stringify (JObj [(js "error", JStr (js "Invalid JSON body"));
                                         (js "details", JStr message)])))
  | inr parsed =>
  let payload := js_or parsed (Some (JObj [])) in
  transcript_field <- get_prop payload (js "transcript") ;;
  text_field <- get_prop payload (js "text") ;;
  textFallback <- trim_value (nullish_or (nullish_or transcript_field text_field) (Some (JStr []))) ;;
  mime_field <- get_prop payload (js "mime_type") ;;
  model_field <- get_prop payload (js "model") ;;
  let mimeType := js_or mime_field (Some (JStr (js "audio/wav"))) in
  let model := js_or model_field (Some (JStr (js "whisper-1"))) in
  try_catch
    (audio_field <- get_prop payload (js "audio_base64") ;;
     if truthy audio_field then
       audio <- buffer_from audio_field ;;
       res <- fetch w (CTranscribe audio mimeType model) ;;
       let '(status, bytes) := res in
       if negb (response_ok status) then ret (resp status (utf8_decode bytes))
       else
       data <- parse_json w (utf8_decode bytes) ;;
       transcript <- transcript_of_data data ;;
       guard_finish pats w guardSecret transcript
     else guard_finish pats w guardSecret textFallback)
    (fun message => ret (upstream_failure message))
  end
  end
  end.

(** The first [handler] of guard.ts (an edge function); [request] is the
    body text of the request, if there is one.  A body that is not JSON
    leaves the payload undefined, and nothing catches the errors of the
    transcription request.
    The [TypeError] that [new Blob] or [form.append] throw before the
    transcription request when the MIME type or the model is an object
    whose [toString] is not callable is not modelled: the call is recorded
    for every MIME type and model. *)
Definition edge_guard_handler (pats : list regex) (w : world) (en : env) (request : option jsstr)
  : M response :=
  match nonempty (OPENAI_API_KEY en) with
  | None => ret (resp 500 (error_body (js "OPENAI_API_KEY is missing")))
  | Some apiKey =>
  match nonempty (GUARD_TOKEN_SECRET en) with
  | None => ret (resp 500 (error_body (js "GUARD_TOKEN_SECRET is missing")))
  | Some guardSecret =>
  let payload := match request with Some t => JSON_parse t | None => None end in
  textFallback <- trim_value (nullish_or (nullish_or (js_get_opt payload (js "transcript"))
                                                      (js_get_opt payload (js "text")))
                                         (Some (JStr []))) ;;
  let mimeType := js_or (js_get_opt payload (js "mime_type")) (Some (JStr (js "audio/wav"))) in
  let model := js_or (js_get_opt payload (js "model")) (Some (JStr (js "whisper-1"))) in
  let audio_field := js_get_opt payload (js "audio_base64") in
  if truthy audio_field then
    audio <- buffer_from audio_field ;;
    res <- fetch w (CTranscribe audio mimeType model) ;;
    let '(status, bytes) := res in
    if negb (response_ok status) then ret (resp status (utf8_decode bytes))
    else
    data <- parse_json w (utf8_decode bytes) ;;
    transcript <- transcript_of_data data ;;
    guard_finish pats w guardSecret transcript
  else guard_finish pats w guardSecret textFallback
  end
  end.

End Handlers.

(** [choices?.[0]]. *)
Definition js_index0 (v : jsval) : jsval :=
  match v with
  | Some (JArr (x :: _)) => Some x
  | Some (JObj l) => assoc_last (js "0") l
  | Some (JStr (c :: _)) => Some (JStr [c])
  | _ => None
  end.

(** [chatData.choices?.[0]?.message?.content?.trim() ?? 'Sorry, I cannot respond right now.']. *)
Definition reply_of (chatData : json) : M jsstr :=
  choices <- lift (js_get chatData (js "choices")) ;;
  let content := js_get_opt (js_get_opt (js_index0 choices) (js "message")) (js "content") in
  match content with
  | None | Some JNull => ret (js "Sorry, I cannot respond right now.")
  | Some (JStr s) => ret (js_trim s)
  | Some _ => throw type_error
  end.

Definition refusalText : jsstr :=
  js "I can't help with that. Please consult a qualified healthcare professional.".

(** The [handler] of the Voice-Chat endpoint (part_000).
    The [TypeError] that [new Blob] throws before the transcription request
    when the MIME type is an object whose [toString] is not callable is not
    modelled: the call is recorded for every MIME type. *)
Definition voice_chat_handler (pats : list regex) (w : world) (en : env) (request : option jsstr)
  : M response :=
  match nonempty (OPENAI_API_KEY en) with
  | None => ret (resp 500 (error_body (js "OPENAI_API_KEY is missing")))
  | Some apiKey =>
  let parsed := match request with
                | Some t => match JSON_parse t with Some v => inr v | None => inl (json_error w t) end
                | None => inr (JObj [])
                end in
  match parsed with
  | inl message =>
    ret (resp 400 (JSON_stringify (JObj [(js "error", JStr (js "Invalid JSON body"));
                                         (js "details", JStr message)])))
  | inr payload =>
  audio_field <- lift (js_get payload (js "audio_base64")) ;;
  if negb (truthy audio_field) then ret (resp 400 (error_body (js "audio_base64 is required")))
  else
  mime_field <- lift (js_get payload (js "mime_type")) ;;
  let mimeType := js_or mime_field (Some (JStr (js "audio/m4a"))) in
  audio <- buffer_from audio_field ;;
  res <- fetch w (CTranscribe audio mimeType (Some (JStr (js "whisper-1")))) ;;
  let '(status, bytes) := res in
  if negb (response_ok status) then ret (resp status (utf8_decode bytes))
  else
  data <- parse_json w (utf8_decode bytes) ;;
  transcript <- transcript_of_data data ;;
  match transcript with
  | [] => ret (resp 400 (error_body (js "Empty transcript")))
  | _ =>
  if isBlockedHealthRequest pats transcript then
    ret (resp 200 (JSON_stringify (JObj [(js "response", JStr refusalText);
                                         (js "blocked", JBool true);
                                         (js "transcript", JStr transcript)])))
  else
  model_field <- lift (js_get payload (js "model")) ;;
  let chatModel := Some (JStr (match CHAT_MODEL en with Some m => m | None => js "gpt-4o-mini" end)) in
  chat <- fetch w (CChat (js_or model_field chatModel) transcript) ;;
  let '(chat_status, chat_bytes) := chat in
  if negb (response_ok chat_status) then ret (resp chat_status (utf8_decode chat_bytes))
  else
  chatData <- parse_json w (utf8_decode chat_bytes) ;;
  reply <- reply_of chatData ;;
  voice_field <- lift (js_get payload (js "voice")) ;;
  let ttsModel := Some (JStr (match TTS_MODEL en with Some m => m | None => js "tts-1" end)) in
  let defaultVoice := Some (JStr (match TTS_VOICE en with Some v => v | None => js "alloy" end)) in
  tts <- fetch w (CSpeech ttsModel (js_or voice_field defaultVoice) reply) ;;
  let '(tts_status, audioBytes) := tts in
  if negb (response_ok tts_status) then ret (resp tts_status (utf8_decode audioBytes))
  else
  ret (resp 200 (JSON_stringify (JObj [(js "response", JStr reply);
                                       (js "audio_base64", JStr (base64_encode audioBytes));
                                       (js "mime_type", JStr (js "audio/mpeg"));
                                       (js "blocked", JBool false);
                                       (js "transcript", JStr transcript)])))
  end
  end
  end.

(** The text the session handler re-checks:
    [payload.user_text ?? payload.text ?? payload.prompt ?? payload.query ?? payload.transcript]. *)
Definition session_user_text (payload : jsval) : jsval :=
  nullish_or (nullish_or (nullish_or (nullish_or (js_get_opt payload (js "user_text"))
                                                 (js_get_opt payload (js "text")))
                                     (js_get_opt payload (js "prompt")))
                         (js_get_opt payload (js "query")))
             (js_get_opt payload (js "transcript")).

(** [parseBody(event.body) || {}] for a body that parses to [v]. *)
Definition session_payload (v : json) : jsval := js_or (Some v) (Some (JObj [])).

(** ** The other handlers *)

(** [request.json()] on an edge [Request]: its body text, empty when there
    is none, parsed as JSON.  On a [Request], [readJsonBody] (offer.ts,
    guard.ts) takes its first branch and is [request.json()] too. *)
Definition body_text (ev : event) : jsstr :=
  match event_body ev with Some t => t | None => [] end.

Definition request_json (w : world) (ev : event) : M json := parse_json w (body_text ev).

Definition key_missing : response := resp 500 (error_body (js "OPENAI_API_KEY is missing")).

Definition invalid_json (message : jsstr) : response :=
  resp 400 (JSON_stringify (JObj [(js "error", JStr (js "Invalid JSON body"));
                                  (js "details", JStr message)])).

Definition sdp_required : response := resp 400 (error_body (js "SDP is required")).

(** The success response of the offer handlers: [{ sdp: answerSdp }]. *)
Definition offer_answer (bytes : list Z) : response :=
  resp 200 (JSON_stringify (JObj [(js "sdp", JStr (utf8_decode bytes))])).

(** [{ client_secret: data.client_secret?.value, expires_at: data.expires_at }]
    for the parsed answer [data] of the sessions service. *)
Definition session_reply (data : json) : M response :=
  client_secret <- lift (js_get data (js "client_secret")) ;;
  expires_at <- lift (js_get data (js "expires_at")) ;;
  ret (resp 200 (JSON_stringify (js_object [(js "client_secret", js_get_opt client_secret (js "value"));
                                            (js "expires_at", expires_at)]))).

(** [body.model || envModel || 'gpt-4o-realtime-preview'] (part_005, and
    [payload.model || ...] in the second handler of session.ts). *)
Definition realtime_model (en : env) (model_field : jsval) : jsval :=
  js_or (js_or model_field (option_map JStr (REALTIME_MODEL en)))
    (Some (JStr (js "gpt-4o-realtime-preview"))).

(** The first [handler] of offer.ts (an edge function): there is no method
    check, and nothing catches the errors of [request.json()] or of the
    request. *)
Definition offer_handler_v1 (w : world) (en : env) (ev : event) : M response :=
  match nonempty (OPENAI_API_KEY en) with
  | None => ret key_missing
  | Some apiKey =>
  body <- request_json w ev ;;
  let sdp := js_get_opt (Some body) (js "sdp") in
  if negb (truthy sdp) then ret sdp_required
  else
  res <- fetch w (COffer None sdp) ;;
  let '(status, bytes) := res in
  if negb (response_ok status) then ret (resp status (utf8_decode bytes))
  else ret (offer_answer bytes)
  end.

(** The second [handler] of offer.ts and the [handler] of part_001 (edge
    functions). *)
Definition offer_handler (w : world) (en : env) (ev : event) : M response :=
  if negb (jsstr_eqb (httpMethod ev) (js "POST")) then ret method_not_allowed
  else
  match nonempty (OPENAI_API_KEY en) with
  | None => ret key_missing
  | Some apiKey =>
  parsed <- try_catch (b <- request_json w ev ;; ret (inr b)) (fun message => ret (inl message)) ;;
  match parsed with
  | inl message => ret (invalid_json message)
  | inr body =>
  let sdp := js_get_opt (Some body) (js "sdp") in
  if negb (truthy sdp) then ret sdp_required
  else
  try_catch
    (res <- fetch w (COffer None sdp) ;;
     let '(status, bytes) := res in
     if negb (response_ok status) then ret (resp status (utf8_decode bytes))
     else ret (offer_answer bytes))
    (fun message => ret (upstream_failure message))
  end
  end.

Definition is_high_surrogate (c : Z) : bool := (0xD800 <=? c) && (c <=? 0xDBFF).
Definition is_low_surrogate (c : Z) : bool := (0xDC00 <=? c) && (c <=? 0xDFFF).

(** A string without lone surrogates. *)
Fixpoint well_formed (s : jsstr) : bool :=
  match s with
  | [] => true
  | c :: r =>
    if is_high_surrogate c then
      match r with d :: r' => is_low_surrogate d && well_formed r' | [] => false end
    else if is_low_surrogate c then false
    else well_formed r
  end.

(** [encodeURIComponent(v)] throws a [URIError] when [String(v)] has a lone
    surrogate.  [String] of an array joins the strings of its elements with
    commas, of a number or a boolean gives digits and letters, and of an
    object "[object Object]" unless the object has its own non-callable
    [toString]; the [TypeError] that [String] throws then is not modelled
    (such an object is read as well formed). *)
Fixpoint uri_malformed (v : json) : bool :=
  match v with
  | JStr s => negb (well_formed s)
  | JArr l => existsb uri_malformed l
  | _ => false
  end.

(** The [handler] of part_005 (a Netlify function). *)
Definition netlify_offer_handler (w : world) (en : env) (ev : event) : M response :=
  if jsstr_eqb (httpMethod ev) (js "OPTIONS") then ret (resp 200 [])
  else if negb (jsstr_eqb (httpMethod ev) (js "POST")) then ret method_not_allowed
  else
  match nonempty (OPENAI_API_KEY en) with
  | None => ret key_missing
  | Some apiKey =>
  parsed <- try_catch
              (match event_body ev with
               | None | Some [] => throw (js "Body is empty")
               | Some s => b <- parse_json w s ;; ret (inr b)
               end)
              (fun message => ret (inl message)) ;;
  match parsed with
  | inl message => ret (invalid_json message)
  | inr body =>
  let sdp := js_get_opt (Some body) (js "sdp") in
  if negb (truthy sdp) then ret sdp_required
  else
  model_field <- get_prop (Some body) (js "model") ;;
  let model := realtime_model en model_field in
  try_catch
    (if match model with Some v => uri_malformed v | None => false end
     then throw (js "URI malformed")
     else
     res <- fetch w (COffer (Some model) sdp) ;;
     let '(status, bytes) := res in
     if negb (response_ok status) then ret (resp status (utf8_decode bytes))
     else ret (offer_answer bytes))
    (fun message => ret (upstream_failure message))
  end
  end.

(** The first [handler] of session.ts (an edge function): only the request
    itself is in the [try], whose [catch] answers 502 whatever the error. *)
Definition edge_session_handler_v1 (w : world) (en : env) : M response :=
  match nonempty (OPENAI_API_KEY en) with
  | None => ret key_missing
  | Some apiKey =>
  r <- try_catch (res <- fetch w (CSessionBasic (Some (JStr (js "gpt-4o-realtime-preview")))) ;;
                  ret (inr res))
                 (fun message => ret (inl message)) ;;
  match r with
  | inl message =>
    ret (resp 502 (JSON_stringify (JObj [(js "error", JStr (js "Upstream request failed"));
                                         (js "details", JStr message)])))
  | inr (status, bytes) =>
    if negb (response_ok status) then ret (resp status (utf8_decode bytes))
    else data <- parse_json w (utf8_decode bytes) ;; session_reply data
  end
  end.

(** The [handler] of part_002 (an edge function, without [try]). *)
Definition edge_session_handler_v2 (w : world) (en : env) : M response :=
  match nonempty (OPENAI_API_KEY en) with
  | None => ret key_missing
  | Some apiKey =>
  res <- fetch w (CSessionBasic (Some (JStr (js "gpt-4o-realtime-preview")))) ;;
  let '(status, bytes) := res in
  if negb (response_ok status) then ret (resp status (utf8_decode bytes))
  else data <- parse_json w (utf8_decode bytes) ;; session_reply data
  end.

(** The fourth [handler] of guard.ts (an edge function): the body is read
    before the key is looked at. *)
Definition edge_session_handler (w : world) (en : env) (ev : event) : M response :=
  if negb (jsstr_eqb (httpMethod ev) (js "POST")) then ret method_not_allowed
  else
  body <- request_json w ev ;;
  let payload := js_or (Some body) (Some (JObj [])) in
  match nonempty (OPENAI_API_KEY en) with
  | None => ret key_missing
  | Some apiKey =>
  try_catch
    (res <- fetch w (CSessionBasic (js_or (js_get_opt payload (js "model"))
                                          (Some (JStr (js "gpt-4o-realtime-preview"))))) ;;
     let '(status, bytes) := res in
     if negb (response_ok status) then ret (resp status (utf8_decode bytes))
     else data <- parse_json w (utf8_decode bytes) ;; session_reply data)
    (fun message => ret (upstream_failure message))
  end.

(** The second [handler] of session.ts (a Netlify function): a realtime
    session for any request, without classification or guard token. *)
Definition plain_session_handler (w : world) (en : env) (ev : event) : M response :=
  if jsstr_eqb (httpMethod ev) (js "OPTIONS") then ret (resp 200 [])
  else if negb (jsstr_eqb (httpMethod ev) (js "POST")) then ret method_not_allowed
  else
  match nonempty (OPENAI_API_KEY en) with
  | None => ret key_missing
  | Some apiKey =>
  parsed <- parseBody w (event_body ev) ;;
  let payload := js_or parsed (Some (JObj [])) in
  model_field <- get_prop payload (js "model") ;;
  let model := realtime_model en model_field in
  try_catch
    (res <- fetch w (CRealtime model false) ;;
     let '(status, bytes) := res in
     if negb (response_ok status) then ret (resp status (utf8_decode bytes))
     else data <- parse_json w (utf8_decode bytes) ;; session_reply data)
    (fun message => ret (upstream_failure message))
  end.

(** The third [handler] of guard.ts (an edge function): it transcribes and
    classifies, and mints no token.
    The [TypeError] that [new Blob] or [form.append] throw before the
    transcription request when the MIME type or the model is an object
    whose [toString] is not callable is not modelled: the call is recorded
    for every MIME type and model. *)
Definition edge_transcribe_check_handler (pats : list regex) (w : world) (en : env)
    (request : option jsstr) : M response :=
  match nonempty (OPENAI_API_KEY en) with
  | None => ret key_missing
  | Some apiKey =>
  let payload := match request with Some t => JSON_parse t | None => None end in
  let audio_field := js_get_opt payload (js "audio_base64") in
  if negb (truthy audio_field) then ret (resp 400 (error_body (js "audio_base64 is required")))
  else
  let mimeType := js_or (js_get_opt payload (js "mime_type")) (Some (JStr (js "audio/wav"))) in
  let model := js_or (js_get_opt payload (js "model")) (Some (JStr (js "whisper-1"))) in
  audio <- buffer_from audio_field ;;
  res <- fetch w (CTranscribe audio mimeType model) ;;
  let '(status, bytes) := res in
  if negb (response_ok status) then ret (resp status (utf8_decode bytes))
  else
  data <- parse_json w (utf8_decode bytes) ;;
  transcript <- transcript_of_data data ;;
  let blocked := match transcript with [] => false | _ => isBlockedHealthRequest pats transcript end in
  if blocked then
    ret (resp 403 (JSON_stringify (JObj [(js "error", JStr (js "Health-related requests are not supported."));
                                         (js "blocked", JBool true);
                                         (js "transcript", JStr transcript)])))
  else ret (resp 200 (JSON_stringify (JObj [(js "allowed", JBool true); (js "transcript", JStr transcript)])))
  end.

(** A sample world and configuration to run the handlers: the transcription
    service hears nothing, the other services answer with small JSON
    objects. *)
Definition sample_world : world := {|
  now_ms := 1700000000123;
  respond := fun c =>
    match c with
    | CTranscribe _ _ _ => FResponse 200 (utf8_encode (JSON_stringify (JObj [(js "text", JStr [])])))
    | CRealtime _ _ =>
      FResponse 200 (utf8_encode (JSON_stringify
        (JObj [(js "client_secret", JObj [(js "value", JStr (js "ek_1"))]);
               (js "expires_at", JNum 1700000060 0)])))
    | CChat _ _ =>
      FResponse 200 (utf8_encode (JSON_stringify
        (JObj [(js "choices", JArr [JObj [(js "message", JObj [(js "content", JStr (js "Hello"))])]])])))
    | CSpeech _ _ _ => FResponse 200 [1; 2; 3]
    | CSessionBasic _ =>
      FResponse 200 (utf8_encode (JSON_stringify
        (JObj [(js "client_secret", JObj [(js "value", JStr (js "ek_2"))]);
               (js "expires_at", JNum 1700000060 0)])))
    | COffer _ _ => FResponse 201 (utf8_encode (js "v=0"))
    end;
  json_error := fun _ => js "Unexpected token" |}.

Definition sample_env : env := {|
  OPENAI_API_KEY := Some (js "sk-test");
  GUARD_TOKEN_SECRET := Some (js "s3cret");
  REALTIME_MODEL := None;
  CHAT_MODEL := None;
  TTS_MODEL := None;
  TTS_VOICE := None |}.

(** A POST event whose body is the JSON text of an object. *)
Definition post_event (fields : list (jsstr * json)) : event :=
  {| httpMethod := js "POST"; event_body := Some (JSON_stringify (JObj fields)) |}.

(** ** Auxiliary definitions used in the proofs *)

Definition is_byte (z : Z) : Prop := 0 <= z < 256.

(** Sextet indices produced by [base64_encode], before [b64_char]. *)
Fixpoint b64_core (bs : list Z) : list Z :=
  match bs with
  | a :: b :: c :: r =>
    Z.shiftr a 2 :: Z.lor (Z.shiftl (Z.land a 3) 4) (Z.shiftr b 4)
      :: Z.lor (Z.shiftl (Z.land b 15) 2) (Z.shiftr c 6) :: Z.land c 63 :: b64_core r
  | [a; b] =>
    [Z.shiftr a 2; Z.lor (Z.shiftl (Z.land a 3) 4) (Z.shiftr b 4); Z.shiftl (Z.land b 15) 2]
  | [a] => [Z.shiftr a 2; Z.shiftl (Z.land a 3) 4]
  | [] => []
  end.

Fixpoint b64_pad (bs : list Z) : nat :=
  match bs with
  | _ :: _ :: _ :: r => b64_pad r
  | [_; _] => 1
  | [_] => 2
  | [] => 0
  end.

Definition b64url_char (n : Z) : Z :=
  let c := b64_char n in if c =? 43 then 45 else if c =? 47 then 95 else c.

Definition zrange (n : nat) : list Z := List.map Z.of_nat (seq 0 n).

(** Facts about one or two bytes [x], [y] checked exhaustively. *)
Definition byte_pair_facts (x y : Z) : bool :=
  let s1 := Z.lor (Z.shiftl (Z.land x 3) 4) (Z.shiftr y 4) in
  let s2 := Z.lor (Z.shiftl (Z.land x 15) 2) (Z.shiftr y 6) in
  (Z.lor (Z.shiftl (Z.shiftr x 2) 2) (Z.shiftr s1 4) =? x)
  && (Z.land s1 15 =? Z.shiftr y 4)
  && (0 <=? s1) && (s1 <? 64)
  && (Z.land s2 3 =? Z.shiftr y 6)
  && (Z.shiftr s2 2 =? Z.land x 15)
  && (0 <=? s2) && (s2 <? 64).

Definition byte_facts (x : Z) : bool :=
  (Z.lor (Z.shiftl (Z.shiftr x 4) 4) (Z.land x 15) =? x)
  && (Z.lor (Z.shiftl (Z.shiftr x 6) 6) (Z.land x 63) =? x)
  && (Z.shiftr (Z.shiftl (Z.land x 15) 2) 2 =? Z.land x 15)
  && (Z.lor (Z.shiftl (Z.shiftr x 2) 2) (Z.shiftr (Z.shiftl (Z.land x 3) 4) 4) =? x)
  && (0 <=? Z.shiftr x 2) && (Z.shiftr x 2 <? 64)
  && (0 <=? Z.land x 63) && (Z.land x 63 <? 64)
  && (0 <=? Z.shiftl (Z.land x 15) 2) && (Z.shiftl (Z.land x 15) 2 <? 64)
  && (0 <=? Z.shiftl (Z.land x 3) 4) && (Z.shiftl (Z.land x 3) 4 <? 64).

Definition sextet_facts (n : Z) : bool :=
  negb (b64_char n =? 61) && negb (b64url_char n =? 61)
  && negb (b64url_char n =? 46)
  && (match unbase64 (b64_char n) with Some m => m =? n | None => false end)
  && jsstr_eqb (replace_char 95 47 (replace_char 45 43 [b64url_char n])) [b64_char n].

Definition is_ascii (z : Z) : Prop := 0 <= z < 128.

(** The JSON text of [guard_claim e] around the digits of [e]. *)
Definition claim_prefix : jsstr := [123; 34; 101; 120; 112; 34; 58].
Definition claim_suffix : jsstr :=
  [44; 34; 97; 108; 108; 111; 119; 101; 100; 34; 58; 116; 114; 117; 101; 125].

(** A character that ends a number literal. *)
Definition number_end (c : Z) : bool :=
  negb (is_digit c) && negb (c =? 46) && negb (c =? 101) && negb (c =? 69).

(** A sample keyed digest, used to run the token codec on concrete inputs:
    a prefix code of the key, a separator, then the low bytes of the data. *)
Definition sample_block (z : Z) : list Byte.byte :=
  repeat Byte.x01 (Z.to_nat (Z.abs z)) ++ [if z <? 0 then Byte.x02 else Byte.x00].

(** The low byte of a code unit. *)
Definition low_byte (z : Z) : Byte.byte :=
  match Byte.of_N (Z.to_N (z mod 256)) with Some b => b | None => Byte.x00 end.

Definition sample_hmac (key data : jsstr) : list Byte.byte :=
  concat (List.map sample_block key) ++ [Byte.xff] ++ List.map low_byte data.

(** A computation that records no call. *)
Definition nocall {A} (m : M A) : Prop := forall tr, snd (m tr) = tr.

(** [m] adds to the trace only calls satisfying [P]. *)
Definition calls_ok {A} (P : call -> Prop) (m : M A) : Prop :=
  forall tr, exists tr', snd (m tr) = tr ++ tr' /\ Forall P tr'.

(** A UTF-16 code unit. *)
Definition code_unit (c : Z) : Prop := 0 <= c < 0x10000.

(* ===== Proofs ===== *)

(** ** Strings, bytes and base64 *)

Lemma jsstr_eqb_eq (a b : jsstr) : jsstr_eqb a b = true <-> a = b.
Proof.
  revert b; induction a as [|x a IH]; intros [|y b]; simpl; try (split; congruence).
  rewrite andb_true_iff, Z.eqb_eq, IH. split; [intros [-> ->]; reflexivity|].
  intros H; injection H; auto.
Qed.

Lemma jsstr_eqb_refl (a : jsstr) : jsstr_eqb a a = true.
Proof. apply jsstr_eqb_eq; reflexivity. Qed.

Lemma forallb_zrange (f : Z -> bool) (n : nat) :
  forallb f (zrange n) = true -> forall z, 0 <= z < Z.of_nat n -> f z = true.
Proof.
  unfold zrange; rewrite forallb_forall; intros H z Hz.
  apply H, in_map_iff. exists (Z.to_nat z). split; [lia|].
  apply in_seq; lia.
Qed.

Lemma byte_pair_facts_all :
  forallb (fun x => forallb (byte_pair_facts x) (zrange 256)) (zrange 256) = true.
Proof. vm_compute. reflexivity. Qed.

Lemma byte_facts_all : forallb byte_facts (zrange 256) = true.
Proof. vm_compute. reflexivity. Qed.

Lemma sextet_facts_all : forallb sextet_facts (zrange 64) = true.
Proof. vm_compute. reflexivity. Qed.

Lemma pair_facts (x y : Z) : is_byte x -> is_byte y -> byte_pair_facts x y = true.
Proof.
  intros Hx Hy.
  pose proof (forallb_zrange _ 256 byte_pair_facts_all x Hx) as H.
  exact (forallb_zrange _ 256 H y Hy).
Qed.

Lemma single_facts (x : Z) : is_byte x -> byte_facts x = true.
Proof. intros Hx. apply (forallb_zrange _ 256 byte_facts_all); exact Hx. Qed.

Lemma sext_facts (n : Z) : 0 <= n < 64 -> sextet_facts n = true.
Proof. intros Hn. apply (forallb_zrange _ 64 sextet_facts_all); exact Hn. Qed.

Ltac bool_facts H :=
  repeat rewrite andb_true_iff in H;
  repeat match type of H with
         | _ /\ _ => let H1 := fresh "F" in destruct H as [H1 H]; bool_facts H1
         end;
  repeat match goal with
         | F : (_ =? _) = true |- _ => apply Z.eqb_eq in F
         | F : (_ <? _) = true |- _ => apply Z.ltb_lt in F
         | F : (_ <=? _) = true |- _ => apply Z.leb_le in F
         | F : negb _ = true |- _ => apply negb_true_iff in F
         end.

Lemma list_ind3 (P : list Z -> Prop) :
  P [] -> (forall a, P [a]) -> (forall a b, P [a; b]) ->
  (forall a b c r, P r -> P (a :: b :: c :: r)) -> forall l, P l.
Proof.
  intros H0 H1 H2 H3.
  fix IH 1. intros [|a [|b [|c r]]]; [exact H0|exact (H1 a)|exact (H2 a b)|].
  apply H3, IH.
Qed.

Lemma base64_encode_shape (bs : list Z) :
  base64_encode bs = List.map b64_char (b64_core bs) ++ repeat 61 (b64_pad bs).
Proof.
  induction bs using list_ind3; simpl; try reflexivity.
  rewrite IHbs. reflexivity.
Qed.

Lemma b64_core_range (bs : list Z) :
  Forall is_byte bs -> Forall (fun n => 0 <= n < 64) (b64_core bs).
Proof.
  induction bs as [| | |a b c r IH] using list_ind3; intros H; cbn [b64_core].
  - constructor.
  - inversion H; subst. pose proof (single_facts a ltac:(assumption)) as F.
    unfold byte_facts in F; bool_facts F.
    repeat (apply Forall_cons; [lia|]); apply Forall_nil.
  - inversion H as [|? ? Ha H']; inversion H' as [|? ? Hb _]; subst.
    pose proof (single_facts a Ha) as F; pose proof (single_facts b Hb) as G;
    pose proof (pair_facts a b Ha Hb) as K.
    unfold byte_facts, byte_pair_facts in *; bool_facts F; bool_facts G; bool_facts K.
    repeat constructor; lia.
  - inversion H as [|? ? Ha Q1]; inversion Q1 as [|? ? Hb Q2];
      inversion Q2 as [|? ? Hc Q3]; subst.
    pose proof (single_facts a Ha) as F; pose proof (single_facts c Hc) as G;
    pose proof (pair_facts a b Ha Hb) as K; pose proof (pair_facts b c Hb Hc) as M.
    unfold byte_facts, byte_pair_facts in *; bool_facts F; bool_facts G; bool_facts K;
      bool_facts M.
    repeat (apply Forall_cons; [lia|]); apply IH; assumption.
Qed.

Lemma pair_facts_P (x y : Z) : is_byte x -> is_byte y ->
  let s1 := Z.lor (Z.shiftl (Z.land x 3) 4) (Z.shiftr y 4) in
  let s2 := Z.lor (Z.shiftl (Z.land x 15) 2) (Z.shiftr y 6) in
  Z.lor (Z.shiftl (Z.shiftr x 2) 2) (Z.shiftr s1 4) = x
  /\ Z.land s1 15 = Z.shiftr y 4 /\ 0 <= s1 < 64
  /\ Z.land s2 3 = Z.shiftr y 6 /\ Z.shiftr s2 2 = Z.land x 15 /\ 0 <= s2 < 64.
Proof.
  intros Hx Hy. pose proof (pair_facts x y Hx Hy) as F. unfold byte_pair_facts in F.
  bool_facts F. cbv zeta. repeat split; assumption.
Qed.

Lemma single_facts_P (x : Z) : is_byte x ->
  Z.lor (Z.shiftl (Z.shiftr x 4) 4) (Z.land x 15) = x
  /\ Z.lor (Z.shiftl (Z.shiftr x 6) 6) (Z.land x 63) = x
  /\ Z.shiftr (Z.shiftl (Z.land x 15) 2) 2 = Z.land x 15
  /\ Z.lor (Z.shiftl (Z.shiftr x 2) 2) (Z.shiftr (Z.shiftl (Z.land x 3) 4) 4) = x.
Proof.
  intros Hx. pose proof (single_facts x Hx) as F. unfold byte_facts in F.
  bool_facts F. repeat split; assumption.
Qed.

Lemma sextets_to_bytes_core (bs : list Z) :
  Forall is_byte bs -> sextets_to_bytes (b64_core bs) = bs.
Proof.
  induction bs as [| a | a b | a b c r IH] using list_ind3; intros H;
    cbn [b64_core sextets_to_bytes].
  - reflexivity.
  - inversion H; subst. destruct (single_facts_P a) as (_ & _ & _ & E); auto.
    rewrite E. reflexivity.
  - inversion H as [|? ? Ha H']; inversion H' as [|? ? Hb _]; subst.
    destruct (pair_facts_P a b Ha Hb) as (K1 & K2 & _).
    destruct (single_facts_P b Hb) as (G1 & _ & G3 & _).
    rewrite K1, K2, G3, G1. reflexivity.
  - inversion H as [|? ? Ha Q1]; inversion Q1 as [|? ? Hb Q2];
      inversion Q2 as [|? ? Hc Q3]; subst.
    destruct (pair_facts_P a b Ha Hb) as (K1 & K2 & _).
    destruct (pair_facts_P b c Hb Hc) as (_ & _ & _ & M4 & M5 & _).
    destruct (single_facts_P b Hb) as (G1 & _ & _ & _).
    destruct (single_facts_P c Hc) as (_ & C2 & _ & _).
    rewrite K1, K2, M5, G1, M4, C2, IH by assumption. reflexivity.
Qed.

Lemma sext_facts_P (n : Z) : 0 <= n < 64 ->
  b64_char n <> 61 /\ b64url_char n <> 61 /\ b64url_char n <> 46
  /\ unbase64 (b64_char n) = Some n
  /\ replace_char 95 47 (replace_char 45 43 [b64url_char n]) = [b64_char n].
Proof.
  intros Hn. pose proof (sext_facts n Hn) as F. unfold sextet_facts in F.
  repeat rewrite andb_true_iff in F. destruct F as ((((F1 & F2) & F3) & F4) & F5).
  apply negb_true_iff, Z.eqb_neq in F1, F2, F3. apply jsstr_eqb_eq in F5.
  repeat split; try assumption.
  destruct (unbase64 (b64_char n)) as [m|]; [apply Z.eqb_eq in F4; congruence|discriminate].
Qed.

Lemma drop_while_repeat (x : Z) (k : nat) (s : jsstr) :
  drop_while (Z.eqb x) (repeat x k ++ s) = drop_while (Z.eqb x) s.
Proof. induction k; simpl; [reflexivity|]. rewrite Z.eqb_refl. exact IHk. Qed.

Lemma strip_trailing_app_repeat (x : Z) (k : nat) (s : jsstr) :
  Forall (fun c => c <> x) s -> strip_trailing x (s ++ repeat x k) = s.
Proof.
  intros H. unfold strip_trailing. rewrite rev_app_distr, rev_repeat, drop_while_repeat.
  apply Forall_rev in H. destruct (rev s) as [|c r] eqn:E; simpl.
  - apply (f_equal (@rev Z)) in E. rewrite rev_involutive in E. subst. reflexivity.
  - inversion H; subst. rewrite (proj2 (Z.eqb_neq x c)) by auto.
    rewrite <- E, rev_involutive. reflexivity.
Qed.

Lemma replace_url_map (core : list Z) :
  replace_char 47 95 (replace_char 43 45 (List.map b64_char core)) = List.map b64url_char core.
Proof.
  unfold replace_char. rewrite !map_map. apply map_ext. intros n. unfold b64url_char.
  destruct (b64_char n =? 43) eqn:E1; [reflexivity|].
  destruct (b64_char n =? 47); reflexivity.
Qed.

Lemma url_safe_encode (bs : list Z) :
  Forall is_byte bs -> url_safe (base64_encode bs) = List.map b64url_char (b64_core bs).
Proof.
  intros H. pose proof (b64_core_range bs H) as R.
  rewrite base64_encode_shape. unfold url_safe.
  assert (Hrep : forall k, replace_char 47 95 (replace_char 43 45 (repeat 61 k)) = repeat 61 k).
  { intros k; induction k; simpl; [reflexivity|]. unfold replace_char in *; simpl.
    f_equal; exact IHk. }
  unfold replace_char at 2. rewrite map_app. fold (replace_char 43 45 (List.map b64_char (b64_core bs))).
  fold (replace_char 43 45 (repeat 61 (b64_pad bs))).
  unfold replace_char at 1. rewrite map_app.
  fold (replace_char 47 95 (replace_char 43 45 (List.map b64_char (b64_core bs)))).
  fold (replace_char 47 95 (replace_char 43 45 (repeat 61 (b64_pad bs)))).
  rewrite Hrep, replace_url_map. apply strip_trailing_app_repeat.
  apply Forall_map. eapply Forall_impl; [|exact R]. intros n Hn. apply sext_facts_P, Hn.
Qed.

Lemma b64_sextets_map (core : list Z) (k : nat) :
  Forall (fun n => 0 <= n < 64) core ->
  b64_sextets (List.map b64_char core ++ repeat 61 k) = core.
Proof.
  induction core as [|n core IH]; intros H; simpl.
  - destruct k; reflexivity.
  - inversion H; subst. destruct (sext_facts_P n) as (F1 & _ & _ & F4 & _); auto.
    rewrite (proj2 (Z.eqb_neq _ _) F1), F4, IH by assumption. reflexivity.
Qed.

Lemma replace_back_map (core : list Z) :
  Forall (fun n => 0 <= n < 64) core ->
  replace_char 95 47 (replace_char 45 43 (List.map b64url_char core)) = List.map b64_char core.
Proof.
  intros H. unfold replace_char. rewrite !map_map. apply map_ext_in. intros n Hin.
  destruct (sext_facts_P n) as (_ & _ & _ & _ & F5).
  { exact (proj1 (Forall_forall _ _) H n Hin). }
  unfold replace_char in F5. simpl in F5. injection F5. auto.
Qed.

Lemma base64UrlDecode_url (core : list Z) :
  Forall (fun n => 0 <= n < 64) core ->
  base64UrlDecode (List.map b64url_char core) = utf8_decode (sextets_to_bytes core).
Proof.
  intros H. unfold base64UrlDecode, buffer_from_base64.
  cbv zeta. rewrite replace_back_map, b64_sextets_map by assumption. reflexivity.
Qed.

(** Decoding inverts the url-safe encoding of any byte buffer. *)
Lemma base64Url_roundtrip (bs : list Z) :
  Forall is_byte bs -> base64UrlDecode (url_safe (base64_encode bs)) = utf8_decode bs.
Proof.
  intros H. rewrite url_safe_encode, base64UrlDecode_url, sextets_to_bytes_core by
    (try apply b64_core_range; assumption). reflexivity.
Qed.

Lemma url_safe_no_dot (bs : list Z) :
  Forall is_byte bs -> ~ In 46 (url_safe (base64_encode bs)).
Proof.
  intros H. rewrite url_safe_encode by assumption. intros Hin.
  apply in_map_iff in Hin as (n & Hn & Hin).
  pose proof (proj1 (Forall_forall _ _) (b64_core_range bs H) n Hin) as R.
  destruct (sext_facts_P n R) as (_ & _ & F & _). contradiction.
Qed.

(** The url-safe encoding is injective on byte buffers. *)
Lemma url_safe_encode_inj (bs1 bs2 : list Z) :
  Forall is_byte bs1 -> Forall is_byte bs2 ->
  url_safe (base64_encode bs1) = url_safe (base64_encode bs2) -> bs1 = bs2.
Proof.
  intros H1 H2 E.
  rewrite url_safe_encode in E by assumption. rewrite url_safe_encode in E by assumption.
  apply (f_equal (fun s => sextets_to_bytes
                          (b64_sextets (replace_char 95 47 (replace_char 45 43 s) ++ [])))) in E.
  rewrite !replace_back_map in E by (apply b64_core_range; assumption).
  rewrite !(b64_sextets_map _ 0) in E by (apply b64_core_range; assumption).
  rewrite !sextets_to_bytes_core in E by assumption. exact E.
Qed.

(** ** The token payload *)


Lemma utf8_encode_ascii (s : jsstr) : Forall is_ascii s -> utf8_encode s = s.
Proof.
  induction 1 as [|c r Hc _ IH]; [reflexivity|].
  unfold is_ascii in Hc. cbn [utf8_encode]. destruct (Z.ltb_spec c 0x80); [|lia].
  rewrite IH. reflexivity.
Qed.

Lemma utf8_decode_ascii (s : jsstr) : Forall is_ascii s -> utf8_decode s = s.
Proof.
  induction 1 as [|c r Hc _ IH]; [reflexivity|].
  unfold is_ascii in Hc. cbn [utf8_decode]. destruct (Z.ltb_spec c 0x80); [|lia].
  rewrite IH. reflexivity.
Qed.

Lemma ascii_is_byte (s : jsstr) : Forall is_ascii s -> Forall is_byte s.
Proof. apply Forall_impl. unfold is_ascii, is_byte. lia. Qed.

Lemma print_uint_digits (u : Decimal.uint) :
  Forall (fun c => is_digit c = true) (print_uint u).
Proof. induction u; simpl; constructor; auto. Qed.

Lemma digits_ascii (s : jsstr) :
  Forall (fun c => is_digit c = true) s -> Forall is_ascii s.
Proof.
  apply Forall_impl. intros c H. unfold is_digit, is_ascii in *.
  apply andb_prop in H as [H1 H2]. apply Z.leb_le in H1, H2. lia.
Qed.

Lemma print_Z_ascii (z : Z) : Forall is_ascii (print_Z z).
Proof.
  unfold print_Z. destruct (z <? 0).
  - constructor; [unfold is_ascii; lia|]. apply digits_ascii, print_uint_digits.
  - apply digits_ascii, print_uint_digits.
Qed.


Lemma stringify_guard_claim (e : Z) :
  JSON_stringify (guard_claim e) = claim_prefix ++ print_Z e ++ claim_suffix.
Proof.
  unfold guard_claim. simpl JSON_stringify. unfold number_to_string. rewrite Z.mul_1_r, <- app_assoc. reflexivity.
Qed.

Lemma stringify_guard_claim_ascii (e : Z) : Forall is_ascii (JSON_stringify (guard_claim e)).
Proof.
  rewrite stringify_guard_claim. apply Forall_app; split.
  - repeat constructor; unfold is_ascii; lia.
  - apply Forall_app; split; [apply print_Z_ascii|]. repeat constructor; unfold is_ascii; lia.
Qed.

Lemma lex_digits_print (u : Decimal.uint) (c : Z) (rest : list Z) :
  is_digit c = false -> lex_digits (print_uint u ++ c :: rest) = (u, c :: rest).
Proof.
  intros Hc. induction u; cbn [print_uint app lex_digits];
    [rewrite Hc; reflexivity | rewrite IHu; reflexivity ..].
Qed.

Lemma unorm_normal (u : Decimal.uint) :
  leading_zero (Decimal.unorm u) = false /\ is_empty_uint (Decimal.unorm u) = false.
Proof. induction u; simpl; auto. Qed.

Lemma to_uint_normal (n : N) :
  leading_zero (N.to_uint n) = false /\ is_empty_uint (N.to_uint n) = false.
Proof.
  rewrite <- (DecimalN.Unsigned.of_to n), DecimalN.Unsigned.to_of. apply unorm_normal.
Qed.

Lemma print_uint_head (u : Decimal.uint) :
  is_empty_uint u = false -> exists d r, print_uint u = d :: r /\ is_digit d = true.
Proof. destruct u; simpl; try discriminate; intros _; eexists _, _; split; reflexivity. Qed.


Lemma parse_number_uint (neg : bool) (u : Decimal.uint) (c : Z) (rest : list Z) :
  leading_zero u = false -> is_empty_uint u = false -> number_end c = true ->
  parse_number ((if neg then [45] else []) ++ print_uint u ++ c :: rest)
  = Some (JNum (if neg then - uint_val u else uint_val u) 0, c :: rest).
Proof.
  intros Hl He Hc. unfold number_end in Hc.
  destruct (is_digit c) eqn:Hd; [discriminate|].
  destruct (Z.eqb_spec c 46); [discriminate|].
  destruct (Z.eqb_spec c 101); [discriminate|].
  destruct (Z.eqb_spec c 69); [discriminate|].
  destruct (print_uint_head u He) as (d & r & Hpr & Hdd).
  unfold parse_number.
  assert (Hneg : match (if neg then [45] else []) ++ print_uint u ++ c :: rest with
                 | c0 :: r0 => if c0 =? 45 then (true, r0) else (false, (if neg then [45] else []) ++ print_uint u ++ c :: rest)
                 | [] => (false, (if neg then [45] else []) ++ print_uint u ++ c :: rest)
                 end = (neg, print_uint u ++ c :: rest)).
  { destruct neg; [reflexivity|]. cbn [app]. rewrite Hpr. cbn [app].
    destruct (Z.eqb_spec d 45); [subst; discriminate|reflexivity]. }
  rewrite Hneg. rewrite lex_digits_print by exact Hd. rewrite Hl, He. cbn [orb].
  destruct (Z.eqb_spec c 46); [contradiction|].
  destruct (Z.eqb_spec c 101); [contradiction|].
  destruct (Z.eqb_spec c 69); [contradiction|].
  cbn [orb Decimal.nb_digits]. change (uint_val Decimal.Nil) with 0.
  rewrite Z.pow_0_r, Z.mul_1_r, Z.add_0_r. reflexivity.
Qed.

Lemma uint_val_to_uint (n : N) : uint_val (N.to_uint n) = Z.of_N n.
Proof. unfold uint_val. rewrite DecimalN.Unsigned.of_to. reflexivity. Qed.

Lemma parse_number_print_Z (e c : Z) (rest : list Z) :
  number_end c = true -> parse_number (print_Z e ++ c :: rest) = Some (JNum e 0, c :: rest).
Proof.
  intros Hc. unfold print_Z. destruct (Z.ltb_spec e 0) as [Hn|Hn].
  - destruct (to_uint_normal (Z.to_N (- e))) as [Hl He].
    pose proof (parse_number_uint true _ c rest Hl He Hc) as P. cbn [app] in P |- *.
    rewrite P, uint_val_to_uint, Z2N.id by lia. do 3 f_equal. lia.
  - destruct (to_uint_normal (Z.to_N e)) as [Hl He].
    pose proof (parse_number_uint false _ c rest Hl He Hc) as P. cbn [app] in P |- *.
    rewrite P, uint_val_to_uint, Z2N.id by lia. reflexivity.
Qed.

Lemma print_Z_head (e : Z) :
  exists d r, print_Z e = d :: r /\ (d = 45 \/ is_digit d = true).
Proof.
  unfold print_Z. destruct (e <? 0).
  - eexists _, _. split; [reflexivity|]. left; reflexivity.
  - destruct (to_uint_normal (Z.to_N e)) as [_ He].
    destruct (print_uint_head _ He) as (d & r & -> & Hd). eexists _, _. split; [reflexivity|]. right; exact Hd.
Qed.

Lemma parse_value_number (f : nat) (e c : Z) (rest : list Z) :
  number_end c = true -> parse_value (S f) (print_Z e ++ c :: rest) = Some (JNum e 0, c :: rest).
Proof.
  intros Hc. rewrite <- (parse_number_print_Z e c rest Hc).
  destruct (print_Z_head e) as (d & r & Hpr & Hd). rewrite Hpr.
  assert (d = 45 \/ d = 48 \/ d = 49 \/ d = 50 \/ d = 51 \/ d = 52 \/ d = 53 \/ d = 54
          \/ d = 55 \/ d = 56 \/ d = 57) as Hd'.
  { destruct Hd as [Hd|Hd]; [left; exact Hd|]. unfold is_digit in Hd.
    apply andb_prop in Hd as [H1 H2]. apply Z.leb_le in H1, H2. lia. }
  repeat destruct Hd' as [-> | Hd']; try (subst d); reflexivity.
Qed.

Arguments parse_number : simpl never.

Lemma parse_guard_claim (e : Z) :
  JSON_parse (claim_prefix ++ print_Z e ++ claim_suffix) = Some (guard_claim e).
Proof.
  assert (H : forall X, parse_number (print_Z e ++ 44 :: X) = Some (JNum e 0, 44 :: X))
    by (intros X; apply parse_number_print_Z; reflexivity).
  destruct (print_Z_head e) as (d & r & Hpr & Hd). rewrite Hpr in H |- *.
  assert (d = 45 \/ d = 48 \/ d = 49 \/ d = 50 \/ d = 51 \/ d = 52 \/ d = 53 \/ d = 54
          \/ d = 55 \/ d = 56 \/ d = 57) as Hd'.
  { destruct Hd as [Hd|Hd]; [left; exact Hd|]. unfold is_digit in Hd.
    apply andb_prop in Hd as [H1 H2]. apply Z.leb_le in H1, H2. lia. }
  unfold JSON_parse, claim_prefix, claim_suffix.
  repeat destruct Hd' as [-> | Hd']; try (subst d);
    cbn [app] in H |- *; simpl; rewrite H; reflexivity.
Qed.

Lemma split_on_single (sep : Z) (q : jsstr) : ~ In sep q -> split_on sep q = [q].
Proof.
  induction q as [|c q IH]; intros Hq; [reflexivity|]. cbn [split_on].
  destruct (Z.eqb_spec c sep) as [->|_]; [exfalso; apply Hq; left; reflexivity|].
  rewrite IH; [reflexivity|]. intros Hin; apply Hq; right; exact Hin.
Qed.

Lemma split_on_prefix (sep : Z) (p rest : jsstr) :
  ~ In sep p -> split_on sep (p ++ sep :: rest) = p :: split_on sep rest.
Proof.
  induction p as [|c p IH]; intros Hp; cbn [split_on app].
  - rewrite Z.eqb_refl. reflexivity.
  - destruct (Z.eqb_spec c sep) as [->|_]; [exfalso; apply Hp; left; reflexivity|].
    rewrite IH; [reflexivity|]. intros Hin; apply Hp; right; exact Hin.
Qed.

Lemma split_on_two (sep : Z) (p q : jsstr) :
  ~ In sep p -> ~ In sep q -> split_on sep (p ++ [sep] ++ q) = [p; q].
Proof. intros Hp Hq. cbn [app]. rewrite split_on_prefix, split_on_single by assumption. reflexivity. Qed.

Lemma byte_values_bytes (l : list Byte.byte) : Forall is_byte (List.map byte_value l).
Proof.
  apply Forall_forall. intros z Hz. apply in_map_iff in Hz as (b & <- & _).
  unfold byte_value, is_byte. pose proof (Byte.to_N_bounded b). lia.
Qed.

Lemma encode_claim (e : Z) :
  utf8_encode (JSON_stringify (guard_claim e)) = JSON_stringify (guard_claim e).
Proof. apply utf8_encode_ascii, stringify_guard_claim_ascii. Qed.

Lemma decode_claim_payload (e : Z) :
  base64UrlDecode (base64UrlEncode (JSON_stringify (guard_claim e))) = JSON_stringify (guard_claim e).
Proof.
  unfold base64UrlEncode. rewrite encode_claim, base64Url_roundtrip.
  - apply utf8_decode_ascii, stringify_guard_claim_ascii.
  - apply ascii_is_byte, stringify_guard_claim_ascii.
Qed.

Lemma payload_no_dot (e : Z) : ~ In 46 (base64UrlEncode (JSON_stringify (guard_claim e))).
Proof.
  unfold base64UrlEncode. rewrite encode_claim.
  apply url_safe_no_dot, ascii_is_byte, stringify_guard_claim_ascii.
Qed.

Lemma signature_no_dot hmac_sha256 (secret data : jsstr) : ~ In 46 (hmac_b64url hmac_sha256 secret data).
Proof. apply url_safe_no_dot, byte_values_bytes. Qed.

Lemma split_guard_token hmac_sha256 (secret : jsstr) (e : Z) :
  split_on 46 (signGuardToken hmac_sha256 secret e)
  = [base64UrlEncode (JSON_stringify (guard_claim e));
     hmac_b64url hmac_sha256 secret (base64UrlEncode (JSON_stringify (guard_claim e)))].
Proof. apply split_on_two; [apply payload_no_dot | apply signature_no_dot]. Qed.

Lemma claim_allowed (e : Z) : js_get (guard_claim e) (js "allowed") = Some (Some (JBool true)).
Proof. reflexivity. Qed.

Lemma claim_exp (e : Z) : js_get (guard_claim e) (js "exp") = Some (Some (JNum e 0)).
Proof. reflexivity. Qed.

Lemma check_minted_payload (e now : Z) :
  check_payload (base64UrlEncode (JSON_stringify (guard_claim e))) now
  = Some (negb (e =? 0) && (now <=? e)).
Proof.
  unfold check_payload. rewrite decode_claim_payload, stringify_guard_claim, parse_guard_claim.
  rewrite claim_allowed, claim_exp. cbn [truthy negb].
  destruct (e =? 0); [reflexivity|]. cbn [negb andb]. unfold js_ge, to_number.
  cbn [Z.leb]. rewrite Z.mul_1_r. reflexivity.
Qed.

(** [C1] Round trip: a token minted by [signGuardToken] with a secret and an
    expiry [e] is accepted by [isValidGuardToken] with the same secret at
    every verification time [now] (seconds, [0 <= now]) strictly before [e]. *)
Theorem guard_token_roundtrip hmac_sha256 (secret : jsstr) (e now : Z) :
  0 <= now < e ->
  isValidGuardToken hmac_sha256 (signGuardToken hmac_sha256 secret e) secret now = true.
Proof.
  intros Hnow. unfold isValidGuardToken. rewrite split_guard_token, jsstr_eqb_refl.
  cbn [negb]. rewrite check_minted_payload.
  destruct (Z.eqb_spec e 0); [lia|]. apply Z.leb_le. lia.
Qed.

Lemma repeat_prefix_inj (x : Byte.byte) (n1 n2 : nat) (b1 b2 : Byte.byte) (r1 r2 : list Byte.byte) :
  b1 <> x -> b2 <> x -> repeat x n1 ++ b1 :: r1 = repeat x n2 ++ b2 :: r2 ->
  n1 = n2 /\ b1 = b2 /\ r1 = r2.
Proof.
  intros H1 H2. revert n2. induction n1 as [|n1 IH]; intros [|n2] E; cbn [repeat app] in E.
  - injection E as -> ->. auto.
  - injection E as E1 _. congruence.
  - injection E as E1 _. congruence.
  - injection E as E. destruct (IH n2 E) as (-> & -> & ->). auto.
Qed.

Lemma sample_block_inj (z1 z2 : Z) (r1 r2 : list Byte.byte) :
  sample_block z1 ++ r1 = sample_block z2 ++ r2 -> z1 = z2 /\ r1 = r2.
Proof.
  unfold sample_block. rewrite <- !app_assoc. cbn [app]. intros E.
  apply repeat_prefix_inj in E as (En & Eb & Er);
    [| destruct (z1 <? 0); discriminate | destruct (z2 <? 0); discriminate].
  split; [|exact Er].
  destruct (Z.ltb_spec z1 0), (Z.ltb_spec z2 0); try discriminate; lia.
Qed.

Lemma sample_blocks_inj (k1 k2 : jsstr) :
  concat (List.map sample_block k1) = concat (List.map sample_block k2) -> k1 = k2.
Proof.
  revert k2. induction k1 as [|z1 k1 IH]; intros [|z2 k2]; cbn [List.map concat]; intros E.
  - reflexivity.
  - exfalso. apply (f_equal (@length _)) in E. rewrite length_app in E.
    unfold sample_block in E. rewrite length_app in E. cbn in E. lia.
  - exfalso. apply (f_equal (@length _)) in E. rewrite length_app in E.
    unfold sample_block in E. rewrite length_app in E. cbn in E. lia.
  - apply sample_block_inj in E as [-> E]. f_equal. apply IH, E.
Qed.

Lemma sample_hmac_key_inj (k1 k2 m : jsstr) : sample_hmac k1 m = sample_hmac k2 m -> k1 = k2.
Proof. unfold sample_hmac. intros E. apply app_inv_tail in E. apply sample_blocks_inj, E. Qed.

Lemma byte_value_inj (a b : Byte.byte) : byte_value a = byte_value b -> a = b.
Proof.
  unfold byte_value. intros E. apply N2Z.inj in E.
  pose proof (Byte.of_to_N a) as Ha. rewrite E, Byte.of_to_N in Ha. congruence.
Qed.

Lemma map_byte_value_inj (l1 l2 : list Byte.byte) :
  List.map byte_value l1 = List.map byte_value l2 -> l1 = l2.
Proof.
  revert l2. induction l1 as [|a l1 IH]; intros [|b l2] E; try discriminate; [reflexivity|].
  injection E as E1 E2. apply byte_value_inj in E1. subst. f_equal. apply IH, E2.
Qed.

Lemma hmac_b64url_inj hmac_sha256 (k1 k2 data : jsstr) :
  hmac_b64url hmac_sha256 k1 data = hmac_b64url hmac_sha256 k2 data ->
  hmac_sha256 k1 data = hmac_sha256 k2 data.
Proof.
  unfold hmac_b64url. intros E. apply url_safe_encode_inj in E; try apply byte_values_bytes.
  apply map_byte_value_inj, E.
Qed.

(** [C1] witness. *)
Lemma guard_token_roundtrip_witness :
  0 <= 1700000000 < 1700000120 /\
  isValidGuardToken sample_hmac (signGuardToken sample_hmac (js "s3cret") 1700000120)
    (js "s3cret") 1700000000 = true.
Proof. split; [lia | apply (guard_token_roundtrip sample_hmac); lia]. Defined.

(** [C3] Secret mismatch: when the HMAC separates keys (two keys giving the
    same digest of the same data are equal), a token minted with [secret] is
    rejected by [isValidGuardToken] under any other secret [secret2], for
    every expiry and verification time. *)
Theorem guard_token_wrong_secret hmac_sha256 (secret secret2 : jsstr) (e now : Z) :
  (forall k1 k2 m, hmac_sha256 k1 m = hmac_sha256 k2 m -> k1 = k2) ->
  secret2 <> secret ->
  isValidGuardToken hmac_sha256 (signGuardToken hmac_sha256 secret e) secret2 now = false.
Proof.
  intros Hinj Hne. unfold isValidGuardToken. rewrite split_guard_token.
  destruct (jsstr_eqb _ _) eqn:Eq; [|reflexivity]. exfalso.
  apply jsstr_eqb_eq, hmac_b64url_inj, Hinj in Eq. congruence.
Qed.

(** [C3] witness. *)
Lemma guard_token_wrong_secret_witness :
  js "s3cret2" <> js "s3cret" /\
  isValidGuardToken sample_hmac (signGuardToken sample_hmac (js "s3cret") 1700000120)
    (js "s3cret2") 1700000000 = false.
Proof.
  split; [discriminate|].
  apply (guard_token_wrong_secret sample_hmac); [exact sample_hmac_key_inj | discriminate].
Defined.

(** [C2] Fail-closed verification.  [isValidGuardToken] is a total function
    to [bool]: every path of the source that throws inside its [try] block
    is [None] in [check_payload] and is mapped to [false], as its [catch]
    does.  It returns [false] whenever the token does not split into exactly
    two dot-separated segments, the signature segment differs from the
    recomputed HMAC of the payload segment, the payload segment does not
    decode to JSON, the decoded payload is [null] or has no [allowed] or no
    [exp] field, or [exp] is a number (of any spelling: integer, fraction,
    exponent form, or a numeric string, as [>=] converts it) strictly before
    the verification time [now]. *)
Theorem isValidGuardToken_fail_closed hmac_sha256 (token secret : jsstr) (now : Z) :
  (length (split_on 46 token) <> 2%nat
   \/ exists p s, split_on 46 token = [p; s] /\
       (s <> hmac_b64url hmac_sha256 secret p
        \/ JSON_parse (base64UrlDecode p) = None
        \/ exists v, JSON_parse (base64UrlDecode p) = Some v /\
             (v = JNull
              \/ js_get v (js "allowed") = Some None
              \/ js_get v (js "exp") = Some None
              \/ exists x m e, js_get v (js "exp") = Some x /\ to_number x = Some (m, e)
                               /\ js_ge x now = false))) ->
  isValidGuardToken hmac_sha256 token secret now = false.
Proof.
  unfold isValidGuardToken. intros [Hlen | (p & s & Hsplit & Hcase)].
  - destruct (split_on 46 token) as [|p [|s [|x l]]]; cbn [length] in Hlen;
      try reflexivity. exfalso; apply Hlen; reflexivity.
  - rewrite Hsplit. destruct (jsstr_eqb s (hmac_b64url hmac_sha256 secret p)) eqn:E;
      [|reflexivity].
    apply jsstr_eqb_eq in E. cbn [negb]. unfold check_payload.
    destruct Hcase as [Hs | [Hnone | (v & Hv & Hfield)]]; [contradiction | rewrite Hnone; reflexivity|].
    rewrite Hv. destruct Hfield as [-> | [Ha | [He | (x & m & e & He & _ & Hge)]]].
    + reflexivity.
    + rewrite Ha. reflexivity.
    + destruct (js_get v (js "allowed")) as [a|]; [|reflexivity].
      destruct (truthy a); [|reflexivity]. cbn [negb]. rewrite He. reflexivity.
    + destruct (js_get v (js "allowed")) as [a|]; [|reflexivity].
      destruct (truthy a); [|reflexivity]. cbn [negb]. rewrite He.
      destruct (truthy x); [exact Hge | reflexivity].
Qed.

(** [C2] witness: a correctly signed token whose expiry 1699999999.5 is a
    fraction half a second before the verification time. *)
Lemma isValidGuardToken_fail_closed_witness :
  let p := base64UrlEncode (JSON_stringify
             (JObj [(js "exp", JNum 16999999995 (-1)); (js "allowed", JBool true)])) in
  isValidGuardToken sample_hmac (p ++ [46] ++ hmac_b64url sample_hmac (js "s3cret") p)
    (js "s3cret") 1700000000 = false.
Proof.
  intros p. apply isValidGuardToken_fail_closed. right.
  exists p, (hmac_b64url sample_hmac (js "s3cret") p). split; [vm_compute; reflexivity|].
  right. right. exists (JObj [(js "exp", JNum 16999999995 (-1)); (js "allowed", JBool true)]).
  split; [vm_compute; reflexivity|]. right. right. right.
  exists (Some (JNum 16999999995 (-1))), 16999999995, (-1).
  split; [vm_compute; reflexivity|]. split; vm_compute; reflexivity.
Defined.

(** [C6] counterexample: a correctly signed token whose payload is
    [{"exp":1700000120,"allowed":1}] is accepted at time 1700000000, since
    the source tests [!payload.allowed] (truthiness), not [allowed === true]. *)
Lemma allowed_one_accepted :
  let p := base64UrlEncode (JSON_stringify
             (JObj [(js "exp", JNum 1700000120 0); (js "allowed", JNum 1 0)])) in
  isValidGuardToken sample_hmac (p ++ [46] ++ hmac_b64url sample_hmac (js "s3cret") p)
    (js "s3cret") 1700000000 = true.
Proof. vm_compute. reflexivity. Qed.

(** [C6] (amended) [isValidGuardToken] accepts a token if and only if the
    token is correctly signed and its payload decodes to JSON whose
    [allowed] field is truthy and whose [exp] field is truthy and [>= now].
    So a falsy [allowed] ([false], [0], [""], [null] or absent) is always
    rejected, while every truthy value, [true] or not (such as [1] or a
    non-empty string), is accepted when the rest holds.  Every token minted
    by [signGuardToken] carries the payload [{exp, allowed: true}]. *)
Theorem isValidGuardToken_accepts_truthy hmac_sha256 (secret : jsstr) :
  (forall token now,
     isValidGuardToken hmac_sha256 token secret now = true <->
     exists p v, split_on 46 token = [p; hmac_b64url hmac_sha256 secret p]
       /\ JSON_parse (base64UrlDecode p) = Some v
       /\ (exists a, js_get v (js "allowed") = Some a /\ truthy a = true)
       /\ (exists x, js_get v (js "exp") = Some x /\ truthy x = true /\ js_ge x now = true))
  /\ (forall e, exists p,
       split_on 46 (signGuardToken hmac_sha256 secret e) = [p; hmac_b64url hmac_sha256 secret p]
       /\ JSON_parse (base64UrlDecode p) = Some (guard_claim e)
       /\ js_get (guard_claim e) (js "allowed") = Some (Some (JBool true))).
Proof.
  split.
  - intros token now. split.
    + unfold isValidGuardToken.
      destruct (split_on 46 token) as [|p [|s [|x l]]]; try discriminate.
      destruct (jsstr_eqb s (hmac_b64url hmac_sha256 secret p)) eqn:E; [|discriminate].
      apply jsstr_eqb_eq in E. subst s. cbn [negb]. unfold check_payload.
      destruct (JSON_parse (base64UrlDecode p)) as [v|] eqn:Hv; [|discriminate].
      destruct (js_get v (js "allowed")) as [a|] eqn:Ha; [|discriminate].
      destruct (truthy a) eqn:Ta; [|discriminate]. cbn [negb].
      destruct (js_get v (js "exp")) as [x|] eqn:Hx; [|discriminate].
      destruct (truthy x) eqn:Tx; [|discriminate]. cbn [negb]. intros Hge.
      exists p, v. split; [reflexivity|]. split; [exact Hv|].
      split; [exists a; auto | exists x; auto].
    + intros (p & v & Hs & Hv & (a & Ha & Ta) & (x & Hx & Tx & Hge)).
      unfold isValidGuardToken. rewrite Hs, jsstr_eqb_refl. cbn [negb].
      unfold check_payload. rewrite Hv, Ha, Ta. cbn [negb]. rewrite Hx, Tx. exact Hge.
  - intros e. exists (base64UrlEncode (JSON_stringify (guard_claim e))).
    split; [apply split_guard_token|]. split; [|reflexivity].
    rewrite decode_claim_payload, stringify_guard_claim. apply parse_guard_claim.
Qed.

(** [C6] witness: a correctly signed token with [allowed: "yes"] is
    accepted. *)
Lemma isValidGuardToken_accepts_truthy_witness :
  let v := JObj [(js "exp", JNum 1700000120 0); (js "allowed", JStr (js "yes"))] in
  let p := base64UrlEncode (JSON_stringify v) in
  isValidGuardToken sample_hmac (p ++ [46] ++ hmac_b64url sample_hmac (js "s3cret") p)
    (js "s3cret") 1700000000 = true.
Proof.
  intros v p. apply (proj1 (isValidGuardToken_accepts_truthy sample_hmac (js "s3cret"))).
  exists p, v. split; [vm_compute; reflexivity|]. split; [vm_compute; reflexivity|].
  split; [exists (Some (JStr (js "yes"))); split; vm_compute; reflexivity|].
  exists (Some (JNum 1700000120 0)). split; [vm_compute; reflexivity|]. split; vm_compute; reflexivity.
Defined.

(** [C7] Inclusive expiry: for a correctly signed token whose payload has
    [allowed: true] and the integer expiry [e > 0], verification succeeds at
    [now = e] and fails at [now = e + 1]. *)
Theorem isValidGuardToken_expiry_boundary hmac_sha256 (token secret p : jsstr) (v : json) (e : Z) :
  split_on 46 token = [p; hmac_b64url hmac_sha256 secret p] ->
  JSON_parse (base64UrlDecode p) = Some v ->
  js_get v (js "allowed") = Some (Some (JBool true)) ->
  js_get v (js "exp") = Some (Some (JNum e 0)) ->
  0 < e ->
  isValidGuardToken hmac_sha256 token secret e = true
  /\ isValidGuardToken hmac_sha256 token secret (e + 1) = false.
Proof.
  intros Hs Hp Ha He Hpos. unfold isValidGuardToken. rewrite Hs, jsstr_eqb_refl.
  cbn [negb]. unfold check_payload. rewrite Hp, Ha, He. cbn [truthy negb].
  destruct (Z.eqb_spec e 0) as [|_]; [lia|]. cbn [negb].
  unfold js_ge, to_number. cbn [Z.leb]. rewrite Z.mul_1_r. split.
  - apply Z.leb_refl.
  - apply Z.leb_gt. lia.
Qed.

(** [C7] witness: the token minted by [signGuardToken] for 1700000120. *)
Lemma isValidGuardToken_expiry_boundary_witness :
  isValidGuardToken sample_hmac (signGuardToken sample_hmac (js "s3cret") 1700000120)
    (js "s3cret") 1700000120 = true
  /\ isValidGuardToken sample_hmac (signGuardToken sample_hmac (js "s3cret") 1700000120)
       (js "s3cret") (1700000120 + 1) = false.
Proof.
  apply (isValidGuardToken_expiry_boundary sample_hmac _ _
           (base64UrlEncode (JSON_stringify (guard_claim 1700000120)))
           (guard_claim 1700000120)); vm_compute; reflexivity.
Defined.

(** ** The classifier *)

Lemma cls_eqb_eq (a b : cls) : cls_eqb a b = true -> a = b.
Proof. destruct a, b; cbn; try discriminate; [intros E; apply Z.eqb_eq in E; subst|]; reflexivity. Qed.

Lemma cls_list_eqb_eq (l l' : list cls) :
  (length l =? length l')%nat && forallb (fun p => cls_eqb (fst p) (snd p)) (combine l l') = true ->
  l = l'.
Proof.
  revert l'. induction l as [|a l IH]; intros [|b l'] E; try discriminate; [reflexivity|].
  cbn in E. apply andb_prop in E as [El E]. apply andb_prop in E as [Eh Et].
  apply cls_eqb_eq in Eh. subst. f_equal. apply IH. rewrite El. exact Et.
Qed.

Lemma regex_eqb_eq (a b : regex) : regex_eqb a b = true -> a = b.
Proof.
  revert b. induction a; intros []; cbn; try discriminate; intros E;
    repeat match goal with H : _ && _ = true |- _ => apply andb_prop in H as [? ?] end;
    try reflexivity.
  - apply jsstr_eqb_eq in E. subst. reflexivity.
  - f_equal. apply cls_list_eqb_eq. apply andb_true_intro. split; assumption.
  - f_equal; auto.
  - f_equal; auto.
  - f_equal; auto.
Qed.

Lemma patterns_incl_In (l1 l2 : list regex) :
  patterns_incl l1 l2 = true -> forall p, In p l1 -> In p l2.
Proof.
  unfold patterns_incl. intros H p Hp. rewrite forallb_forall in H.
  apply H, existsb_exists in Hp as (q & Hq & E). apply regex_eqb_eq in E. subst. exact Hq.
Qed.

Lemma classify_incl (lower : jsstr -> jsstr) (l1 l2 : list regex) (t : jsstr) :
  (forall p, In p l1 -> In p l2) -> classify lower l1 t = true -> classify lower l2 t = true.
Proof.
  unfold classify. intros Hin H. apply existsb_exists in H as (p & Hp & T).
  apply existsb_exists. exists p. auto.
Qed.

Lemma narrow_in_broad : patterns_incl narrow_tier broad_tier = true.
Proof. vm_compute. reflexivity. Qed.

Lemma narrow_in_voice : patterns_incl narrow_tier voice_tier = true.
Proof. vm_compute. reflexivity. Qed.

(** Positions of matches stay inside the string. *)
Lemma ends_mono (r : regex) (s : jsstr) (i j : nat) : In j (ends r s i) -> (i <= j)%nat.
Proof.
  revert i j. induction r; intros i j H; cbn [ends] in H.
  - destruct H as [->|[]]. lia.
  - destruct (jsstr_eqb _ _); [destruct H as [<-|[]]; lia | destruct H].
  - destruct (nth_error s i); [|destruct H].
    destruct (existsb _ _); [destruct H as [<-|[]]; lia | destruct H].
  - destruct (word_boundary s i); [destruct H as [<-|[]]; lia | destruct H].
  - apply in_flat_map in H as (m & H1 & H2). apply IHr1 in H1. apply IHr2 in H2. lia.
  - apply in_app_or in H as [H|H]; eauto.
  - apply in_app_or in H as [H|[<-|[]]]; [eauto | lia].
Qed.

Lemma ends_bound (r : regex) (s : jsstr) (i j : nat) :
  (i <= length s)%nat -> In j (ends r s i) -> (j <= length s)%nat.
Proof.
  revert i j. induction r; intros i j Hi H; cbn [ends] in H.
  - destruct H as [->|[]]. exact Hi.
  - destruct (jsstr_eqb w (firstn (length w) (skipn i s))) eqn:E; [|destruct H].
    destruct H as [<-|[]]. apply jsstr_eqb_eq in E.
    apply (f_equal (@length _)) in E. rewrite length_firstn, length_skipn in E. lia.
  - destruct (nth_error s i) eqn:E; [|destruct H].
    destruct (existsb _ _); [destruct H as [<-|[]] | destruct H].
    apply nth_error_Some. congruence.
  - destruct (word_boundary s i); [destruct H as [<-|[]]; exact Hi | destruct H].
  - apply in_flat_map in H as (m & H1 & H2). eauto.
  - apply in_app_or in H as [H|H]; eauto.
  - apply in_app_or in H as [H|[<-|[]]]; eauto.
Qed.

Lemma skipn_length_app {A} (u l : list A) (i : nat) : skipn (length u + i) (u ++ l) = skipn i l.
Proof. induction u; cbn; auto. Qed.

Lemma nth_error_length_app {A} (u l : list A) (i : nat) : nth_error (u ++ l) (length u + i) = nth_error l i.
Proof. induction u; cbn; auto. Qed.

Section Locality.

(** A word [w] between [u] and [v] that do not continue it with word
    characters. *)
Variables u w v : jsstr.
Hypothesis Hu : u = [] \/ exists u' c, u = u' ++ [c] /\ is_word c = false.
Hypothesis Hv : v = [] \/ exists c v', v = c :: v' /\ is_word c = false.

Let S := u ++ w ++ v.
Let n := length u.

Lemma word_at_inside (k : nat) : (k < length w)%nat -> word_at S (n + k) = word_at w k.
Proof.
  intros Hk. unfold word_at, S, n. rewrite nth_error_length_app, nth_error_app1 by exact Hk.
  reflexivity.
Qed.

Lemma word_at_right : word_at S (n + length w) = false.
Proof.
  unfold word_at, S, n. rewrite nth_error_length_app.
  replace (length w) with (length w + 0)%nat by lia. rewrite nth_error_length_app.
  destruct Hv as [->|(c & v' & -> & Hc)]; [reflexivity | exact Hc].
Qed.

Lemma word_boundary_local (i : nat) : (i <= length w)%nat -> word_boundary S (n + i) = word_boundary w i.
Proof.
  intros Hi. unfold word_boundary. f_equal.
  - destruct i as [|k].
    + rewrite Nat.add_0_r. destruct Hu as [->|(u' & c & -> & Hc)]; [reflexivity|].
      unfold n. rewrite length_app. cbn [length]. rewrite Nat.add_1_r.
      unfold word_at, S. rewrite <- app_assoc. replace (length u') with (length u' + 0)%nat by lia.
      rewrite nth_error_length_app. exact Hc.
    + rewrite Nat.add_succ_r. apply word_at_inside. lia.
  - destruct (Nat.eq_dec i (length w)) as [->|Hne].
    + rewrite word_at_right. unfold word_at. rewrite (proj2 (nth_error_None w (length w))) by lia.
      reflexivity.
    + apply word_at_inside. lia.
Qed.

Lemma ends_local (r : regex) (i j : nat) :
  (i <= length w)%nat -> In j (ends r w i) -> In (n + j)%nat (ends r S (n + i)).
Proof.
  revert i j. induction r; intros i j Hi H; cbn [ends] in H |- *.
  - destruct H as [->|[]]. left; reflexivity.
  - destruct (jsstr_eqb w0 (firstn (length w0) (skipn i w))) eqn:E; [|destruct H].
    destruct H as [<-|[]].
    assert (Hle : (length w0 <= length (skipn i w))%nat).
    { apply jsstr_eqb_eq in E. apply (f_equal (@length _)) in E.
      rewrite length_firstn in E. lia. }
    unfold S, n. rewrite skipn_length_app, skipn_app, firstn_app.
    replace (length w0 - length (skipn i w))%nat with O by lia. rewrite app_nil_r, E.
    left. lia.
  - destruct (nth_error w i) eqn:E; [|destruct H].
    assert (Hlt : (i < length w)%nat) by (apply nth_error_Some; congruence).
    unfold S, n. rewrite nth_error_length_app, nth_error_app1, E by exact Hlt.
    destruct (existsb _ _); [destruct H as [<-|[]]; left; lia | destruct H].
  - rewrite word_boundary_local by exact Hi.
    destruct (word_boundary w i); [destruct H as [<-|[]]; left; reflexivity | destruct H].
  - apply in_flat_map in H as (m & H1 & H2). apply in_flat_map.
    exists (n + m)%nat. split; [apply IHr1; auto|]. apply IHr2; [|exact H2].
    apply (ends_bound r1 w i m Hi H1).
  - apply in_or_app. apply in_app_or in H as [H|H]; [left | right]; auto.
  - apply in_or_app. apply in_app_or in H as [H|[<-|[]]]; [left; auto | right; left; reflexivity].
Qed.

Lemma regex_test_local (r : regex) : In (length w) (ends r w 0) -> regex_test r S = true.
Proof.
  intros H. unfold regex_test. apply existsb_exists. exists n. split.
  - apply in_seq. unfold S, n. rewrite length_app. lia.
  - pose proof (ends_local r 0 (length w) ltac:(lia) H) as L. rewrite Nat.add_0_r in L.
    destruct (ends r S n); [destruct L | reflexivity].
Qed.

End Locality.

(** [C4] counterexample: the narrow list (part_003, part_004, guard.ts)
    does not block the spec's scenario question, which names no diet or
    nutrition term. *)
Lemma narrow_misses_headache : isBlockedHealthRequest narrow_tier headache_question = false.
Proof. vm_compute. reflexivity. Qed.

(** [C4] (amended) For every list of patterns and every text: when the
    lower-cased text contains a word [w] that one of the patterns matches
    on its own, and [w] is not extended by a word character on either side
    (a string edge or a non-word character), [isBlockedHealthRequest]
    returns true, whatever the case of the text and the rest of it.  On the
    spec's scenario question the broad list and the Voice-Chat list return
    true; the narrow list does not (see the counterexample). *)
Theorem isBlockedHealthRequest_whole_word :
  (forall (pats : list regex) (p : regex) (t u w v : jsstr),
     In p pats -> In (length w) (ends p w 0) ->
     toLowerCase t = u ++ w ++ v ->
     (u = [] \/ exists u' c, u = u' ++ [c] /\ is_word c = false) ->
     (v = [] \/ exists c v', v = c :: v' /\ is_word c = false) ->
     isBlockedHealthRequest pats t = true)
  /\ isBlockedHealthRequest broad_tier headache_question = true
  /\ isBlockedHealthRequest voice_tier headache_question = true.
Proof.
  split; [|split; vm_compute; reflexivity].
  intros pats p t u w v Hp Hw Ht Hu Hv. unfold isBlockedHealthRequest, classify.
  apply existsb_exists. exists p. split; [exact Hp|]. rewrite Ht.
  apply regex_test_local; assumption.
Qed.

(** [C4] witness: "My DIET plan" and the narrow list. *)
Lemma isBlockedHealthRequest_whole_word_witness :
  isBlockedHealthRequest narrow_tier (js "My DIET plan") = true.
Proof.
  apply (proj1 isBlockedHealthRequest_whole_word narrow_tier
           (cat [RWordB; RStr (js "diet"); RWordB]) (js "My DIET plan")
           (js "my ") (js "diet") (js " plan")).
  - vm_compute. auto 10.
  - vm_compute. left; reflexivity.
  - vm_compute. reflexivity.
  - right. exists (js "my"), 32. split; reflexivity.
  - right. exists 32, (js "plan"). split; reflexivity.
Defined.

(** [C9] Tier monotonicity: every pattern of the narrow list is a pattern of
    the broad list and of the Voice-Chat list, so any text the narrow
    classifier blocks is blocked by both. *)
Theorem narrow_tier_monotone (t : jsstr) :
  isBlockedHealthRequest narrow_tier t = true ->
  isBlockedHealthRequest broad_tier t = true /\ isBlockedHealthRequest voice_tier t = true.
Proof.
  intros H. split; eapply classify_incl; try exact H; apply patterns_incl_In;
    [exact narrow_in_broad | exact narrow_in_voice].
Qed.

(** [C9] witness. *)
Lemma narrow_tier_monotone_witness :
  isBlockedHealthRequest broad_tier (js "Which diet?") = true
  /\ isBlockedHealthRequest voice_tier (js "Which diet?") = true.
Proof. apply narrow_tier_monotone. vm_compute. reflexivity. Defined.

(** ** Handlers *)

Lemma bind_ret {A B} (a : A) (f : A -> M B) (tr : list call) : bind (ret a) f tr = f a tr.
Proof. reflexivity. Qed.

Lemma js_get_nonnull (p : json) (k : jsstr) : p <> JNull -> js_get p k = Some (js_get_opt (Some p) k).
Proof. destruct p; intros H; [contradiction H; reflexivity | reflexivity ..]. Qed.

Lemma bind_get {B} (p : json) (k : jsstr) (f : jsval -> M B) (tr : list call) :
  p <> JNull -> bind (get_prop (Some p) k) f tr = f (js_get_opt (Some p) k) tr.
Proof. intros H. unfold get_prop. rewrite js_get_nonnull by exact H. reflexivity. Qed.

Lemma session_payload_nonnull (v : json) : exists p, session_payload v = Some p /\ p <> JNull.
Proof.
  unfold session_payload, js_or. destruct (truthy (Some v)) eqn:T.
  - exists v. split; [reflexivity|]. intros ->. discriminate.
  - exists (JObj []). split; [reflexivity | discriminate].
Qed.

Lemma parseBody_ok (w : world) (b : jsstr) (v : json) :
  JSON_parse b = Some v -> parseBody w (Some b) = ret (Some v).
Proof.
  intros H. destruct b as [|c b]; [discriminate|]. cbn [parseBody]. unfold parse_json.
  rewrite H. reflexivity.
Qed.

Lemma post_not_options : jsstr_eqb (js "POST") (js "OPTIONS") = false.
Proof. reflexivity. Qed.

Lemma post_is_post : jsstr_eqb (js "POST") (js "POST") = true.
Proof. reflexivity. Qed.

Ltac run_gets Hp :=
  repeat (rewrite bind_get by exact Hp); cbv beta.

(** [C5] Content first: for every request to the session handler (any
    list, with or without the transcription field) by POST with both
    secrets configured, whose body parses and whose re-checked text
    ([user_text ?? text ?? prompt ?? query ?? transcript]) is a non-empty
    string that the classifier blocks, the response is the 403 content
    violation [{error: 'Health-related requests are not supported.',
    blocked: true}], whatever [guard_token] holds, and no collaborator is
    called. *)
Theorem session_content_check_first hmac_sha256 (pats : list regex) (transcription : bool)
    (w : world) (en : env) (ev : event) (apiKey guardSecret b t : jsstr) (v : json) :
  httpMethod ev = js "POST" ->
  nonempty (OPENAI_API_KEY en) = Some apiKey ->
  nonempty (GUARD_TOKEN_SECRET en) = Some guardSecret ->
  event_body ev = Some b -> JSON_parse b = Some v ->
  session_user_text (session_payload v) = Some (JStr t) -> t <> [] ->
  isBlockedHealthRequest pats t = true ->
  session_handler hmac_sha256 pats transcription w en ev [] = (inr (resp 403 content_violation_body), []).
Proof.
  intros Hm Hk Hs Hb Hv Hu Ht Hbl. unfold session_handler.
  rewrite Hm, post_not_options, post_is_post, Hk, Hs, Hb. cbn [negb].
  rewrite (parseBody_ok w b v Hv), bind_ret. cbv beta.
  destruct (session_payload_nonnull v) as (p & Hp & Hnn). unfold session_payload in Hp, Hu.
  rewrite Hp in Hu |- *. run_gets Hnn. unfold session_user_text in Hu. rewrite Hu.
  destruct t as [|c t]; [contradiction|]. cbn [truthy]. rewrite bind_ret, Hbl. reflexivity.
Qed.

(** [C5] witness: a blocked [user_text] with a forged [guard_token]. *)
Lemma session_content_check_first_witness :
  session_handler sample_hmac broad_tier true sample_world sample_env
    (post_event [(js "user_text", JStr (js "Which diet is best?"));
                 (js "guard_token", JStr (js "forged"))]) []
  = (inr (resp 403 content_violation_body), []).
Proof.
  apply (session_content_check_first sample_hmac broad_tier true sample_world sample_env _
           (js "sk-test") (js "s3cret")
           (JSON_stringify (JObj [(js "user_text", JStr (js "Which diet is best?"));
                                  (js "guard_token", JStr (js "forged"))]))
           (js "Which diet is best?")
           (JObj [(js "user_text", JStr (js "Which diet is best?"));
                  (js "guard_token", JStr (js "forged"))]));
    try reflexivity; try (vm_compute; reflexivity); discriminate.
Defined.

Lemma valid_token_nonempty hmac_sha256 (token secret : jsstr) (now : Z) :
  isValidGuardToken hmac_sha256 token secret now = true -> token <> [].
Proof. intros H ->. discriminate H. Qed.

Lemma blocked_step (pats : list regex) (userText : jsval) :
  (truthy userText = false
   \/ exists t, userText = Some (JStr t) /\ isBlockedHealthRequest pats t = false) ->
  (if truthy userText then
     match userText with
     | Some (JStr s) => ret (isBlockedHealthRequest pats s)
     | _ => throw type_error
     end
   else ret false) = ret false.
Proof.
  intros [Hf | (t & -> & Hbl)].
  - rewrite Hf. reflexivity.
  - destruct (truthy (Some (JStr t))); [rewrite Hbl|]; reflexivity.
Qed.

Lemma nocall_ret {A} (a : A) : nocall (ret a).
Proof. intros tr. reflexivity. Qed.

Lemma nocall_throw {A} (e : jsstr) : nocall (@throw A e).
Proof. intros tr. reflexivity. Qed.

Lemma nocall_lift {A} (o : option A) : nocall (lift o).
Proof. destruct o; intros tr; reflexivity. Qed.

Lemma nocall_parse_json (w : world) (text : jsstr) : nocall (parse_json w text).
Proof. unfold parse_json. destruct (JSON_parse text); intros tr; reflexivity. Qed.

Lemma nocall_bind {A B} (m : M A) (f : A -> M B) :
  nocall m -> (forall a, nocall (f a)) -> nocall (bind m f).
Proof.
  intros Hm Hf tr. unfold bind. specialize (Hm tr).
  destruct (m tr) as [[e|a] tr']; cbn in Hm |- *; [exact Hm|]. rewrite Hf. exact Hm.
Qed.

Create HintDb nocall.
#[export] Hint Resolve nocall_ret nocall_throw nocall_lift nocall_parse_json nocall_bind : nocall.

Lemma try_fetch_trace {A} (w : world) (c : call) (K : Z * list Z -> M A) (h : jsstr -> M A) :
  (forall a, nocall (K a)) -> (forall e, nocall (h e)) ->
  snd (try_catch (bind (fetch w c) K) h []) = [c].
Proof.
  intros HK Hh. unfold try_catch, bind, fetch.
  destruct (respond w c) as [status bytes | message]; cbn [app].
  - specialize (HK (status, bytes) [c]).
    destruct (K (status, bytes) [c]) as [[e|a] tr'] eqn:E; cbn in HK |- *; subst; [apply Hh | reflexivity].
  - apply Hh.
Qed.

Lemma try_fetch_ok {A} (w : world) (c : call) (K : Z * list Z -> M A) (h : jsstr -> M A)
    (status : Z) (bytes : list Z) :
  respond w c = FResponse status bytes ->
  try_catch (bind (fetch w c) K) h [] = try_catch (K (status, bytes)) h [c].
Proof. intros Hr. unfold try_catch, bind, fetch. rewrite Hr. reflexivity. Qed.

(** [C10] Alias shadowing: for a POST to the session handler with both
    secrets configured and a body that parses, the content re-check reads
    only [user_text ?? text ?? prompt ?? query ?? transcript].  When that
    value is falsy or a string the classifier does not block, and
    [guard_token] is a string that verifies, the handler goes on to the
    Realtime request and makes no other call, whatever the other fields
    hold (a blocked text under a lower-priority alias or under any other
    name is never classified); when the Realtime service answers with a
    success and a JSON value other than [null], the response is a 200. *)
Theorem session_alias_shadowing hmac_sha256 (pats : list regex) (transcription : bool)
    (w : world) (en : env) (ev : event) (apiKey guardSecret b token : jsstr) (v : json) :
  httpMethod ev = js "POST" ->
  nonempty (OPENAI_API_KEY en) = Some apiKey ->
  nonempty (GUARD_TOKEN_SECRET en) = Some guardSecret ->
  event_body ev = Some b -> JSON_parse b = Some v ->
  (truthy (session_user_text (session_payload v)) = false
   \/ exists t, session_user_text (session_payload v) = Some (JStr t)
                /\ isBlockedHealthRequest pats t = false) ->
  js_get_opt (session_payload v) (js "guard_token") = Some (JStr token) ->
  isValidGuardToken hmac_sha256 token guardSecret (now_ms w / 1000) = true ->
  let model := js_or (js_or (js_get_opt (session_payload v) (js "model"))
                            (option_map JStr (REALTIME_MODEL en)))
                     (Some (JStr (js "gpt-4o-realtime-preview"))) in
  snd (session_handler hmac_sha256 pats transcription w en ev [])
    = [CRealtime model transcription]
  /\ (forall status bytes data,
        respond w (CRealtime model transcription) = FResponse status bytes ->
        response_ok status = true -> JSON_parse (utf8_decode bytes) = Some data -> data <> JNull ->
        exists r, fst (session_handler hmac_sha256 pats transcription w en ev []) = inr r
                  /\ statusCode r = 200).
Proof.
  intros Hm Hk Hs Hb Hv Hu Htok Hval model. unfold session_handler.
  rewrite Hm, post_not_options, post_is_post, Hk, Hs, Hb. cbn [negb].
  rewrite (parseBody_ok w b v Hv), bind_ret. cbv beta.
  destruct (session_payload_nonnull v) as (p & Hp & Hnn).
  unfold model in *; clear model. unfold session_payload in Hp, Hu, Htok |- *.
  rewrite Hp in Hu, Htok |- *. run_gets Hnn. unfold session_user_text in Hu.
  rewrite (blocked_step pats _ Hu), bind_ret. cbv beta iota.
 run_gets Hnn. rewrite Htok.
  destruct token as [|c token]; [discriminate Hval|]. cbn [truthy negb].
  rewrite bind_ret, Hval. cbn [negb]. run_gets Hnn. cbv zeta.
  split.
  - apply try_fetch_trace; [|intros; apply nocall_ret].
    intros [status bytes]. cbv beta iota. destruct (negb (response_ok status)); eauto with nocall.
  - intros status bytes data Hr Hok Hd Hdn. rewrite (try_fetch_ok _ _ _ _ status bytes Hr).
    cbv beta iota. rewrite Hok. cbn [negb]. unfold parse_json at 1. rewrite Hd.
    unfold try_catch. rewrite bind_ret. cbv beta. unfold lift.
    rewrite js_get_nonnull, bind_ret by exact Hdn. rewrite js_get_nonnull, bind_ret by exact Hdn.
    eexists. split; reflexivity.
Qed.
(** [C10] witness: a benign [user_text] shadows a blocked [transcript], and
    the token is one the guard mints with the configured secret. *)
Lemma session_alias_shadowing_witness :
  let model := js_or (js_or (js_get_opt (session_payload (JObj [(js "user_text", JStr (js "Play some music"));
       (js "transcript", JStr (js "What medication should I take?"));
       (js "guard_token", JStr (signGuardToken sample_hmac (js "s3cret") 1700000100))])) (js "model"))
                            (option_map JStr (REALTIME_MODEL sample_env)))
                     (Some (JStr (js "gpt-4o-realtime-preview"))) in
  snd (session_handler sample_hmac broad_tier true sample_world sample_env (post_event [(js "user_text", JStr (js "Play some music"));
       (js "transcript", JStr (js "What medication should I take?"));
       (js "guard_token", JStr (signGuardToken sample_hmac (js "s3cret") 1700000100))]) [])
    = [CRealtime model true]
  /\ (forall status bytes data,
        respond sample_world (CRealtime model true) = FResponse status bytes ->
        response_ok status = true -> JSON_parse (utf8_decode bytes) = Some data -> data <> JNull ->
        exists r, fst (session_handler sample_hmac broad_tier true sample_world sample_env
                         (post_event [(js "user_text", JStr (js "Play some music"));
       (js "transcript", JStr (js "What medication should I take?"));
       (js "guard_token", JStr (signGuardToken sample_hmac (js "s3cret") 1700000100))]) []) = inr r
                  /\ statusCode r = 200).
Proof.
  refine (session_alias_shadowing sample_hmac broad_tier true sample_world sample_env
            (post_event [(js "user_text", JStr (js "Play some music"));
       (js "transcript", JStr (js "What medication should I take?"));
       (js "guard_token", JStr (signGuardToken sample_hmac (js "s3cret") 1700000100))]) (js "sk-test") (js "s3cret") (JSON_stringify (JObj [(js "user_text", JStr (js "Play some music"));
       (js "transcript", JStr (js "What medication should I take?"));
       (js "guard_token", JStr (signGuardToken sample_hmac (js "s3cret") 1700000100))]))
            (signGuardToken sample_hmac (js "s3cret") 1700000100) (JObj [(js "user_text", JStr (js "Play some music"));
       (js "transcript", JStr (js "What medication should I take?"));
       (js "guard_token", JStr (signGuardToken sample_hmac (js "s3cret") 1700000100))])
            eq_refl eq_refl eq_refl eq_refl _ _ _ _).
  - vm_compute. reflexivity.
  - right. exists (js "Play some music"). split; vm_compute; reflexivity.
  - vm_compute. reflexivity.
  - vm_compute. reflexivity.
Defined.

(** The transcription service's [text] is absent, [null] or blank. *)
Lemma transcript_of_data_empty (data : json) (tr : list call) :
  data <> JNull ->
  match js_get_opt (Some data) (js "text") with
  | None | Some JNull => True
  | Some (JStr s) => js_trim s = []
  | Some _ => False
  end ->
  transcript_of_data data tr = (inr [], tr).
Proof.
  intros Hn He. unfold transcript_of_data, lift. rewrite js_get_nonnull by exact Hn.
  rewrite bind_ret. destruct (js_get_opt (Some data) (js "text")) as [[]|]; try contradiction;
    try reflexivity.
  rewrite He. reflexivity.
Qed.

Lemma guard_finish_empty hmac_sha256 (pats : list regex) (w : world) (guardSecret : jsstr)
    (tr : list call) :
  guard_finish hmac_sha256 pats w guardSecret [] tr
  = (inr (resp 200 (JSON_stringify (JObj [(js "allowed", JBool true);
                                         (js "transcript", JStr []);
                                         (js "guard_token", JStr (signGuardToken hmac_sha256 guardSecret
                                                                   (now_ms w / 1000 + 120)));
                                         (js "expires_at", JNum (now_ms w / 1000 + 120) 0)]))), tr).
Proof. reflexivity. Qed.

Lemma bind_try_ret {A B} (m : M A) (h : jsstr -> M A) (f : A -> M B) (a : A) (tr : list call) :
  (forall tr, m tr = (inr a, tr)) -> bind (try_catch m h) f tr = f a tr.
Proof. intros Hm. unfold bind, try_catch. rewrite Hm. reflexivity. Qed.

Lemma guard_handler_empty_transcript hmac_sha256 (pats : list regex) (w : world) (en : env)
    (ev : event) (apiKey guardSecret b a : jsstr) (v data : json) (status : Z) (bytes : list Z) :
  httpMethod ev = js "POST" ->
  nonempty (OPENAI_API_KEY en) = Some apiKey ->
  nonempty (GUARD_TOKEN_SECRET en) = Some guardSecret ->
  event_body ev = Some b -> JSON_parse b = Some v ->
  js_get_opt (session_payload v) (js "transcript") = None ->
  js_get_opt (session_payload v) (js "text") = None ->
  js_get_opt (session_payload v) (js "audio_base64") = Some (JStr a) -> a <> [] ->
  let c := CTranscribe (buffer_from_base64 a)
             (js_or (js_get_opt (session_payload v) (js "mime_type")) (Some (JStr (js "audio/wav"))))
             (js_or (js_get_opt (session_payload v) (js "model")) (Some (JStr (js "whisper-1")))) in
  respond w c = FResponse status bytes -> response_ok status = true ->
  JSON_parse (utf8_decode bytes) = Some data -> data <> JNull ->
  match js_get_opt (Some data) (js "text") with
  | None | Some JNull => True
  | Some (JStr s) => js_trim s = []
  | Some _ => False
  end ->
  guard_handler hmac_sha256 pats w en ev [] = guard_finish hmac_sha256 pats w guardSecret [] [c].
Proof.
  intros Hm Hk Hs Hb Hv Ht Htx Ha Han c Hr Hok Hd Hdn He. unfold guard_handler.
  rewrite Hm, post_not_options, post_is_post, Hk, Hs, Hb. cbn [negb].
  rewrite (parseBody_ok w b v Hv).
  rewrite (bind_try_ret (p <- ret (Some v) ;; ret (inr p)) _ _ (inr (Some v)) [] (fun tr => eq_refl)).
  cbv beta iota.
  destruct (session_payload_nonnull v) as (p & Hp & Hnn). unfold c in *; clear c.
  unfold session_payload in Hp, Ht, Htx, Ha, Hr |- *. rewrite Hp in Ht, Htx, Ha, Hr |- *.
  run_gets Hnn. rewrite Ht, Htx. cbn [nullish_or trim_value]. rewrite bind_ret.
  run_gets Hnn. cbv zeta.
  unfold try_catch. rewrite bind_get by exact Hnn. rewrite Ha.
  destruct a as [|x a]; [contradiction|]. cbn [truthy buffer_from]. rewrite bind_ret.
  unfold bind at 1, fetch. rewrite Hr. cbn [app]. cbv beta iota. rewrite Hok. cbn [negb].
  unfold parse_json at 1. rewrite Hd, bind_ret.
  unfold bind at 1. rewrite (transcript_of_data_empty data _ Hdn He).
  destruct (guard_finish hmac_sha256 pats w guardSecret [] _) as [[e|r] tr] eqn:E; [|reflexivity].
  rewrite guard_finish_empty in E. discriminate E.
Qed.

Lemma edge_guard_handler_empty_transcript hmac_sha256 (pats : list regex) (w : world) (en : env)
    (apiKey guardSecret b a : jsstr) (v data : json) (status : Z) (bytes : list Z) :
  nonempty (OPENAI_API_KEY en) = Some apiKey ->
  nonempty (GUARD_TOKEN_SECRET en) = Some guardSecret ->
  JSON_parse b = Some v ->
  js_get_opt (Some v) (js "transcript") = None ->
  js_get_opt (Some v) (js "text") = None ->
  js_get_opt (Some v) (js "audio_base64") = Some (JStr a) -> a <> [] ->
  let c := CTranscribe (buffer_from_base64 a)
             (js_or (js_get_opt (Some v) (js "mime_type")) (Some (JStr (js "audio/wav"))))
             (js_or (js_get_opt (Some v) (js "model")) (Some (JStr (js "whisper-1")))) in
  respond w c = FResponse status bytes -> response_ok status = true ->
  JSON_parse (utf8_decode bytes) = Some data -> data <> JNull ->
  match js_get_opt (Some data) (js "text") with
  | None | Some JNull => True
  | Some (JStr s) => js_trim s = []
  | Some _ => False
  end ->
  edge_guard_handler hmac_sha256 pats w en (Some b) [] = guard_finish hmac_sha256 pats w guardSecret [] [c].
Proof.
  intros Hk Hs Hv Ht Htx Ha Han c Hr Hok Hd Hdn He. unfold edge_guard_handler.
  rewrite Hk, Hs, Hv, Ht, Htx. cbn [nullish_or trim_value]. rewrite bind_ret. cbv zeta.
  unfold c in Hr |- *; clear c. rewrite Ha. destruct a as [|x a]; [contradiction|].
  cbn [truthy buffer_from]. rewrite bind_ret.
  unfold bind at 1, fetch. rewrite Hr. cbn [app]. cbv beta iota. rewrite Hok. cbn [negb].
  unfold parse_json at 1. rewrite Hd, bind_ret.
  unfold bind at 1. rewrite (transcript_of_data_empty data _ Hdn He). reflexivity.
Qed.

Lemma voice_chat_handler_empty_transcript (pats : list regex) (w : world) (en : env)
    (apiKey b a : jsstr) (v data : json) (status : Z) (bytes : list Z) :
  nonempty (OPENAI_API_KEY en) = Some apiKey ->
  JSON_parse b = Some v -> v <> JNull ->
  js_get_opt (Some v) (js "audio_base64") = Some (JStr a) -> a <> [] ->
  let c := CTranscribe (buffer_from_base64 a)
             (js_or (js_get_opt (Some v) (js "mime_type")) (Some (JStr (js "audio/m4a"))))
             (Some (JStr (js "whisper-1"))) in
  respond w c = FResponse status bytes -> response_ok status = true ->
  JSON_parse (utf8_decode bytes) = Some data -> data <> JNull ->
  match js_get_opt (Some data) (js "text") with
  | None | Some JNull => True
  | Some (JStr s) => js_trim s = []
  | Some _ => False
  end ->
  voice_chat_handler pats w en (Some b) [] = (inr (resp 400 (error_body (js "Empty transcript"))), [c]).
Proof.
  intros Hk Hv Hvn Ha Han c Hr Hok Hd Hdn He. unfold voice_chat_handler.
  rewrite Hk, Hv. cbv iota. unfold lift at 1. rewrite js_get_nonnull, bind_ret by exact Hvn.
  rewrite Ha. destruct a as [|x a]; [contradiction|]. cbn [truthy negb].
  unfold lift at 1. rewrite js_get_nonnull, bind_ret by exact Hvn. cbv zeta.
  cbn [buffer_from]. rewrite bind_ret.
  unfold c in Hr |- *; clear c. unfold bind at 1, fetch. rewrite Hr. cbn [app]. cbv beta iota.
  rewrite Hok. cbn [negb].
  unfold parse_json at 1. rewrite Hd, bind_ret.
  unfold bind at 1. rewrite (transcript_of_data_empty data _ Hdn He). reflexivity.
Qed.

(** [C8] Empty transcripts, as the code handles them: when audio is sent
    without [transcript] or [text] and the transcription service answers
    with a success whose [text] is absent, [null] or blank, the Voice-Chat
    handler responds 400 ["Empty transcript"] after the transcription call
    alone, while both guard handlers (realtime-guard.ts and the edge handler
    of guard.ts) treat the empty transcript as not blocked and respond 200
    with a freshly minted guard token, also after the transcription call
    alone.  The MIME type and the model sent to the transcription service
    are strings ([new Blob] and [form.append] convert them to strings before
    any call, which throws for an object whose [toString] is not callable). *)
Theorem empty_transcript_outcomes :
  (forall hmac_sha256 pats w en ev apiKey guardSecret b a v data status bytes,
    httpMethod ev = js "POST" ->
    nonempty (OPENAI_API_KEY en) = Some apiKey ->
    nonempty (GUARD_TOKEN_SECRET en) = Some guardSecret ->
    event_body ev = Some b -> JSON_parse b = Some v ->
    js_get_opt (session_payload v) (js "transcript") = None ->
    js_get_opt (session_payload v) (js "text") = None ->
    js_get_opt (session_payload v) (js "audio_base64") = Some (JStr a) -> a <> [] ->
    string_valued (js_or (js_get_opt (session_payload v) (js "mime_type")) (Some (JStr (js "audio/wav")))) ->
    string_valued (js_or (js_get_opt (session_payload v) (js "model")) (Some (JStr (js "whisper-1")))) ->
    let c := CTranscribe (buffer_from_base64 a)
               (js_or (js_get_opt (session_payload v) (js "mime_type")) (Some (JStr (js "audio/wav"))))
               (js_or (js_get_opt (session_payload v) (js "model")) (Some (JStr (js "whisper-1")))) in
    respond w c = FResponse status bytes -> response_ok status = true ->
    JSON_parse (utf8_decode bytes) = Some data -> data <> JNull ->
    match js_get_opt (Some data) (js "text") with
    | None | Some JNull => True
    | Some (JStr s) => js_trim s = []
    | Some _ => False
    end ->
    guard_handler hmac_sha256 pats w en ev []
    = (inr (resp 200 (JSON_stringify (JObj [(js "allowed", JBool true);
                                           (js "transcript", JStr []);
                                           (js "guard_token", JStr (signGuardToken hmac_sha256 guardSecret
                                                                     (now_ms w / 1000 + 120)));
                                           (js "expires_at", JNum (now_ms w / 1000 + 120) 0)]))), [c]))
  /\ (forall hmac_sha256 pats w en apiKey guardSecret b a v data status bytes,
    nonempty (OPENAI_API_KEY en) = Some apiKey ->
    nonempty (GUARD_TOKEN_SECRET en) = Some guardSecret ->
    JSON_parse b = Some v ->
    js_get_opt (Some v) (js "transcript") = None ->
    js_get_opt (Some v) (js "text") = None ->
    js_get_opt (Some v) (js "audio_base64") = Some (JStr a) -> a <> [] ->
    string_valued (js_or (js_get_opt (Some v) (js "mime_type")) (Some (JStr (js "audio/wav")))) ->
    string_valued (js_or (js_get_opt (Some v) (js "model")) (Some (JStr (js "whisper-1")))) ->
    let c := CTranscribe (buffer_from_base64 a)
               (js_or (js_get_opt (Some v) (js "mime_type")) (Some (JStr (js "audio/wav"))))
               (js_or (js_get_opt (Some v) (js "model")) (Some (JStr (js "whisper-1")))) in
    respond w c = FResponse status bytes -> response_ok status = true ->
    JSON_parse (utf8_decode bytes) = Some data -> data <> JNull ->
    match js_get_opt (Some data) (js "text") with
    | None | Some JNull => True
    | Some (JStr s) => js_trim s = []
    | Some _ => False
    end ->
    edge_guard_handler hmac_sha256 pats w en (Some b) []
    = (inr (resp 200 (JSON_stringify (JObj [(js "allowed", JBool true);
                                           (js "transcript", JStr []);
                                           (js "guard_token", JStr (signGuardToken hmac_sha256 guardSecret
                                                                     (now_ms w / 1000 + 120)));
                                           (js "expires_at", JNum (now_ms w / 1000 + 120) 0)]))), [c]))
  /\ (forall pats w en apiKey b a v data status bytes,
    nonempty (OPENAI_API_KEY en) = Some apiKey ->
    JSON_parse b = Some v -> v <> JNull ->
    js_get_opt (Some v) (js "audio_base64") = Some (JStr a) -> a <> [] ->
    string_valued (js_or (js_get_opt (Some v) (js "mime_type")) (Some (JStr (js "audio/m4a")))) ->
    let c := CTranscribe (buffer_from_base64 a)
               (js_or (js_get_opt (Some v) (js "mime_type")) (Some (JStr (js "audio/m4a"))))
               (Some (JStr (js "whisper-1"))) in
    respond w c = FResponse status bytes -> response_ok status = true ->
    JSON_parse (utf8_decode bytes) = Some data -> data <> JNull ->
    match js_get_opt (Some data) (js "text") with
    | None | Some JNull => True
    | Some (JStr s) => js_trim s = []
    | Some _ => False
    end ->
    voice_chat_handler pats w en (Some b) [] = (inr (resp 400 (error_body (js "Empty transcript"))), [c])).
Proof.
  split; [|split].
  - intros. rewrite (guard_handler_empty_transcript hmac_sha256 pats w en ev apiKey guardSecret b a v data
                       status bytes); try assumption.
    apply guard_finish_empty.
  - intros. rewrite (edge_guard_handler_empty_transcript hmac_sha256 pats w en apiKey guardSecret b a v data
                       status bytes); try assumption.
    apply guard_finish_empty.
  - intros. apply (voice_chat_handler_empty_transcript pats w en apiKey b a v data status bytes);
      assumption.
Qed.

(** [C8] witness: the sample world's transcription service hears nothing
    in the audio ["AAAA"]; the guard handlers mint a token and the
    Voice-Chat handler reports the empty transcript. *)
Lemma empty_transcript_outcomes_witness :
  let v := JObj [(js "audio_base64", JStr (js "AAAA"))] in
  let data := JObj [(js "text", JStr [])] in
  let bytes := utf8_encode (JSON_stringify data) in
  guard_handler sample_hmac broad_tier sample_world sample_env
    (post_event [(js "audio_base64", JStr (js "AAAA"))]) []
  = (inr (resp 200 (JSON_stringify (JObj [(js "allowed", JBool true);
                                         (js "transcript", JStr []);
                                         (js "guard_token", JStr (signGuardToken sample_hmac (js "s3cret")
                                                                   (now_ms sample_world / 1000 + 120)));
                                         (js "expires_at", JNum (now_ms sample_world / 1000 + 120) 0)]))),
     [CTranscribe (buffer_from_base64 (js "AAAA"))
        (js_or (js_get_opt (session_payload v) (js "mime_type")) (Some (JStr (js "audio/wav"))))
        (js_or (js_get_opt (session_payload v) (js "model")) (Some (JStr (js "whisper-1"))))])
  /\ voice_chat_handler broad_tier sample_world sample_env (Some (JSON_stringify v)) []
     = (inr (resp 400 (error_body (js "Empty transcript"))),
        [CTranscribe (buffer_from_base64 (js "AAAA"))
           (js_or (js_get_opt (Some v) (js "mime_type")) (Some (JStr (js "audio/m4a"))))
           (Some (JStr (js "whisper-1")))]).
Proof.
  intros v data bytes. destruct empty_transcript_outcomes as (G & _ & V). split.
  - refine (G sample_hmac broad_tier sample_world sample_env
              (post_event [(js "audio_base64", JStr (js "AAAA"))]) (js "sk-test") (js "s3cret")
              (JSON_stringify v) (js "AAAA") v data 200 bytes
              eq_refl eq_refl eq_refl eq_refl _ _ _ _ _ _ _ _ _ _ _ _);
      try (vm_compute; reflexivity); try discriminate; vm_compute; exact I.
  - refine (V broad_tier sample_world sample_env (js "sk-test") (JSON_stringify v) (js "AAAA") v data
              200 bytes eq_refl _ _ _ _ _ _ _ _ _ _);
      try (vm_compute; reflexivity); try discriminate; vm_compute; exact I.
Defined.

(** [C8] counterexample: audio that the transcription service hears as
    nothing earns a guard token (status 200) from realtime-guard.ts, with
    no validation error. *)
Lemma guard_empty_transcript_mints :
  exists r,
    guard_handler sample_hmac broad_tier sample_world sample_env
      (post_event [(js "audio_base64", JStr (js "AAAA"))]) []
    = (inr r, [CTranscribe [0; 0; 0] (Some (JStr (js "audio/wav"))) (Some (JStr (js "whisper-1")))])
    /\ statusCode r = 200
    /\ resp_body r = JSON_stringify (JObj [(js "allowed", JBool true);
                                           (js "transcript", JStr []);
                                           (js "guard_token", JStr (signGuardToken sample_hmac (js "s3cret")
                                                                     1700000120));
                                           (js "expires_at", JNum 1700000120 0)]).
Proof. eexists. split; [vm_compute; reflexivity | split; vm_compute; reflexivity]. Qed.

(** ** Properties of the other handlers *)

Lemma bind_inr_inv {A B} (m : M A) (f : A -> M B) (tr : list call) (r : B) :
  fst (bind m f tr) = inr r -> exists a tr', m tr = (inr a, tr') /\ fst (f a tr') = inr r.
Proof.
  unfold bind. destruct (m tr) as [[e|a] tr']; cbn [fst]; [discriminate|].
  intros H. exists a, tr'. split; [reflexivity | exact H].
Qed.

Lemma try_inr_inv {A} (m : M A) (h : jsstr -> M A) (tr : list call) (r : A) :
  fst (try_catch m h tr) = inr r ->
  fst (m tr) = inr r \/ exists e tr', m tr = (inl e, tr') /\ fst (h e tr') = inr r.
Proof.
  unfold try_catch. destruct (m tr) as [[e|a] tr']; cbn [fst].
  - intros H. right. exists e, tr'. split; [reflexivity | exact H].
  - intros H. left. exact H.
Qed.

Lemma ret_inr {A} (a r : A) (tr : list call) : fst (ret a tr) = inr r -> r = a.
Proof. cbn. intros E. injection E as ->. reflexivity. Qed.

Lemma upstream_failure_status (message : jsstr) : statusCode (upstream_failure message) <> 200.
Proof. unfold upstream_failure. destruct (js_includes message (js "aborted")); discriminate. Qed.

Ltac run_inv H :=
  repeat match type of H with
  | fst (bind _ _ _) = inr _ =>
    let a := fresh "a" in let tr := fresh "tr" in let E := fresh "E" in
    apply bind_inr_inv in H as (a & tr & E & H); cbv beta iota zeta in H
  | fst (ret _ _) = inr _ => apply ret_inr in H; subst
  | fst ((if ?b then _ else _) _) = inr _ => let B := fresh "B" in destruct b eqn:B
  | fst ((let '(_, _) := ?x in _) _) = inr _ => destruct x
  end.

Lemma guard_finish_200 hmac_sha256 (pats : list regex) (w : world) (guardSecret t : jsstr)
    (tr : list call) (r : response) :
  fst (guard_finish hmac_sha256 pats w guardSecret t tr) = inr r -> statusCode r = 200 ->
  (t = [] \/ isBlockedHealthRequest pats t = false)
  /\ r = resp 200 (JSON_stringify (JObj [(js "allowed", JBool true); (js "transcript", JStr t);
           (js "guard_token", JStr (signGuardToken hmac_sha256 guardSecret (now_ms w / 1000 + 120)));
           (js "expires_at", JNum (now_ms w / 1000 + 120) 0)])).
Proof.
  unfold guard_finish. destruct t as [|c t].
  - intros H _. apply ret_inr in H. split; [left; reflexivity | exact H].
  - destruct (isBlockedHealthRequest pats (c :: t)) eqn:B; intros H Hs; apply ret_inr in H; subst r.
    + discriminate Hs.
    + split; [right; first [exact B | reflexivity] | reflexivity].
Qed.

Lemma offer_tail_nocall (status : Z) (bytes : list Z) :
  nocall (if negb (response_ok status) then ret (resp status (utf8_decode bytes))
          else ret (offer_answer bytes)).
Proof. destruct (negb (response_ok status)); apply nocall_ret. Qed.

Lemma try_fetch_response {A} (w : world) (c : call) (K : Z * list Z -> M A) (h : jsstr -> M A)
    (status : Z) (bytes : list Z) (tr : list call) :
  respond w c = FResponse status bytes ->
  try_catch (bind (fetch w c) K) h tr = try_catch (K (status, bytes)) h (tr ++ [c]).
Proof. intros Hr. unfold try_catch, bind, fetch. rewrite Hr. reflexivity. Qed.

Lemma try_fetch_error {A} (w : world) (c : call) (K : Z * list Z -> M A) (h : jsstr -> M A)
    (message : jsstr) (tr : list call) :
  respond w c = FError message ->
  try_catch (bind (fetch w c) K) h tr = h message (tr ++ [c]).
Proof. intros Hr. unfold try_catch, bind, fetch. rewrite Hr. reflexivity. Qed.

(** [X1] The offer handler of offer.ts (and part_001) makes no upstream call, or else the request is a POST, the API key is set, the body parses as JSON with a truthy [sdp], and the only call is the SDP offer. *)
Theorem offer_handler_calls (w : world) (en : env) (ev : event) :
  snd (offer_handler w en ev []) = []
  \/ (jsstr_eqb (httpMethod ev) (js "POST") = true /\ nonempty (OPENAI_API_KEY en) <> None /\
      exists v, JSON_parse (body_text ev) = Some v /\ truthy (js_get_opt (Some v) (js "sdp")) = true /\
      snd (offer_handler w en ev []) = [COffer None (js_get_opt (Some v) (js "sdp"))]).
Proof.
  unfold offer_handler. destruct (jsstr_eqb (httpMethod ev) (js "POST")) eqn:Hm; cbn [negb];
    [|left; reflexivity].
  destruct (nonempty (OPENAI_API_KEY en)) as [k|] eqn:Hk; [|left; reflexivity].
  unfold request_json, parse_json. destruct (JSON_parse (body_text ev)) as [v|] eqn:Hv;
    [|left; reflexivity].
  rewrite (bind_try_ret (b <- ret v ;; ret (inr b)) _ _ (inr v) [] (fun tr => eq_refl)). cbv beta iota.
  destruct (truthy (js_get_opt (Some v) (js "sdp"))) eqn:Hs; cbn [negb]; [|left; reflexivity].
  right. split; [reflexivity|]. split; [discriminate|]. exists v. split; [reflexivity|]. split; [exact Hs|].
  apply try_fetch_trace; [|intros; apply nocall_ret].
  intros [status bytes]. apply offer_tail_nocall.
Qed.

(** [X2] On a POST with the API key set, the offer handler of offer.ts answers an unparsable body with the invalid-JSON reply and a falsy [sdp] with the sdp-required reply, both without a call; otherwise it makes the one offer call and answers the upstream answer, the upstream status, or the 502/504 upstream failure. *)
Theorem offer_handler_outcomes (w : world) (en : env) (ev : event) :
  jsstr_eqb (httpMethod ev) (js "POST") = true -> nonempty (OPENAI_API_KEY en) <> None ->
  (JSON_parse (body_text ev) = None ->
     offer_handler w en ev [] = (inr (invalid_json (json_error w (body_text ev))), []))
  /\ (forall v, JSON_parse (body_text ev) = Some v -> truthy (js_get_opt (Some v) (js "sdp")) = false ->
     offer_handler w en ev [] = (inr sdp_required, []))
  /\ (forall v status bytes, JSON_parse (body_text ev) = Some v ->
     truthy (js_get_opt (Some v) (js "sdp")) = true ->
     respond w (COffer None (js_get_opt (Some v) (js "sdp"))) = FResponse status bytes ->
     offer_handler w en ev []
     = (inr (if response_ok status then offer_answer bytes else resp status (utf8_decode bytes)),
        [COffer None (js_get_opt (Some v) (js "sdp"))]))
  /\ (forall v message, JSON_parse (body_text ev) = Some v ->
     truthy (js_get_opt (Some v) (js "sdp")) = true ->
     respond w (COffer None (js_get_opt (Some v) (js "sdp"))) = FError message ->
     offer_handler w en ev [] = (inr (upstream_failure message), [COffer None (js_get_opt (Some v) (js "sdp"))])).
Proof.
  intros Hm Hk. unfold offer_handler. rewrite Hm. cbn [negb].
  destruct (nonempty (OPENAI_API_KEY en)) as [k|]; [|contradiction].
  unfold request_json, parse_json.
  split; [|split; [|split]].
  - intros Hv. rewrite Hv. reflexivity.
  - intros v Hv Hs. rewrite Hv.
    rewrite (bind_try_ret (b <- ret v ;; ret (inr b)) _ _ (inr v) [] (fun tr => eq_refl)). cbv beta iota.
    rewrite Hs. reflexivity.
  - intros v status bytes Hv Hs Hr. rewrite Hv.
    rewrite (bind_try_ret (b <- ret v ;; ret (inr b)) _ _ (inr v) [] (fun tr => eq_refl)). cbv beta iota.
    rewrite Hs. cbn [negb]. rewrite (try_fetch_ok _ _ _ _ status bytes Hr). cbv beta iota.
    destruct (response_ok status); reflexivity.
  - intros v message Hv Hs Hr. rewrite Hv.
    rewrite (bind_try_ret (b <- ret v ;; ret (inr b)) _ _ (inr v) [] (fun tr => eq_refl)). cbv beta iota.
    rewrite Hs. cbn [negb]. rewrite (try_fetch_error _ _ _ _ message [] Hr). reflexivity.
Qed.

Lemma offer_handler_outcomes_witness :
  let v := JObj [(js "sdp", JStr (js "v=0"))] in
  offer_handler sample_world sample_env (post_event [(js "sdp", JStr (js "v=0"))]) []
  = (inr (if response_ok 201 then offer_answer (utf8_encode (js "v=0"))
          else resp 201 (utf8_decode (utf8_encode (js "v=0")))),
     [COffer None (js_get_opt (Some v) (js "sdp"))]).
Proof.
  intros v.
  pose proof (proj1 (proj2 (proj2 (offer_handler_outcomes sample_world sample_env
            (post_event [(js "sdp", JStr (js "v=0"))]) eq_refl ltac:(discriminate))))
            v 201 (utf8_encode (js "v=0"))) as H.
  exact (H ltac:(vm_compute; reflexivity) ltac:(vm_compute; reflexivity) ltac:(vm_compute; reflexivity)).
Defined.

(** [X3] The first handler of offer.ts has no [try]: with the API key set, a body that does not parse and a failing offer fetch escape as exceptions. *)
Theorem offer_handler_v1_uncaught (w : world) (en : env) (ev : event) :
  nonempty (OPENAI_API_KEY en) <> None ->
  (JSON_parse (body_text ev) = None ->
     offer_handler_v1 w en ev [] = (inl (json_error w (body_text ev)), []))
  /\ (forall v message, JSON_parse (body_text ev) = Some v ->
     truthy (js_get_opt (Some v) (js "sdp")) = true ->
     respond w (COffer None (js_get_opt (Some v) (js "sdp"))) = FError message ->
     offer_handler_v1 w en ev [] = (inl message, [COffer None (js_get_opt (Some v) (js "sdp"))])).
Proof.
  intros Hk. unfold offer_handler_v1.
  destruct (nonempty (OPENAI_API_KEY en)) as [k|]; [|contradiction].
  unfold request_json, parse_json. split.
  - intros Hv. rewrite Hv. reflexivity.
  - intros v message Hv Hs Hr. rewrite Hv, bind_ret. rewrite Hs. cbn [negb].
    unfold bind, fetch. rewrite Hr. reflexivity.
Qed.

Lemma offer_handler_v1_uncaught_witness :
  let ev := {| httpMethod := js "GET"; event_body := Some (js "x") |} in
  offer_handler_v1 sample_world sample_env ev [] = (inl (json_error sample_world (body_text ev)), []).
Proof.
  intros ev.
  exact (proj1 (offer_handler_v1_uncaught sample_world sample_env ev ltac:(discriminate))
           ltac:(vm_compute; reflexivity)).
Defined.

Lemma truthy_field_nonnull (v : json) (k : jsstr) : truthy (js_get_opt (Some v) k) = true -> v <> JNull.
Proof. intros H ->. discriminate H. Qed.

(** [X4] The Netlify offer handler (part_005) answers an absent or empty body with 'Body is empty' and an unparsable body with the JSON error, with no upstream call. *)
Theorem netlify_offer_bad_body (w : world) (en : env) (ev : event) :
  httpMethod ev = js "POST" -> nonempty (OPENAI_API_KEY en) <> None ->
  ((event_body ev = None \/ event_body ev = Some []) ->
     netlify_offer_handler w en ev [] = (inr (invalid_json (js "Body is empty")), []))
  /\ (forall s, event_body ev = Some s -> s <> [] -> JSON_parse s = None ->
     netlify_offer_handler w en ev [] = (inr (invalid_json (json_error w s)), [])).
Proof.
  intros Hm Hk. unfold netlify_offer_handler. rewrite Hm, post_not_options, post_is_post. cbn [negb].
  destruct (nonempty (OPENAI_API_KEY en)) as [k|]; [|contradiction]. split.
  - intros [He|He]; rewrite He; reflexivity.
  - intros s He Hs Hp. rewrite He. destruct s as [|c s]; [contradiction|].
    unfold parse_json. rewrite Hp. reflexivity.
Qed.

(** [X5] The Netlify offer handler (part_005), when the model [body.model || envModel || default] is a string: a model with a lone surrogate makes [encodeURIComponent] throw before any call (a 502 'URI malformed'); otherwise the one offer call carries the model, and its answer, status or failure is passed on. *)
Theorem netlify_offer_outcomes (w : world) (en : env) (ev : event) (s : jsstr) (v : json) (m : jsstr) :
  httpMethod ev = js "POST" -> nonempty (OPENAI_API_KEY en) <> None ->
  event_body ev = Some s -> JSON_parse s = Some v -> truthy (js_get_opt (Some v) (js "sdp")) = true ->
  realtime_model en (js_get_opt (Some v) (js "model")) = Some (JStr m) ->
  (well_formed m = false ->
     netlify_offer_handler w en ev [] = (inr (upstream_failure (js "URI malformed")), []))
  /\ (forall status bytes, well_formed m = true ->
     respond w (COffer (Some (Some (JStr m))) (js_get_opt (Some v) (js "sdp"))) = FResponse status bytes ->
     netlify_offer_handler w en ev []
     = (inr (if response_ok status then offer_answer bytes else resp status (utf8_decode bytes)),
        [COffer (Some (Some (JStr m))) (js_get_opt (Some v) (js "sdp"))]))
  /\ (forall message, well_formed m = true ->
     respond w (COffer (Some (Some (JStr m))) (js_get_opt (Some v) (js "sdp"))) = FError message ->
     netlify_offer_handler w en ev []
     = (inr (upstream_failure message), [COffer (Some (Some (JStr m))) (js_get_opt (Some v) (js "sdp"))])).
Proof.
  intros Hm Hk He Hp Hs Hmod. unfold netlify_offer_handler. rewrite Hm, post_not_options, post_is_post.
  cbn [negb]. destruct (nonempty (OPENAI_API_KEY en)) as [k|]; [|contradiction].
  rewrite He. destruct s as [|c s]; [discriminate Hp|].
  assert (Hpm : forall tr, (b <- parse_json w (c :: s) ;; ret (@inr jsstr json b)) tr = (inr (inr v), tr))
    by (intros tr; unfold parse_json; rewrite Hp; reflexivity).
  assert (Hn := truthy_field_nonnull _ _ Hs).
  split; [|split].
  - intros Hu. rewrite (bind_try_ret _ _ _ _ [] Hpm). cbv beta iota. rewrite Hs. cbn [negb].
    rewrite bind_get by exact Hn. rewrite Hmod. cbn [uri_malformed]. rewrite Hu. reflexivity.
  - intros status bytes Hu Hr. rewrite (bind_try_ret _ _ _ _ [] Hpm). cbv beta iota. rewrite Hs.
    cbn [negb]. rewrite bind_get by exact Hn. rewrite Hmod. cbn [uri_malformed]. rewrite Hu. cbn [negb].
    rewrite (try_fetch_ok _ _ _ _ status bytes Hr). cbv beta iota.
    destruct (response_ok status); reflexivity.
  - intros message Hu Hr. rewrite (bind_try_ret _ _ _ _ [] Hpm). cbv beta iota. rewrite Hs.
    cbn [negb]. rewrite bind_get by exact Hn. rewrite Hmod. cbn [uri_malformed]. rewrite Hu. cbn [negb].
    rewrite (try_fetch_error _ _ _ _ message [] Hr). reflexivity.
Qed.

Lemma netlify_offer_bad_body_witness :
  let ev := {| httpMethod := js "POST"; event_body := Some [] |} in
  netlify_offer_handler sample_world sample_env ev [] = (inr (invalid_json (js "Body is empty")), []).
Proof.
  intros ev.
  exact (proj1 (netlify_offer_bad_body sample_world sample_env ev eq_refl ltac:(discriminate))
           (or_intror eq_refl)).
Defined.

Lemma netlify_offer_outcomes_witness :
  let v := JObj [(js "sdp", JStr (js "v=0")); (js "model", JStr [55296])] in
  let ev := {| httpMethod := js "POST"; event_body := Some (JSON_stringify v) |} in
  netlify_offer_handler sample_world sample_env ev [] = (inr (upstream_failure (js "URI malformed")), []).
Proof.
  intros v ev.
  exact (proj1 (netlify_offer_outcomes sample_world sample_env ev (JSON_stringify v) v [55296]
           eq_refl ltac:(discriminate) eq_refl ltac:(vm_compute; reflexivity) ltac:(vm_compute; reflexivity)
           ltac:(vm_compute; reflexivity)) ltac:(vm_compute; reflexivity)).
Defined.

Lemma bind_fetch_response {A} (w : world) (c : call) (K : Z * list Z -> M A)
    (status : Z) (bytes : list Z) (tr : list call) :
  respond w c = FResponse status bytes -> bind (fetch w c) K tr = K (status, bytes) (tr ++ [c]).
Proof. intros Hr. unfold bind, fetch. rewrite Hr. reflexivity. Qed.

Lemma bind_fetch_error {A} (w : world) (c : call) (K : Z * list Z -> M A)
    (message : jsstr) (tr : list call) :
  respond w c = FError message -> bind (fetch w c) K tr = (inl message, tr ++ [c]).
Proof. intros Hr. unfold bind, fetch. rewrite Hr. reflexivity. Qed.

(** [X6] When the session fetch fails, the first handler of session.ts answers 502 with the error details, the handler of part_002 lets the exception escape, and the session handler of guard.ts, on a POST whose JSON body has no truthy model, answers the 502/504 upstream failure. *)
Theorem edge_session_transport_failure (w : world) (en : env) (ev : event) (message : jsstr) :
  nonempty (OPENAI_API_KEY en) <> None ->
  let c := CSessionBasic (Some (JStr (js "gpt-4o-realtime-preview"))) in
  respond w c = FError message ->
  edge_session_handler_v1 w en []
  = (inr (resp 502 (JSON_stringify (JObj [(js "error", JStr (js "Upstream request failed"));
                                          (js "details", JStr message)]))), [c])
  /\ edge_session_handler_v2 w en [] = (inl message, [c])
  /\ (jsstr_eqb (httpMethod ev) (js "POST") = true ->
      forall v, JSON_parse (body_text ev) = Some v -> truthy (js_get_opt (Some v) (js "model")) = false ->
      edge_session_handler w en ev [] = (inr (upstream_failure message), [c])).
Proof.
  intros Hk c Hr. unfold edge_session_handler_v1, edge_session_handler_v2, edge_session_handler.
  destruct (nonempty (OPENAI_API_KEY en)) as [k|]; [|contradiction]. split; [|split].
  - unfold bind at 1, try_catch at 1. rewrite (bind_fetch_error _ _ _ _ [] Hr). reflexivity.
  - apply (bind_fetch_error _ _ _ _ [] Hr).
  - intros Hm v Hv Hmod. rewrite Hm. cbn [negb]. unfold request_json, parse_json. rewrite Hv, bind_ret.
    assert (Hc : js_or (js_get_opt (js_or (Some v) (Some (JObj []))) (js "model"))
                   (Some (JStr (js "gpt-4o-realtime-preview"))) = Some (JStr (js "gpt-4o-realtime-preview"))).
    { unfold js_or at 2. destruct (truthy (Some v)) eqn:Tv.
      - unfold js_or. rewrite Hmod. reflexivity.
      - reflexivity. }
    rewrite Hc. fold c. exact (try_fetch_error _ _ _ _ message [] Hr).
Qed.

Lemma edge_session_transport_failure_witness :
  let w := {| now_ms := 0; respond := fun _ => FError (js "This operation was aborted");
              json_error := fun _ => [] |} in
  let c := CSessionBasic (Some (JStr (js "gpt-4o-realtime-preview"))) in
  edge_session_handler_v1 w sample_env []
  = (inr (resp 502 (JSON_stringify (JObj [(js "error", JStr (js "Upstream request failed"));
                                          (js "details", JStr (js "This operation was aborted"))]))), [c])
  /\ edge_session_handler_v2 w sample_env [] = (inl (js "This operation was aborted"), [c])
  /\ edge_session_handler w sample_env (post_event []) []
     = (inr (upstream_failure (js "This operation was aborted")), [c]).
Proof.
  intros w c.
  destruct (edge_session_transport_failure w sample_env (post_event []) (js "This operation was aborted")
              ltac:(discriminate) eq_refl) as [H1 [H2 H3]].
  exact (conj H1 (conj H2 (H3 eq_refl (JObj []) ltac:(vm_compute; reflexivity) eq_refl))).
Defined.

Lemma nocall_session_reply (data : json) : nocall (session_reply data).
Proof. unfold session_reply. auto with nocall. Qed.

Lemma session_tail_nocall (w : world) (a : Z * list Z) :
  nocall (let '(status, bytes) := a in
          if negb (response_ok status) then ret (resp status (utf8_decode bytes))
          else data <- parse_json w (utf8_decode bytes) ;; session_reply data).
Proof.
  destruct a as [status bytes]. destruct (negb (response_ok status)).
  - apply nocall_ret.
  - apply nocall_bind; [apply nocall_parse_json | apply nocall_session_reply].
Qed.

Lemma js_or_object_nonnull (p : jsval) :
  exists q, js_or p (Some (JObj [])) = Some q /\ q <> JNull.
Proof.
  unfold js_or. destruct (truthy p) eqn:T.
  - destruct p as [q|]; [|discriminate T]. exists q. split; [reflexivity|]. intros ->. discriminate T.
  - exists (JObj []). split; [reflexivity | discriminate].
Qed.

(** [X7] The session handler of guard.ts reads the body before the API key: an unparsable body escapes as an exception and a missing key gives the 500, both with no call. *)
Theorem edge_session_body_first (w : world) (en : env) (ev : event) :
  jsstr_eqb (httpMethod ev) (js "POST") = true ->
  (JSON_parse (body_text ev) = None ->
     edge_session_handler w en ev [] = (inl (json_error w (body_text ev)), []))
  /\ (forall v, JSON_parse (body_text ev) = Some v -> nonempty (OPENAI_API_KEY en) = None ->
     edge_session_handler w en ev [] = (inr key_missing, [])).
Proof.
  intros Hm. unfold edge_session_handler, request_json, parse_json. rewrite Hm. cbn [negb]. split.
  - intros Hv. rewrite Hv. reflexivity.
  - intros v Hv Hk. rewrite Hv, bind_ret, Hk. reflexivity.
Qed.

Lemma edge_session_body_first_witness :
  let en := {| OPENAI_API_KEY := None; GUARD_TOKEN_SECRET := None; REALTIME_MODEL := None;
               CHAT_MODEL := None; TTS_MODEL := None; TTS_VOICE := None |} in
  let ev := {| httpMethod := js "POST"; event_body := Some (js "{") |} in
  edge_session_handler sample_world en ev [] = (inl (json_error sample_world (body_text ev)), []).
Proof.
  intros en ev. exact (proj1 (edge_session_body_first sample_world en ev eq_refl) ltac:(vm_compute; reflexivity)).
Defined.

(** [X8] The second session handler of session.ts, on a POST with the key set and a parsed body, makes exactly one session call with the model [body.model || env || default] and no transcription; a failing fetch gives the upstream failure reply. *)
Theorem plain_session_handler_calls (w : world) (en : env) (ev : event) (p : jsval) :
  httpMethod ev = js "POST" -> nonempty (OPENAI_API_KEY en) <> None ->
  parseBody w (event_body ev) = ret p ->
  snd (plain_session_handler w en ev [])
  = [CRealtime (realtime_model en (js_get_opt (js_or p (Some (JObj []))) (js "model"))) false]
  /\ (forall message,
      respond w (CRealtime (realtime_model en (js_get_opt (js_or p (Some (JObj []))) (js "model"))) false)
      = FError message ->
      fst (plain_session_handler w en ev []) = inr (upstream_failure message)).
Proof.
  intros Hm Hk Hp. unfold plain_session_handler. rewrite Hm, post_not_options, post_is_post. cbn [negb].
  destruct (nonempty (OPENAI_API_KEY en)) as [k|]; [|contradiction].
  rewrite Hp, bind_ret. destruct (js_or_object_nonnull p) as [q [Hq Hn]]. rewrite Hq.
  rewrite bind_get by exact Hn. split.
  - apply try_fetch_trace; [apply session_tail_nocall | intros; apply nocall_ret].
  - intros message Hr. rewrite (try_fetch_error _ _ _ _ message [] Hr). reflexivity.
Qed.

Lemma plain_session_handler_calls_witness :
  let ev := post_event [(js "user_text", JStr headache_question)] in
  let p := Some (JObj [(js "user_text", JStr headache_question)]) in
  snd (plain_session_handler sample_world sample_env ev [])
  = [CRealtime (realtime_model sample_env (js_get_opt (js_or p (Some (JObj []))) (js "model"))) false].
Proof.
  intros ev p.
  exact (proj1 (plain_session_handler_calls sample_world sample_env ev p eq_refl ltac:(discriminate)
           ltac:(vm_compute; reflexivity))).
Defined.

Lemma nocall_inr {A} (m : M A) (tr tr' : list call) (a : A) :
  nocall m -> m tr = (inr a, tr') -> tr' = tr.
Proof. intros Hm E. specialize (Hm tr). rewrite E in Hm. exact Hm. Qed.

Lemma fetch_inr {w c tr status bytes tr'} :
  fetch w c tr = (inr (status, bytes), tr') -> respond w c = FResponse status bytes /\ tr' = tr ++ [c].
Proof.
  unfold fetch. destruct (respond w c) as [s b|e]; [|discriminate].
  intros E. injection E as -> -> ->. split; reflexivity.
Qed.

Lemma bind_fetch_trace {A} (w : world) (c : call) (K : Z * list Z -> M A) :
  (forall a, nocall (K a)) -> snd (bind (fetch w c) K []) = [c].
Proof.
  intros HK. unfold bind, fetch. destruct (respond w c) as [status bytes | message]; cbn [app].
  - apply HK.
  - reflexivity.
Qed.

Lemma bind_step {A B} (m : M A) (f : A -> M B) (tr tr' : list call) (a : A) :
  m tr = (inr a, tr') -> bind m f tr = f a tr'.
Proof. intros E. unfold bind. rewrite E. reflexivity. Qed.

Lemma bind_stop {A B} (m : M A) (f : A -> M B) (tr tr' : list call) (e : jsstr) :
  m tr = (inl e, tr') -> bind m f tr = (inl e, tr').
Proof. intros E. unfold bind. rewrite E. reflexivity. Qed.

Lemma nocall_buffer_from (v : jsval) : nocall (buffer_from v).
Proof. intros tr. destruct v as [[]|]; reflexivity. Qed.

Lemma nocall_transcript_of_data (data : json) : nocall (transcript_of_data data).
Proof.
  unfold transcript_of_data. apply nocall_bind; [apply nocall_lift|].
  intros [[]|]; auto with nocall.
Qed.

(** [X9] The transcribe-check handler of guard.ts makes at most one call, a transcription, and every 200 it gives says allowed with a transcript that is empty or not blocked. *)
Theorem edge_transcribe_check_handler_contract (pats : list regex) (w : world) (en : env)
    (request : option jsstr) :
  (snd (edge_transcribe_check_handler pats w en request []) = []
   \/ exists audio mimeType model,
        snd (edge_transcribe_check_handler pats w en request []) = [CTranscribe audio mimeType model])
  /\ (forall r, fst (edge_transcribe_check_handler pats w en request []) = inr r -> statusCode r = 200 ->
      exists t, resp_body r = JSON_stringify (JObj [(js "allowed", JBool true); (js "transcript", JStr t)])
                /\ (t = [] \/ isBlockedHealthRequest pats t = false)).
Proof.
  unfold edge_transcribe_check_handler.
  destruct (nonempty (OPENAI_API_KEY en)) as [apiKey|].
  2:{ split; [left; reflexivity|]. intros r H. apply ret_inr in H. subst r. discriminate. }
  cbv zeta.
  match goal with |- context [if negb (truthy ?x) then _ else _] => destruct (negb (truthy x)) end.
  { split; [left; reflexivity|]. intros r H. apply ret_inr in H. subst r. discriminate. }
  split.
  - match goal with |- context [bind (buffer_from ?v) _ []] =>
      destruct (buffer_from v []) as [[e|audio] tr1] eqn:E1;
      pose proof (nocall_buffer_from v []) as N; rewrite E1 in N; cbn [snd] in N; subst tr1 end.
    + left. rewrite (bind_stop _ _ _ _ _ E1). reflexivity.
    + right. rewrite (bind_step _ _ _ _ _ E1). do 3 eexists. apply bind_fetch_trace. intros [status bytes].
      destruct (negb (response_ok status)); [apply nocall_ret|].
      apply nocall_bind; [apply nocall_parse_json | intros data].
      apply nocall_bind; [apply nocall_transcript_of_data | intros t].
      destruct (match t with [] => false | _ => isBlockedHealthRequest pats t end); apply nocall_ret.
  - intros r H Hs.
    apply bind_inr_inv in H as (audio & tr1 & E1 & H).
    apply (nocall_inr _ _ _ _ (nocall_buffer_from _)) in E1. subst tr1.
    apply bind_inr_inv in H as ([status bytes] & tr2 & E2 & H).
    apply fetch_inr in E2 as [Hr ->]. cbv beta iota in H.
    destruct (negb (response_ok status)) eqn:Ok.
    + apply ret_inr in H. subst r. cbn in Hs. subst status. discriminate Ok.
    + apply bind_inr_inv in H as (data & tr3 & E3 & H).
      apply bind_inr_inv in H as (t & tr4 & E4 & H).
      destruct t as [|c t'].
      * apply ret_inr in H. subst r. exists []. split; [reflexivity | left; reflexivity].
      * destruct (isBlockedHealthRequest pats (c :: t')) eqn:B.
        -- apply ret_inr in H. subst r. discriminate Hs.
        -- apply ret_inr in H. subst r. exists (c :: t'). split; [reflexivity | right; exact B].
Qed.

Lemma edge_transcribe_check_handler_contract_witness :
  let request := Some (JSON_stringify (JObj [(js "audio_base64", JStr (js "AAAA"))])) in
  let r := resp 200 (JSON_stringify (JObj [(js "allowed", JBool true); (js "transcript", JStr [])])) in
  exists t, resp_body r = JSON_stringify (JObj [(js "allowed", JBool true); (js "transcript", JStr t)])
            /\ (t = [] \/ isBlockedHealthRequest narrow_tier t = false).
Proof.
  intros request r.
  exact (proj2 (edge_transcribe_check_handler_contract narrow_tier sample_world sample_env request) r
           ltac:(vm_compute; reflexivity) eq_refl).
Defined.

Lemma nocall_parseBody (w : world) (b : option jsstr) : nocall (parseBody w b).
Proof. destruct b as [[|c s]|]; cbn [parseBody]; auto with nocall. Qed.

(** The re-check of the session handler either lets the request through
    or ends it: with [true] (a 403) or with a [TypeError]. *)
Lemma blocked_cases (pats : list regex) (userText : jsval) :
  (truthy userText = false
   \/ exists t, userText = Some (JStr t) /\ isBlockedHealthRequest pats t = false)
  \/ (forall tr, (if truthy userText then
                   match userText with
                   | Some (JStr s) => ret (isBlockedHealthRequest pats s)
                   | _ => throw type_error
                   end
                 else ret false) tr = (inr true, tr)
       \/ exists e, (if truthy userText then
                   match userText with
                   | Some (JStr s) => ret (isBlockedHealthRequest pats s)
                   | _ => throw type_error
                   end
                 else ret false) tr = (inl e, tr)).
Proof.
  destruct (truthy userText) eqn:T; [|left; left; reflexivity].
  destruct userText as [[| | | s | |]|]; try (right; intros tr; right; eexists; reflexivity).
  - destruct (isBlockedHealthRequest pats s) eqn:B.
    + right. intros tr. left. reflexivity.
    + left. right. exists s. split; [reflexivity | exact B].
Qed.

(** The token check of the session handler. *)
Lemma valid_cases hmac_sha256 (guard_token : jsval) (guardSecret : jsstr) (now : Z) :
  (exists token, guard_token = Some (JStr token)
                 /\ isValidGuardToken hmac_sha256 token guardSecret now = true
                 /\ forall tr, (if negb (truthy guard_token) then ret false
                                else match guard_token with
                                     | Some (JStr token) => ret (isValidGuardToken hmac_sha256 token guardSecret now)
                                     | _ => throw type_error
                                     end) tr = (inr true, tr))
  \/ (forall tr, (if negb (truthy guard_token) then ret false
                  else match guard_token with
                       | Some (JStr token) => ret (isValidGuardToken hmac_sha256 token guardSecret now)
                       | _ => throw type_error
                       end) tr = (inr false, tr)
       \/ exists e, (if negb (truthy guard_token) then ret false
                  else match guard_token with
                       | Some (JStr token) => ret (isValidGuardToken hmac_sha256 token guardSecret now)
                       | _ => throw type_error
                       end) tr = (inl e, tr)).
Proof.
  destruct (negb (truthy guard_token)) eqn:T; [right; intros tr; left; reflexivity|].
  destruct guard_token as [[| | | s | |]|]; try (right; intros tr; right; eexists; reflexivity).
  destruct (isValidGuardToken hmac_sha256 s guardSecret now) eqn:V.
  - left. exists s. split; [reflexivity|]. split; [exact V | intros tr; reflexivity].
  - right. intros tr. left. reflexivity.
Qed.

(** [X10] The session handler of session.ts makes no call unless the request is a POST, both secrets are set, the body parses, the user text is absent or not blocked, and the guard token is a valid string; then its only call is the realtime session. *)
Theorem session_handler_gate hmac_sha256 (pats : list regex) (transcription : bool)
    (w : world) (en : env) (ev : event) :
  snd (session_handler hmac_sha256 pats transcription w en ev []) = []
  \/ exists guardSecret parsed token model,
       httpMethod ev = js "POST" /\ nonempty (OPENAI_API_KEY en) <> None
       /\ nonempty (GUARD_TOKEN_SECRET en) = Some guardSecret
       /\ fst (parseBody w (event_body ev) []) = inr parsed
       /\ (truthy (session_user_text (js_or parsed (Some (JObj [])))) = false
           \/ exists t, session_user_text (js_or parsed (Some (JObj []))) = Some (JStr t)
                        /\ isBlockedHealthRequest pats t = false)
       /\ js_get_opt (js_or parsed (Some (JObj []))) (js "guard_token") = Some (JStr token)
       /\ isValidGuardToken hmac_sha256 token guardSecret (now_ms w / 1000) = true
       /\ snd (session_handler hmac_sha256 pats transcription w en ev []) = [CRealtime model transcription].
Proof.
  unfold session_handler.
  destruct (jsstr_eqb (httpMethod ev) (js "OPTIONS")); [left; reflexivity|].
  destruct (jsstr_eqb (httpMethod ev) (js "POST")) eqn:Hm; cbn [negb]; [|left; reflexivity].
  destruct (nonempty (OPENAI_API_KEY en)) as [apiKey|] eqn:Hk; [|left; reflexivity].
  destruct (nonempty (GUARD_TOKEN_SECRET en)) as [guardSecret|] eqn:Hs; [|left; reflexivity].
  destruct (parseBody w (event_body ev) []) as [[e|parsed] tr1] eqn:E1;
    pose proof (nocall_parseBody w (event_body ev) []) as N; rewrite E1 in N; cbn [snd] in N; subst tr1.
  { left. rewrite (bind_stop _ _ _ _ _ E1). reflexivity. }
  rewrite (bind_step _ _ _ _ _ E1). cbv beta zeta.
  destruct (js_or_object_nonnull parsed) as [q [Hq Hn]]. rewrite Hq. run_gets Hn.
  destruct (blocked_cases pats (session_user_text (Some q))) as [Hu | Hstop].
  2:{ left. destruct (Hstop []) as [E | [e E]].
      - unfold session_user_text in E. rewrite (bind_step _ _ _ _ _ E). reflexivity.
      - unfold session_user_text in E. rewrite (bind_stop _ _ _ _ _ E). reflexivity. }
  pose proof (blocked_step pats _ Hu) as Hb. unfold session_user_text in Hb.
  rewrite Hb, bind_ret. cbv beta iota. run_gets Hn.
  destruct (valid_cases hmac_sha256 (js_get_opt (Some q) (js "guard_token")) guardSecret (now_ms w / 1000))
    as [(token & Ht & Hv & E) | Hstop].
  2:{ left. destruct (Hstop []) as [E | [e E]].
      - rewrite (bind_step _ _ _ _ _ E). reflexivity.
      - rewrite (bind_stop _ _ _ _ _ E). reflexivity. }
  rewrite (bind_step _ _ _ _ _ (E [])). cbn [negb]. run_gets Hn.
  right. do 4 eexists.
  split; [apply jsstr_eqb_eq; exact Hm|]. split; [discriminate|]. split; [reflexivity|].
  split; [reflexivity|]. rewrite Hq. split; [exact Hu|]. split; [exact Ht|]. split; [exact Hv|].
  apply try_fetch_trace; [|intros; apply nocall_ret].
  intros [status bytes]. destruct (negb (response_ok status)); eauto with nocall.
Qed.

Lemma guard_handler_200 hmac_sha256 (pats : list regex) (w : world) (en : env) (ev : event) (r : response) :
  fst (guard_handler hmac_sha256 pats w en ev []) = inr r -> statusCode r = 200 ->
  r = resp 200 [] \/
  exists guardSecret t, nonempty (OPENAI_API_KEY en) <> None
    /\ nonempty (GUARD_TOKEN_SECRET en) = Some guardSecret
    /\ (t = [] \/ isBlockedHealthRequest pats t = false)
    /\ r = resp 200 (JSON_stringify (JObj [(js "allowed", JBool true); (js "transcript", JStr t);
             (js "guard_token", JStr (signGuardToken hmac_sha256 guardSecret (now_ms w / 1000 + 120)));
             (js "expires_at", JNum (now_ms w / 1000 + 120) 0)])).
Proof.
  intros H Hs. unfold guard_handler in H.
  destruct (jsstr_eqb (httpMethod ev) (js "OPTIONS")).
  { apply ret_inr in H. left. exact H. }
  destruct (negb (jsstr_eqb (httpMethod ev) (js "POST"))).
  { apply ret_inr in H. subst r. discriminate Hs. }
  destruct (nonempty (OPENAI_API_KEY en)) as [apiKey|] eqn:Hk; [|apply ret_inr in H; subst r; discriminate Hs].
  destruct (nonempty (GUARD_TOKEN_SECRET en)) as [guardSecret|] eqn:Hg;
    [|apply ret_inr in H; subst r; discriminate Hs].
  apply bind_inr_inv in H as ([message|parsed] & tr1 & E1 & H); cbv beta iota zeta in H.
  { apply ret_inr in H. subst r. discriminate Hs. }
  run_inv H.
  apply try_inr_inv in H as [H | (e & trx & Ex & H)].
  2:{ apply ret_inr in H. subst r. exfalso. exact (upstream_failure_status e Hs). }
  run_inv H;
    try (apply guard_finish_200 in H as [Ht Hr]; [right; exists guardSecret; eexists;
         split; [discriminate | split; [reflexivity | split; eassumption]] | exact Hs]);
    first [discriminate Hs | cbn in Hs; subst; match goal with Hok : negb (response_ok 200) = true |- _ => discriminate Hok end].
Qed.

Lemma edge_guard_handler_200 hmac_sha256 (pats : list regex) (w : world) (en : env)
    (request : option jsstr) (r : response) :
  fst (edge_guard_handler hmac_sha256 pats w en request []) = inr r -> statusCode r = 200 ->
  exists guardSecret t, nonempty (OPENAI_API_KEY en) <> None
    /\ nonempty (GUARD_TOKEN_SECRET en) = Some guardSecret
    /\ (t = [] \/ isBlockedHealthRequest pats t = false)
    /\ r = resp 200 (JSON_stringify (JObj [(js "allowed", JBool true); (js "transcript", JStr t);
             (js "guard_token", JStr (signGuardToken hmac_sha256 guardSecret (now_ms w / 1000 + 120)));
             (js "expires_at", JNum (now_ms w / 1000 + 120) 0)])).
Proof.
  intros H Hs. unfold edge_guard_handler in H.
  destruct (nonempty (OPENAI_API_KEY en)) as [apiKey|] eqn:Hk; [|apply ret_inr in H; subst r; discriminate Hs].
  destruct (nonempty (GUARD_TOKEN_SECRET en)) as [guardSecret|] eqn:Hg;
    [|apply ret_inr in H; subst r; discriminate Hs].
  cbv zeta in H. run_inv H;
    try (apply guard_finish_200 in H as [Ht Hr]; [exists guardSecret; eexists;
         split; [discriminate | split; [reflexivity | split; eassumption]] | exact Hs]);
    first [discriminate Hs | cbn in Hs; subst; match goal with Hok : negb (response_ok 200) = true |- _ => discriminate Hok end].
Qed.

(** [X11] Every 200 of the guard handlers (realtime-guard.ts and guard.ts) is the preflight reply or says allowed with an empty or unblocked transcript and a token minted with the guard secret, expiring 120 s after now. *)
Theorem guard_handlers_allowed hmac_sha256 (pats : list regex) (w : world) (en : env) :
  (forall ev r, fst (guard_handler hmac_sha256 pats w en ev []) = inr r -> statusCode r = 200 ->
     r = resp 200 [] \/
     exists guardSecret t, nonempty (GUARD_TOKEN_SECRET en) = Some guardSecret
       /\ (t = [] \/ isBlockedHealthRequest pats t = false)
       /\ r = resp 200 (JSON_stringify (JObj [(js "allowed", JBool true); (js "transcript", JStr t);
                (js "guard_token", JStr (signGuardToken hmac_sha256 guardSecret (now_ms w / 1000 + 120)));
                (js "expires_at", JNum (now_ms w / 1000 + 120) 0)])))
  /\ (forall request r, fst (edge_guard_handler hmac_sha256 pats w en request []) = inr r -> statusCode r = 200 ->
     exists guardSecret t, nonempty (GUARD_TOKEN_SECRET en) = Some guardSecret
       /\ (t = [] \/ isBlockedHealthRequest pats t = false)
       /\ r = resp 200 (JSON_stringify (JObj [(js "allowed", JBool true); (js "transcript", JStr t);
                (js "guard_token", JStr (signGuardToken hmac_sha256 guardSecret (now_ms w / 1000 + 120)));
                (js "expires_at", JNum (now_ms w / 1000 + 120) 0)]))).
Proof.
  split.
  - intros ev r H Hs. destruct (guard_handler_200 _ _ _ _ _ _ H Hs) as [E | (g & t & _ & Hg & Ht & E)].
    + left. exact E.
    + right. exists g, t. auto.
  - intros request r H Hs. destruct (edge_guard_handler_200 _ _ _ _ _ _ H Hs) as (g & t & _ & Hg & Ht & E).
    exists g, t. auto.
Qed.

Lemma minted_token_valid hmac_sha256 (secret : jsstr) (e now : Z) :
  e <> 0 -> isValidGuardToken hmac_sha256 (signGuardToken hmac_sha256 secret e) secret now = (now <=? e).
Proof.
  intros He. unfold isValidGuardToken. rewrite split_guard_token, jsstr_eqb_refl.
  cbn [negb]. rewrite check_minted_payload. destruct (Z.eqb_spec e 0); [contradiction | reflexivity].
Qed.

(** The session handler, once its re-check passes, on a request whose
    token is a string. *)
Lemma session_token_step hmac_sha256 (pats : list regex) (transcription : bool)
    (w : world) (en : env) (ev : event) (guardSecret b token : jsstr) (v : json) :
  httpMethod ev = js "POST" ->
  nonempty (OPENAI_API_KEY en) <> None ->
  nonempty (GUARD_TOKEN_SECRET en) = Some guardSecret ->
  event_body ev = Some b -> JSON_parse b = Some v ->
  (truthy (session_user_text (session_payload v)) = false
   \/ exists t, session_user_text (session_payload v) = Some (JStr t)
                /\ isBlockedHealthRequest pats t = false) ->
  js_get_opt (session_payload v) (js "guard_token") = Some (JStr token) ->
  (isValidGuardToken hmac_sha256 token guardSecret (now_ms w / 1000) = false ->
     session_handler hmac_sha256 pats transcription w en ev [] = (inr (resp 403 guard_failed_body), []))
  /\ (isValidGuardToken hmac_sha256 token guardSecret (now_ms w / 1000) = true ->
     snd (session_handler hmac_sha256 pats transcription w en ev [])
     = [CRealtime (realtime_model en (js_get_opt (session_payload v) (js "model"))) transcription]).
Proof.
  intros Hm Hk Hs Hb Hv Hu Htok. unfold session_handler.
  rewrite Hm, post_not_options, post_is_post, Hs, Hb. cbn [negb].
  destruct (nonempty (OPENAI_API_KEY en)) as [apiKey|]; [|contradiction].
  rewrite (parseBody_ok w b v Hv), bind_ret. cbv beta.
  destruct (session_payload_nonnull v) as (p & Hp & Hnn).
  unfold session_payload in Hp, Hu, Htok |- *.
  rewrite Hp in Hu, Htok |- *. run_gets Hnn. unfold session_user_text in Hu.
  rewrite (blocked_step pats _ Hu), bind_ret. cbv beta iota.
  run_gets Hnn. rewrite Htok.
  destruct token as [|c token].
  { split; [intros _; reflexivity | intros Hval; discriminate Hval]. }
  cbn [truthy negb]. rewrite bind_ret. split.
  - intros Hval. rewrite Hval. reflexivity.
  - intros Hval. rewrite Hval. cbn [negb]. run_gets Hnn. cbv zeta.
    apply try_fetch_trace; [|intros; apply nocall_ret].
    intros [status bytes]. cbv beta iota. destruct (negb (response_ok status)); eauto with nocall.
Qed.

(** [X12] A token issued in a 200 of the guard handler opens the session handler: a session request carrying it with acceptable text gets the realtime session call until 120 s after issue, and the 403 with no call after that. *)
Theorem guard_then_session hmac_sha256 (pats_guard pats_session : list regex) (transcription : bool)
    (w w' : world) (en : env) (ev : event) (r : response) :
  0 <= now_ms w ->
  fst (guard_handler hmac_sha256 pats_guard w en ev []) = inr r -> statusCode r = 200 -> r <> resp 200 [] ->
  exists t token,
    resp_body r = JSON_stringify (JObj [(js "allowed", JBool true); (js "transcript", JStr t);
                                        (js "guard_token", JStr token);
                                        (js "expires_at", JNum (now_ms w / 1000 + 120) 0)])
    /\ forall ev' b v,
       httpMethod ev' = js "POST" -> event_body ev' = Some b -> JSON_parse b = Some v ->
       (truthy (session_user_text (session_payload v)) = false
        \/ exists t', session_user_text (session_payload v) = Some (JStr t')
                      /\ isBlockedHealthRequest pats_session t' = false) ->
       js_get_opt (session_payload v) (js "guard_token") = Some (JStr token) ->
       (now_ms w' / 1000 <= now_ms w / 1000 + 120 ->
          snd (session_handler hmac_sha256 pats_session transcription w' en ev' [])
          = [CRealtime (realtime_model en (js_get_opt (session_payload v) (js "model"))) transcription])
       /\ (now_ms w / 1000 + 120 < now_ms w' / 1000 ->
          session_handler hmac_sha256 pats_session transcription w' en ev' []
          = (inr (resp 403 guard_failed_body), [])).
Proof.
  intros Hw H Hs Hpre.
  destruct (guard_handler_200 _ _ _ _ _ _ H Hs) as [E | (g & t & Hk & Hg & _ & E)]; [contradiction|].
  subst r. exists t, (signGuardToken hmac_sha256 g (now_ms w / 1000 + 120)). split; [reflexivity|].
  intros ev' b v Hm Hb Hv Hu Htok.
  assert (He : now_ms w / 1000 + 120 <> 0).
  { pose proof (Z.div_pos (now_ms w) 1000 Hw ltac:(lia)). lia. }
  destruct (session_token_step hmac_sha256 pats_session transcription w' en ev' g b _ v Hm Hk Hg Hb Hv Hu Htok)
    as [Hno Hyes].
  rewrite minted_token_valid in Hno, Hyes by exact He.
  split.
  - intros Hle. apply Hyes, Z.leb_le, Hle.
  - intros Hlt. apply Hno, Z.leb_gt, Hlt.
Qed.

Lemma guard_then_session_witness :
  let r := resp 200 (JSON_stringify (JObj [(js "allowed", JBool true); (js "transcript", JStr (js "hi"));
             (js "guard_token", JStr (signGuardToken sample_hmac (js "s3cret") (now_ms sample_world / 1000 + 120)));
             (js "expires_at", JNum (now_ms sample_world / 1000 + 120) 0)])) in
  exists t token,
    resp_body r = JSON_stringify (JObj [(js "allowed", JBool true); (js "transcript", JStr t);
                                        (js "guard_token", JStr token);
                                        (js "expires_at", JNum (now_ms sample_world / 1000 + 120) 0)])
    /\ forall ev' b v,
       httpMethod ev' = js "POST" -> event_body ev' = Some b -> JSON_parse b = Some v ->
       (truthy (session_user_text (session_payload v)) = false
        \/ exists t', session_user_text (session_payload v) = Some (JStr t')
                      /\ isBlockedHealthRequest broad_tier t' = false) ->
       js_get_opt (session_payload v) (js "guard_token") = Some (JStr token) ->
       (now_ms sample_world / 1000 <= now_ms sample_world / 1000 + 120 ->
          snd (session_handler sample_hmac broad_tier true sample_world sample_env ev' [])
          = [CRealtime (realtime_model sample_env (js_get_opt (session_payload v) (js "model"))) true])
       /\ (now_ms sample_world / 1000 + 120 < now_ms sample_world / 1000 ->
          session_handler sample_hmac broad_tier true sample_world sample_env ev' []
          = (inr (resp 403 guard_failed_body), [])).
Proof.
  intros r.
  exact (guard_then_session sample_hmac broad_tier broad_tier true sample_world sample_world sample_env
           (post_event [(js "text", JStr (js "hi"))]) r ltac:(vm_compute; discriminate)
           ltac:(vm_compute; reflexivity) eq_refl ltac:(discriminate)).
Defined.


Lemma guard_handlers_allowed_witness :
  let r := resp 200 (JSON_stringify (JObj [(js "allowed", JBool true); (js "transcript", JStr (js "hi"));
             (js "guard_token", JStr (signGuardToken sample_hmac (js "s3cret") (now_ms sample_world / 1000 + 120)));
             (js "expires_at", JNum (now_ms sample_world / 1000 + 120) 0)])) in
  exists guardSecret t, nonempty (GUARD_TOKEN_SECRET sample_env) = Some guardSecret
    /\ (t = [] \/ isBlockedHealthRequest broad_tier t = false)
    /\ r = resp 200 (JSON_stringify (JObj [(js "allowed", JBool true); (js "transcript", JStr t);
             (js "guard_token", JStr (signGuardToken sample_hmac guardSecret (now_ms sample_world / 1000 + 120)));
             (js "expires_at", JNum (now_ms sample_world / 1000 + 120) 0)])).
Proof.
  intros r.
  exact (proj2 (guard_handlers_allowed sample_hmac broad_tier sample_world sample_env)
           (Some (JSON_stringify (JObj [(js "text", JStr (js "hi"))]))) r
           ltac:(vm_compute; reflexivity) eq_refl).
Defined.


Lemma calls_ok_nocall {A} (P : call -> Prop) (m : M A) : nocall m -> calls_ok P m.
Proof. intros H tr. exists []. rewrite app_nil_r. split; [apply H | constructor]. Qed.

Lemma calls_ok_bind {A B} (P : call -> Prop) (m : M A) (f : A -> M B) :
  calls_ok P m -> (forall a, calls_ok P (f a)) -> calls_ok P (bind m f).
Proof.
  intros Hm Hf tr. unfold bind. destruct (Hm tr) as (tr1 & E1 & F1).
  destruct (m tr) as [[e|a] tr']; cbn [snd] in E1 |- *; subst tr'.
  - exists tr1. split; [reflexivity | exact F1].
  - destruct (Hf a (tr ++ tr1)) as (tr2 & E2 & F2). exists (tr1 ++ tr2). rewrite E2, app_assoc.
    split; [reflexivity | apply Forall_app; split; assumption].
Qed.

Lemma calls_ok_fetch (P : call -> Prop) (w : world) (c : call) : P c -> calls_ok P (fetch w c).
Proof.
  intros H tr. exists [c]. unfold fetch.
  split; [destruct (respond w c); reflexivity | constructor; [exact H | constructor]].
Qed.

Lemma nocall_reply_of (chatData : json) : nocall (reply_of chatData).
Proof.
  unfold reply_of. apply nocall_bind; [apply nocall_lift|]. intros choices. cbv zeta.
  destruct (js_get_opt (js_get_opt (js_index0 choices) (js "message")) (js "content")) as [[]|];
    auto with nocall.
Qed.

Ltac calls_ok_step :=
  match goal with
  | |- calls_ok _ (bind _ _) => apply calls_ok_bind; [|intros ?]
  | |- calls_ok _ (fetch _ _) => apply calls_ok_fetch
  | |- calls_ok _ (ret _) => apply calls_ok_nocall, nocall_ret
  | |- calls_ok _ (throw _) => apply calls_ok_nocall, nocall_throw
  | |- calls_ok _ (lift _) => apply calls_ok_nocall, nocall_lift
  | |- calls_ok _ (parse_json _ _) => apply calls_ok_nocall, nocall_parse_json
  | |- calls_ok _ (buffer_from _) => apply calls_ok_nocall, nocall_buffer_from
  | |- calls_ok _ (transcript_of_data _) => apply calls_ok_nocall, nocall_transcript_of_data
  | |- calls_ok _ (reply_of _) => apply calls_ok_nocall, nocall_reply_of
  | |- calls_ok _ (if ?b then _ else _) => let B := fresh "B" in destruct b eqn:B
  | |- calls_ok _ (let '(_, _) := ?x in _) => destruct x
  | |- calls_ok _ (let _ := _ in _) => cbv zeta
  end.

(** [X13] The Voice-Chat handler (part_000) only ever sends a non-empty, unblocked transcript to the chat model. *)
Theorem voice_chat_chat_calls (pats : list regex) (w : world) (en : env) (request : option jsstr) :
  Forall (fun c => match c with
                   | CChat _ transcript => transcript <> [] /\ isBlockedHealthRequest pats transcript = false
                   | _ => True
                   end)
         (snd (voice_chat_handler pats w en request [])).
Proof.
  assert (H : calls_ok (fun c => match c with
                   | CChat _ transcript => transcript <> [] /\ isBlockedHealthRequest pats transcript = false
                   | _ => True
                   end) (voice_chat_handler pats w en request)).
  { unfold voice_chat_handler.
    destruct (nonempty (OPENAI_API_KEY en)); [|repeat calls_ok_step].
    cbv zeta. destruct request as [t|]; [destruct (JSON_parse t)|]; repeat calls_ok_step; try exact I.
    all: split; [discriminate | assumption]. }
  destruct (H []) as (tr' & E & F). rewrite E. exact F.
Qed.

(** [X14] When the MIME type [payload.mime_type || 'audio/m4a'] is a string, the Voice-Chat handler answers a blocked transcript with the refusal text, blocked: true and the transcript, after the transcription call alone. *)
Theorem voice_chat_blocked (pats : list regex) (w : world) (en : env) (s : jsstr) (payload : json)
    (a : jsstr) (status : Z) (bytes : list Z) (data : json) (t : jsstr) :
  nonempty (OPENAI_API_KEY en) <> None ->
  JSON_parse s = Some payload ->
  js_get_opt (Some payload) (js "audio_base64") = Some (JStr a) -> a <> [] ->
  string_valued (js_or (js_get_opt (Some payload) (js "mime_type")) (Some (JStr (js "audio/m4a")))) ->
  respond w (CTranscribe (buffer_from_base64 a)
               (js_or (js_get_opt (Some payload) (js "mime_type")) (Some (JStr (js "audio/m4a"))))
               (Some (JStr (js "whisper-1")))) = FResponse status bytes ->
  response_ok status = true -> JSON_parse (utf8_decode bytes) = Some data ->
  transcript_of_data data = ret t -> t <> [] -> isBlockedHealthRequest pats t = true ->
  voice_chat_handler pats w en (Some s) []
  = (inr (resp 200 (JSON_stringify (JObj [(js "response", JStr refusalText); (js "blocked", JBool true);
                                          (js "transcript", JStr t)]))),
     [CTranscribe (buffer_from_base64 a)
        (js_or (js_get_opt (Some payload) (js "mime_type")) (Some (JStr (js "audio/m4a"))))
        (Some (JStr (js "whisper-1")))]).
Proof.
  intros Hk Hp Ha Hne _ Hr Hok Hd Ht Htne Hb. unfold voice_chat_handler.
  destruct (nonempty (OPENAI_API_KEY en)) as [apiKey|]; [|contradiction].
  cbv zeta. rewrite Hp.
  assert (Hn : payload <> JNull).
  { apply (truthy_field_nonnull _ (js "audio_base64")). rewrite Ha.
    destruct a; [contradiction | reflexivity]. }
  unfold lift at 1. rewrite js_get_nonnull by exact Hn. rewrite bind_ret, Ha.
  destruct a as [|x a]; [contradiction|]. cbn [truthy negb].
  unfold lift at 1. rewrite js_get_nonnull by exact Hn. rewrite bind_ret.
  cbn [buffer_from]. rewrite bind_ret.
  rewrite (bind_fetch_response _ _ _ _ _ [] Hr). cbv beta iota. rewrite Hok. cbn [negb].
  unfold parse_json at 1. rewrite Hd, bind_ret, Ht, bind_ret.
  destruct t as [|y t]; [contradiction|]. rewrite Hb. reflexivity.
Qed.

Lemma voice_chat_blocked_witness :
  let w := {| now_ms := 0;
              respond := fun _ => FResponse 200 (utf8_encode (JSON_stringify (JObj [(js "text", JStr (js "my diet"))])));
              json_error := fun _ => [] |} in
  let payload := JObj [(js "audio_base64", JStr (js "AAAA"))] in
  voice_chat_handler narrow_tier w sample_env (Some (JSON_stringify payload)) []
  = (inr (resp 200 (JSON_stringify (JObj [(js "response", JStr refusalText); (js "blocked", JBool true);
                                          (js "transcript", JStr (js "my diet"))]))),
     [CTranscribe (buffer_from_base64 (js "AAAA"))
        (js_or (js_get_opt (Some payload) (js "mime_type")) (Some (JStr (js "audio/m4a"))))
        (Some (JStr (js "whisper-1")))]).
Proof.
  intros w payload.
  exact (voice_chat_blocked narrow_tier w sample_env (JSON_stringify payload) payload (js "AAAA") 200
           (utf8_encode (JSON_stringify (JObj [(js "text", JStr (js "my diet"))])))
           (JObj [(js "text", JStr (js "my diet"))]) (js "my diet")
           ltac:(discriminate) ltac:(vm_compute; reflexivity) eq_refl ltac:(discriminate)
           ltac:(vm_compute; exact I) eq_refl eq_refl
           ltac:(vm_compute; reflexivity) ltac:(vm_compute; reflexivity) ltac:(discriminate)
           ltac:(vm_compute; reflexivity)).
Defined.


(** *** UTF-8 round trip *)

Lemma lor_low (a b k : Z) : 0 <= k -> 0 <= b < 2 ^ k -> Z.lor (a * 2 ^ k) b = a * 2 ^ k + b.
Proof.
  intros Hk Hb.
  assert (D : Z.land (a * 2 ^ k) b = 0).
  { apply Z.bits_inj'. intros i Hi. rewrite Z.land_spec, Z.bits_0.
    rewrite <- Z.shiftl_mul_pow2 by lia. destruct (Z.lt_ge_cases i k) as [Hlt|Hge].
    - rewrite Z.shiftl_spec_low by lia. reflexivity.
    - destruct (Z.eq_dec b 0) as [->|Hb0]; [rewrite Z.bits_0; apply andb_false_r|].
      assert (Hl : Z.log2 b < k) by (apply Z.log2_lt_pow2; lia).
      rewrite (Z.bits_above_log2 b i) by lia. apply andb_false_r. }
  rewrite <- Z.lxor_lor by exact D. rewrite <- Z.add_nocarry_lxor by exact D. reflexivity.
Qed.

Lemma land_low (x : Z) (k : Z) : 0 <= k -> Z.land x (2 ^ k - 1) = x mod 2 ^ k.
Proof. intros Hk. rewrite <- Z.land_ones by exact Hk. rewrite Z.ones_equiv. reflexivity. Qed.

Lemma land_mask (x : Z) (k m : Z) : 0 <= k -> m = 2 ^ k - 1 -> Z.land x m = x mod 2 ^ k.
Proof. intros Hk ->. apply land_low, Hk. Qed.

Lemma lor_shift (a b k : Z) : 0 <= k -> 0 <= b < 2 ^ k -> Z.lor (Z.shiftl a k) b = a * 2 ^ k + b.
Proof. intros Hk Hb. rewrite Z.shiftl_mul_pow2 by exact Hk. apply lor_low; assumption. Qed.

Lemma lor_prefix (p k x : Z) (c : Z) : 0 <= k -> c = p * 2 ^ k -> 0 <= x < 2 ^ k -> Z.lor c x = c + x.
Proof. intros Hk -> Hx. apply lor_low; assumption. Qed.

Ltac zb :=
  repeat match goal with
  | H : (_ && _) = true |- _ => apply andb_true_iff in H as [? ?]
  | H : (_ && _) = false |- _ => apply andb_false_iff in H as [?|?]
  | H : (_ <? _) = true |- _ => apply Z.ltb_lt in H
  | H : (_ <? _) = false |- _ => apply Z.ltb_ge in H
  | H : (_ <=? _) = true |- _ => apply Z.leb_le in H
  | H : (_ <=? _) = false |- _ => apply Z.leb_gt in H
  | H : negb _ = true |- _ => apply negb_true_iff in H
  | H : negb _ = false |- _ => apply negb_false_iff in H
  | H : is_cont _ = _ |- _ => unfold is_cont in H
  end.

Ltac pw :=
  repeat match goal with
  | |- context [2 ^ Zpos ?k] => let v := eval vm_compute in (2 ^ Zpos k) in change (2 ^ Zpos k) with v
  end.

Ltac zlia := pw; Z.to_euclidean_division_equations; lia.

Ltac zl := (rewrite ?Z.shiftr_div_pow2, ?Z.shiftl_mul_pow2 by lia); zlia.

Ltac branch :=
  match goal with |- context [if ?b then _ else _] => let E := fresh "E" in destruct b eqn:E end.

Lemma dec2 (c : Z) (r : list Z) : 0x80 <= c < 0x800 ->
  utf8_decode ([Z.lor 0xC0 (Z.shiftr c 6); Z.lor 0x80 (Z.land c 0x3F)] ++ r) = c :: utf8_decode r.
Proof.
  intros H.
  rewrite (lor_prefix 6 5 (Z.shiftr c 6)) by zl.
  rewrite (land_mask c 6) by zl.
  rewrite (lor_prefix 2 6) by zl.
  rewrite Z.shiftr_div_pow2 by lia. pw. cbn [app utf8_decode].
  repeat (branch; try (exfalso; zb; zlia)).
  f_equal.
  rewrite (land_mask _ 5), (land_mask _ 6) by zl.
  rewrite lor_shift by zl. zlia.
Qed.

Lemma cp3_eq (b c1 c2 : Z) :
  Z.lor (Z.shiftl (Z.land b 0x0F) 12) (Z.lor (Z.shiftl (Z.land c1 0x3F) 6) (Z.land c2 0x3F))
  = b mod 16 * 4096 + (c1 mod 64 * 64 + c2 mod 64).
Proof.
  rewrite (land_mask b 4), (land_mask c1 6), (land_mask c2 6) by zl.
  rewrite (lor_shift (c1 mod 2 ^ 6)) by zl.
  rewrite lor_shift by zl. zlia.
Qed.

Lemma cp4_eq (b c1 c2 c3 : Z) :
  Z.lor (Z.shiftl (Z.land b 0x07) 18)
    (Z.lor (Z.shiftl (Z.land c1 0x3F) 12) (Z.lor (Z.shiftl (Z.land c2 0x3F) 6) (Z.land c3 0x3F)))
  = b mod 8 * 262144 + (c1 mod 64 * 4096 + (c2 mod 64 * 64 + c3 mod 64)).
Proof.
  rewrite (land_mask b 3), (land_mask c1 6), (land_mask c2 6), (land_mask c3 6) by zl.
  rewrite (lor_shift (c2 mod 2 ^ 6)) by zl.
  rewrite (lor_shift (c1 mod 2 ^ 6)) by zl.
  rewrite lor_shift by zl. zlia.
Qed.

Lemma mod_prefix (p k x : Z) : 0 <= k -> 0 <= x < 2 ^ k -> (p * 2 ^ k + x) mod 2 ^ k = x.
Proof.
  intros Hk Hx. rewrite Z.add_comm, Z.mod_add by lia. apply Z.mod_small, Hx.
Qed.

Lemma dec3 (c : Z) (r : list Z) : 0x800 <= c < 0x10000 -> (c < 0xD800 \/ 0xDFFF < c) ->
  utf8_decode ([Z.lor 0xE0 (Z.shiftr c 12); Z.lor 0x80 (Z.land (Z.shiftr c 6) 0x3F);
                Z.lor 0x80 (Z.land c 0x3F)] ++ r) = c :: utf8_decode r.
Proof.
  intros H Hs.
  rewrite (lor_prefix 14 4 (Z.shiftr c 12)) by zl.
  rewrite (land_mask (Z.shiftr c 6) 6), (land_mask c 6) by zl.
  rewrite (lor_prefix 2 6 (Z.shiftr c 6 mod 2 ^ 6)) by zl.
  rewrite (lor_prefix 2 6 (c mod 2 ^ 6)) by zl.
  cbn [app utf8_decode]. rewrite cp3_eq.
  rewrite !Z.shiftr_div_pow2 by lia. pw.
  assert (Hcp : (224 + c / 4096) mod 16 * 4096
                + ((128 + c / 64 mod 64) mod 64 * 64 + (128 + c mod 64) mod 64) = c) by zlia.
  rewrite Hcp.
  repeat (branch; try (exfalso; zb; zlia)).
  reflexivity.
Qed.

Lemma dec4 (hi lo : Z) (r : list Z) : 0xD800 <= hi <= 0xDBFF -> 0xDC00 <= lo <= 0xDFFF ->
  let cp := 0x10000 + Z.shiftl (hi - 0xD800) 10 + (lo - 0xDC00) in
  utf8_decode ([Z.lor 0xF0 (Z.shiftr cp 18); Z.lor 0x80 (Z.land (Z.shiftr cp 12) 0x3F);
                Z.lor 0x80 (Z.land (Z.shiftr cp 6) 0x3F); Z.lor 0x80 (Z.land cp 0x3F)] ++ r)
  = hi :: lo :: utf8_decode r.
Proof.
  intros Hh Hl cp.
  assert (Ecp : cp = 0x10000 + (hi - 0xD800) * 1024 + (lo - 0xDC00))
    by (unfold cp; rewrite Z.shiftl_mul_pow2 by lia; reflexivity).
  clearbody cp.
  assert (Hc : 0x10000 <= cp <= 0x10FFFF) by lia.
  rewrite (lor_prefix 30 3 (Z.shiftr cp 18)) by zl.
  rewrite (land_mask (Z.shiftr cp 12) 6), (land_mask (Z.shiftr cp 6) 6), (land_mask cp 6) by zl.
  rewrite (lor_prefix 2 6 (Z.shiftr cp 12 mod 2 ^ 6)) by zl.
  rewrite (lor_prefix 2 6 (Z.shiftr cp 6 mod 2 ^ 6)) by zl.
  rewrite (lor_prefix 2 6 (cp mod 2 ^ 6)) by zl.
  cbn [app utf8_decode]. rewrite cp4_eq.
  rewrite !Z.shiftr_div_pow2 by lia. pw.
  assert (Hcp : (240 + cp / 262144) mod 8 * 262144
                + ((128 + cp / 4096 mod 64) mod 64 * 4096
                   + ((128 + cp / 64 mod 64) mod 64 * 64 + (128 + cp mod 64) mod 64)) = cp) by zlia.
  rewrite Hcp.
  repeat (branch; try (exfalso; zb; zlia)).
  f_equal; [|f_equal].
  - zlia.
  - rewrite (land_mask _ 10) by zl. zlia.
Qed.


Lemma utf8_decode_encode_len (n : nat) (s : jsstr) : (length s <= n)%nat ->
  Forall code_unit s -> well_formed s = true -> utf8_decode (utf8_encode s) = s.
Proof.
  revert s. induction n as [|n IH]; intros [|c r] Hn Hs Hw; cbn [length] in Hn; try reflexivity; [lia|].
  apply Forall_cons_iff in Hs as [Hc Hr]. unfold code_unit in Hc.
  cbn [well_formed] in Hw. cbn [utf8_encode].
  destruct (Z.ltb_spec c 0x80).
  { cbn [utf8_decode]. rewrite (proj2 (Z.ltb_lt c 0x80)) by lia.
    unfold is_high_surrogate, is_low_surrogate in Hw.
    rewrite (proj2 (Z.leb_gt 0xD800 c)), (proj2 (Z.leb_gt 0xDC00 c)) in Hw by lia.
    f_equal. apply IH; [lia|exact Hr|exact Hw]. }
  destruct (Z.ltb_spec c 0x800).
  { rewrite dec2 by lia.
    unfold is_high_surrogate, is_low_surrogate in Hw.
    rewrite (proj2 (Z.leb_gt 0xD800 c)), (proj2 (Z.leb_gt 0xDC00 c)) in Hw by lia.
    f_equal. apply IH; [lia|exact Hr|exact Hw]. }
  unfold is_high_surrogate, is_low_surrogate in Hw.
  destruct ((0xD800 <=? c) && (c <=? 0xDBFF)) eqn:Eh.
  { destruct r as [|d r']; [discriminate Hw|].
    apply andb_true_iff in Hw as [Hd Hw].
    rewrite Hd. cbv zeta. zb.
    rewrite dec4 by lia. f_equal. f_equal.
    apply Forall_cons_iff in Hr as [_ Hr']. cbn [length] in Hn.
    apply IH; [lia|exact Hr'|exact Hw]. }
  destruct ((0xDC00 <=? c) && (c <=? 0xDFFF)) eqn:El; [discriminate Hw|].
  zb; rewrite dec3 by lia; f_equal; (apply IH; [lia|exact Hr|exact Hw]).
Qed.

Lemma utf8_decode_encode (s : jsstr) :
  Forall code_unit s -> well_formed s = true -> utf8_decode (utf8_encode s) = s.
Proof. apply (utf8_decode_encode_len (length s)). lia. Qed.

Lemma utf8_encode_bytes_len (n : nat) (s : jsstr) : (length s <= n)%nat ->
  Forall code_unit s -> Forall is_byte (utf8_encode s).
Proof.
  revert s. induction n as [|n IH]; intros [|c r] Hn Hs; cbn [length] in Hn;
    try (constructor; fail); [lia|].
  apply Forall_cons_iff in Hs as [Hc Hr]. unfold code_unit in Hc.
  assert (Hcont : forall x, is_byte (Z.lor 0x80 (Z.land x 0x3F))).
  { intros x. rewrite (land_mask x 6), (lor_prefix 2 6) by zl. unfold is_byte. zlia. }
  assert (Hrep : Forall is_byte [0xEF; 0xBF; 0xBD]) by (repeat constructor; unfold is_byte; lia).
  cbn [utf8_encode].
  destruct (Z.ltb_spec c 0x80).
  { constructor; [unfold is_byte; lia|]. apply IH; [lia|exact Hr]. }
  destruct (Z.ltb_spec c 0x800).
  { apply Forall_app; split; [|apply IH; [lia|exact Hr]].
    constructor; [|constructor; [apply Hcont|constructor]].
    rewrite (lor_prefix 6 5) by zl. unfold is_byte. zl. }
  destruct ((0xD800 <=? c) && (c <=? 0xDBFF)) eqn:Eh.
  { destruct r as [|d r']; [exact Hrep|].
    apply Forall_cons_iff in Hr as [Hd Hr']. unfold code_unit in Hd. cbn [length] in Hn.
    destruct ((0xDC00 <=? d) && (d <=? 0xDFFF)) eqn:Ed.
    - cbv zeta. zb. apply Forall_app; split; [|apply IH; [lia|exact Hr']].
      constructor; [|constructor; [apply Hcont|constructor; [apply Hcont|constructor; [apply Hcont|constructor]]]].
      rewrite Z.shiftl_mul_pow2 by lia. pw.
      rewrite (lor_prefix 30 3) by zl. unfold is_byte. zl.
    - apply Forall_app; split; [exact Hrep|]. apply IH; [cbn [length]; lia|]. constructor; assumption. }
  destruct ((0xDC00 <=? c) && (c <=? 0xDFFF)) eqn:El.
  { apply Forall_app; split; [exact Hrep|apply IH; [lia|exact Hr]]. }
  apply Forall_app; split; [|apply IH; [lia|exact Hr]].
  constructor; [|constructor; [apply Hcont|constructor; [apply Hcont|constructor]]].
  rewrite (lor_prefix 14 4) by zl. unfold is_byte. zl.
Qed.

(** [X15] [base64UrlDecode] of session.ts inverts [base64UrlEncode] of the guard handlers on every string of UTF-16 code units without lone surrogates. *)
Theorem base64Url_text_roundtrip (s : jsstr) :
  Forall code_unit s -> well_formed s = true -> base64UrlDecode (base64UrlEncode s) = s.
Proof.
  intros Hs Hw. unfold base64UrlEncode. rewrite base64Url_roundtrip.
  - apply utf8_decode_encode; assumption.
  - apply (utf8_encode_bytes_len (length s)); [lia|exact Hs].
Qed.

Lemma base64Url_text_roundtrip_witness :
  base64UrlDecode (base64UrlEncode [104; 233; 0x20AC; 0xD83D; 0xDE00]) = [104; 233; 0x20AC; 0xD83D; 0xDE00].
Proof.
  exact (base64Url_text_roundtrip [104; 233; 0x20AC; 0xD83D; 0xDE00]
           ltac:(repeat constructor; unfold code_unit; lia) eq_refl).
Defined.
